(** * Autocuration.py: the mutation-flagging engine and the curation facade

    A shallow embedding of [src/Autocuration.py] (classes [Curation],
    [MolSeq], [InDelSubs], [Blast]) together with the properties of the
    flag engine, the coordinate mappings and the facade.

    Conventions of the embedding:
    - Python [int] is [Z]; [str] is [string]; a Python [set] of column
      indices is a [gset Z]; a list, a numpy array and a data-frame column
      are [list]s; a data frame is a list of row records.
    - A Python exception is a value [Raise e] of the type [result]; the
      statements of a method are sequenced with the bind of that monad, in
      the order in which Python evaluates them.
    - A list comprehension [[f x for x in l if P x]] is [f <$> filter P l]. *)

From stdpp Require Import base gmap sets list strings sorting pretty.
From Stdlib Require Import ZArith QArith Lia Ascii.
From Stdlib Require String.

Local Open Scope string_scope.
Local Open Scope list_scope.
Local Open Scope Z_scope.

(** ** Exceptions *)

Inductive error : Type :=
| Exception (msg : string)
| IndexError
| KeyError (key : string)
| ValueError
| ZeroDivisionError
| UnboundLocalError (var : string)
| AttributeError (attr : string)
| TypeError.

Inductive result (A : Type) : Type :=
| Ok (a : A)
| Raise (e : error).
Arguments Ok {A} a.
Arguments Raise {A} e.

Definition bind {A B : Type} (m : result A) (f : A → result B) : result B :=
  match m with
  | Ok a => f a
  | Raise e => Raise e
  end.

Notation "'let*' x := m 'in' k" := (bind m (λ x, k))
  (at level 10, x name, m at level 100, k at level 200, only parsing).

(** A [for] loop that appends to one list: the bodies run in order and the
    first exception aborts the loop. *)
Fixpoint for_each {A B : Type} (body : A → result (list B)) (l : list A)
  : result (list B) :=
  match l with
  | [] => Ok []
  | x :: l' =>
    let* ys := body x in
    let* zs := for_each body l' in
    Ok (ys ++ zs)
  end.

(** ** Python built-ins *)

Definition len {A : Type} (l : list A) : Z := Z.of_nat (length l).

(** [l[i]], with Python's negative indices. *)
Definition py_index {A : Type} (l : list A) (i : Z) : result A :=
  let j := if decide (i < 0) then len l + i else i in
  if decide (0 ≤ j < len l) then
    match l !! Z.to_nat j with
    | Some x => Ok x
    | None => Raise IndexError
    end
  else Raise IndexError.

(** [enumerate(l)] (counting from [n]). *)
Fixpoint enumerate_from {A : Type} (n : Z) (l : list A) : list (Z * A) :=
  match l with
  | [] => []
  | x :: l' => (n, x) :: enumerate_from (n + 1) l'
  end.

Definition enumerate {A : Type} (l : list A) : list (Z * A) :=
  enumerate_from 0 l.

(** [itertools.groupby(l, key)]: the maximal runs of neighbours with equal
    keys, each with its key. *)
Fixpoint groupby {A K : Type} `{EqDecision K} (key : A → K) (l : list A)
  : list (K * list A) :=
  match l with
  | [] => []
  | x :: l' =>
    match groupby key l' with
    | (k, g) :: rest =>
      if decide (key x = k) then (k, x :: g) :: rest
      else (key x, [x]) :: (k, g) :: rest
    | [] => [(key x, [x])]
    end
  end.

(** [np.sort(np.array(list(s)))] *)
Definition np_sort (l : list Z) : list Z := merge_sort Z.le l.

(** [str(n)] *)
Definition str (n : Z) : string := pretty n.

(** The characters of a string, as Python iterates over it. *)
Definition chars (s : string) : list ascii := String.list_ascii_of_string s.

(** ** InDelSubs: the columns of the alignment *)

(** [set([i for i, ltr in enumerate(seq) if ltr == "-"])] *)
Definition dash_columns (seq : string) : gset Z :=
  list_to_set (fst <$> filter (λ il, il.2 = "-"%char) (enumerate (chars seq))).

(** The idiom
    [for k, g in groupby(enumerate(a), lambda ix: ix[0] - ix[1]):
         groups.append(list(map(itemgetter(1), g)))]. *)
Definition consecutive_groups (a : list Z) : list (list Z) :=
  (λ kg : Z * list (Z * Z), snd <$> kg.2) <$> groupby (λ ix : Z * Z, ix.1 - ix.2) (enumerate a).

Record InDelSubs : Type := {
  nkdp : gset Z;              (* query-gap columns, a set *)
  nkip : list Z;              (* insertion columns, the sorted array *)
  nkadp : gset Z;             (* accepted intra-profile gap columns *)
  query_seq : string;
  profile_seqs : list string;
  del_groups : list (list Z);
  ins_groups : list (list Z)
}.

(** The intermediate sets of [InDelSubs.__init__]. *)
Definition profile_dash_union (first_seq_dashes : gset Z)
    (profile_seqs_minus : list string) : gset Z :=
  foldl (λ acc seq, acc ∪ dash_columns seq) first_seq_dashes profile_seqs_minus.

Definition profile_dash_intsct (first_seq_dashes : gset Z)
    (profile_seqs_minus : list string) : gset Z :=
  foldl (λ acc seq, acc ∩ dash_columns seq) first_seq_dashes profile_seqs_minus.

(** [InDelSubs.__init__], from the sequences that [SeqIO.parse] yields. *)
Definition InDelSubs_init (sequences : list string) : result InDelSubs :=
  let* query_seq := py_index sequences (len sequences - 1) in
  let profile_seqs := take (length sequences - 1)%nat sequences in
  let nkdp := dash_columns query_seq in
  let* first_seq := py_index profile_seqs 0 in
  let first_seq_dashes := dash_columns first_seq in
  let profile_seqs_minus := drop 1 profile_seqs in
  let dash_union := profile_dash_union first_seq_dashes profile_seqs_minus in
  let dash_intsct := profile_dash_intsct first_seq_dashes profile_seqs_minus in
  let nkip := dash_intsct ∖ nkdp in
  let nkadp := dash_union ∖ nkip in
  let flag_dels := np_sort (elements (nkdp ∖ nkadp)) in
  let del_groups := consecutive_groups flag_dels in
  let nkip := np_sort (elements nkip) in
  let ins_groups := consecutive_groups nkip in
  Ok {| nkdp := nkdp; nkip := nkip; nkadp := nkadp;
        query_seq := query_seq; profile_seqs := profile_seqs;
        del_groups := del_groups; ins_groups := ins_groups |}.

(** ** The tables and the flag records *)

(** A row of [boundary_df] (columns Region, Start, End). *)
Record boundary_row : Type := {
  b_Region : string;
  b_Start : Z;
  b_End : Z
}.

(** A row of [lookup_df] (columns Flag, Start, End). *)
Record lookup_row : Type := {
  lk_Flag : string;
  lk_Start : Z;
  lk_End : Z
}.

(** A flag tuple; the fields are named after the columns that
    [Curation.mutation_flags] gives them. *)
Record flag : Type := mk_flag {
  Flag : string;
  Profile_Position : string;
  Query_Position : string;
  Variant : string;
  Length : Z
}.

(** ** The coordinate mappings

    The four position expressions that the methods of [InDelSubs] repeat. *)

(** [(j-len([i for i in self.nkip if i < j]))+1] *)
Definition col_to_prof (nkip : list Z) (j : Z) : Z :=
  (j - len (filter (λ i, i < j) nkip)) + 1.

(** [(j-len([i for i in self.nkip if i <= j]))+1] *)
Definition col_to_prof_ins (nkip : list Z) (j : Z) : Z :=
  (j - len (filter (λ i, i ≤ j) nkip)) + 1.

(** [(j-len([i for i in self.nkdp if i <= j]))+1] *)
Definition col_to_qry (nkdp : gset Z) (j : Z) : Z :=
  (j - len (filter (λ i, i ≤ j) (elements nkdp))) + 1.

(** [(j-len([i for i in self.nkdp if i < j]))+1] *)
Definition col_to_qry_ins (nkdp : gset Z) (j : Z) : Z :=
  (j - len (filter (λ i, i < j) (elements nkdp))) + 1.

(** [p + len([i for i in all_profile_ins if i < p])
       - len([j for j in all_profile_del if j <= p])]: the query position
    of the canonical profile position [p] (lines 557 and 558). *)
Definition prof_to_qry (all_profile_ins all_profile_del : list Z) (p : Z) : Z :=
  p + len (filter (λ i, i < p) all_profile_ins)
    - len (filter (λ j, j ≤ p) all_profile_del).

(** ** The whitelist *)

(** [InDelSubs.check_lookup] *)
Definition check_lookup (lookup_df : list lookup_row) (flag : string)
    (start end' : Z) : string :=
  let table :=
    filter (λ r, lk_Flag r = flag ∧ lk_Start r ≤ start ∧ lk_End r >= end')
           lookup_df in
  if decide (len table > 0) then "PASS" else "FAIL".

(** ** Deletion flags *)

Section deletion_flags.
Context (self : InDelSubs) (lookup_df : list lookup_row).

(** Lines 569 to 592 of [deletion_flags]: the positions of the flag and
    the chain of tests on the region. *)
Definition deletion_emit (pos : list Z) (region : string)
    (region_dels_p region_dels_q : list Z) : result (list flag) :=
  let* profile_pos :=
    (if decide (len pos > 1) then
       let* p0 := py_index region_dels_p 0 in
       let* pl := py_index region_dels_p (len region_dels_p - 1) in
       Ok (str p0 +:+ ".." +:+ str pl)
     else
       let* p0 := py_index region_dels_p 0 in
       Ok (str p0)) in
  let* q0 := py_index region_dels_q 0 in
  let query_pos := str q0 +:+ ".." +:+ str (q0 + 1) in
  let candidate (kind : string) :=
    mk_flag kind profile_pos query_pos "del" (len region_dels_p) in
  let checked (kind : string) : result (list flag) :=
    let* p0 := py_index region_dels_p 0 in
    let* pl := py_index region_dels_p (len region_dels_p - 1) in
    if decide (check_lookup lookup_df kind p0 pl = "FAIL")
    then Ok [candidate kind] else Ok [] in
  if decide (region = "CTS5") then Ok [candidate "5'CTS-del"]
  else if decide (region = "CTS3") then Ok [candidate "3'CTS-del"]
  else if decide (region = "NCR5") then checked "5'NCR-del"
  else if decide (region = "NCR3") then checked "3'NCR-del"
  else if decide (region = "CDS") then
    if decide (len pos `mod` 3 = 0) then checked "CDS-3Xdel"
    else checked "CDS-del"
  else Ok [].

(** Line 532. *)
Definition all_profile_ins : list Z :=
  col_to_prof_ins (nkip self) <$> nkip self.

(** Line 533. *)
Definition all_profile_del : list Z :=
  col_to_prof (nkip self) <$> elements (nkdp self).

(** Lines 540 and 541, for the run [pos]. *)
Definition profile_del (pos : list Z) : list Z :=
  col_to_prof (nkip self) <$> pos.

Definition query_del (pos : list Z) : list Z :=
  col_to_qry (nkdp self) <$> pos.

(** Lines 544 and 545: the rows of the boundary table that the run
    overlaps. *)
Definition regions (boundary_df : list boundary_row) (pos : list Z)
  : result (list boundary_row) :=
  let* p_last := py_index (profile_del pos) (len (profile_del pos) - 1) in
  let* p_first := py_index (profile_del pos) 0 in
  Ok (filter (λ r, b_Start r ≤ p_last ∧ b_End r >= p_first) boundary_df).

(** Lines 557 and 558. *)
Definition start_q (reg : boundary_row) : Z :=
  prof_to_qry all_profile_ins all_profile_del (b_Start reg).

Definition end_q (reg : boundary_row) : Z :=
  prof_to_qry all_profile_ins all_profile_del (b_End reg).

(** Lines 561 and 562. *)
Definition region_dels_p (reg : boundary_row) (pos : list Z) : list Z :=
  filter (λ i, b_Start reg ≤ i ≤ b_End reg) (profile_del pos).

Definition region_dels_q (reg : boundary_row) (pos : list Z) : list Z :=
  filter (λ i, start_q reg ≤ i ≤ end_q reg) (query_del pos).

(** The body of the loop [for reg in regions] (lines 549 to 592). *)
Definition deletion_region_flags (pos : list Z) (reg : boundary_row)
  : result (list flag) :=
  let* q0 := py_index (region_dels_q reg pos) 0 in
  if decide (q0 = 0
             ∨ q0 = len (chars (query_seq self)) - Z.of_nat (size (nkdp self)))
  then Ok []
  else deletion_emit pos (b_Region reg)
                     (region_dels_p reg pos) (region_dels_q reg pos).

(** The body of the loop [for pos in self.del_groups] (lines 540 to 592). *)
Definition deletion_group_flags (boundary_df : list boundary_row)
    (pos : list Z) : result (list flag) :=
  let* regions := regions boundary_df pos in
  for_each (deletion_region_flags pos) regions.

(** [InDelSubs.deletion_flags] *)
Definition deletion_flags (boundary_df : list boundary_row)
  : result (list flag) :=
  for_each (deletion_group_flags boundary_df) (del_groups self).
End deletion_flags.

(** ** Slices and case *)

(** A slice bound, as Python normalises it against the length [n]. *)
Definition slice_bound (n i : Z) : Z :=
  if decide (i < 0) then Z.max (n + i) 0 else Z.min i n.

(** [l[a:b]] *)
Definition py_slice {A : Type} (l : list A) (a b : Z) : list A :=
  let a' := slice_bound (len l) a in
  let b' := slice_bound (len l) b in
  take (Z.to_nat (b' - a')) (drop (Z.to_nat a') l).

(** [s[a:b]] on a string. *)
Definition str_slice (s : string) (a b : Z) : string :=
  String.string_of_list_ascii (py_slice (chars s) a b).

(** [c.upper()] on an ASCII character. *)
Definition upper_char (c : ascii) : ascii :=
  let n := nat_of_ascii c in
  if decide (97 ≤ n ≤ 122)%nat then ascii_of_nat (n - 32) else c.

(** [s.upper()] *)
Definition upper (s : string) : string :=
  String.string_of_list_ascii (upper_char <$> chars s).

(** ** Insertion flags *)

Section insertion_flags.
Context (self : InDelSubs).

(** Lines 627 to 639: the chain of tests on the region. *)
Definition insertion_emit (pos : list Z) (region : string)
    (profile_pos query_pos ins_muts : string) : list flag :=
  let emitted (kind : string) :=
    [mk_flag kind profile_pos query_pos ins_muts (len pos)] in
  if decide (region = "CTS5") then emitted "5'CTS-ins"
  else if decide (region = "CTS3") then emitted "3'CTS-ins"
  else if decide (region = "NCR5") then emitted "5'NCR-ins"
  else if decide (region = "NCR3") then emitted "3'NCR-ins"
  else if decide (region = "CDS") then
    if decide (len pos `mod` 3 = 0) then emitted "CDS-3Xins"
    else emitted "CDS-ins"
  else [].

(** The body of the loop [for pos in self.ins_groups] (lines 604 to 639). *)
Definition insertion_group_flags (boundary_df : list boundary_row)
    (profile_length : Z) (pos : list Z) : result (list flag) :=
  let* c_first := py_index pos 0 in
  let* c_last := py_index pos (len pos - 1) in
  let ins_muts := upper (str_slice (query_seq self) c_first (c_last + 1)) in
  let profile_ins := col_to_prof_ins (nkip self) <$> pos in
  let query_ins := col_to_qry_ins (nkdp self) <$> pos in
  let* query_pos :=
    (if decide (len pos > 1) then
       let* q0 := py_index query_ins 0 in
       let* ql := py_index query_ins (len query_ins - 1) in
       Ok (str q0 +:+ ".." +:+ str ql)
     else
       let* q0 := py_index query_ins 0 in
       Ok (str q0)) in
  let* p0 := py_index profile_ins 0 in
  let profile_pos := str p0 +:+ ".." +:+ str (p0 + 1) in
  if decide (p0 = 0) then
    Ok [mk_flag "5'NCR-ext" profile_pos query_pos ins_muts (len pos)]
  else if decide (p0 = profile_length) then
    let profile_pos := str p0 +:+ ".." in
    Ok [mk_flag "3'NCR-ext" profile_pos query_pos ins_muts (len pos)]
  else
    let* pl := py_index profile_ins (len profile_ins - 1) in
    let region :=
      filter (λ r, b_Start r ≤ pl ∧ b_End r >= p0) boundary_df in
    let* region := py_index (b_Region <$> region) 0 in
    Ok (insertion_emit pos region profile_pos query_pos ins_muts).

(** [InDelSubs.insertion_flags]; [boundary_df['End'][4]] looks the label
    4 up in the index of the column. *)
Definition insertion_flags (boundary_df : list boundary_row)
  : result (list flag) :=
  let* profile_length :=
    match (b_End <$> boundary_df) !! 4%nat with
    | Some e => Ok e
    | None => Raise (KeyError "4")
    end in
  for_each (insertion_group_flags boundary_df profile_length)
           (ins_groups self).
End insertion_flags.

(** ** String methods *)

(** [s.startswith(p)] *)
Definition startswith (s p : string) : bool := String.prefix p s.

(** [sub in s] *)
Fixpoint contains (sub s : string) : bool :=
  String.prefix sub s ||
  match s with
  | EmptyString => false
  | String _ s' => contains sub s'
  end.

(** [s.count(c)] for a one-character [c]. *)
Definition count_char (c : ascii) (s : string) : Z :=
  len (filter (λ x, x = c) (chars s)).

(** ASCII white space, as [str.isspace] sees it. *)
Definition is_space (c : ascii) : Prop :=
  let n := nat_of_ascii c in
  (9 ≤ n ≤ 13)%nat ∨ (28 ≤ n ≤ 32)%nat.

Global Instance is_space_dec c : Decision (is_space c).
Proof. unfold is_space. apply _. Defined.

Fixpoint lstrip (l : list ascii) : list ascii :=
  match l with
  | c :: l' => if decide (is_space c) then lstrip l' else l
  | [] => []
  end.

(** [s.strip()] *)
Definition strip (s : string) : string :=
  String.string_of_list_ascii (reverse (lstrip (reverse (lstrip (chars s))))).

(** [s.split(sep)] for a non-empty [sep]: [skip] counts the characters of a
    separator that was just matched and is still to be passed over. *)
Fixpoint split_aux (sep : string) (skip : nat) (cur : list ascii)
    (s : string) : list string :=
  match s with
  | EmptyString => [String.string_of_list_ascii (reverse cur)]
  | String c s' =>
    match skip with
    | S k => split_aux sep k cur s'
    | O =>
      if String.prefix sep s
      then String.string_of_list_ascii (reverse cur)
             :: split_aux sep (String.length sep - 1) [] s'
      else split_aux sep 0 (c :: cur) s'
    end
  end.

Definition split (s sep : string) : list string := split_aux sep 0 [] s.

(** [int(s)]: white space around, an optional sign, decimal digits with
    single underscores between them; anything else is a [ValueError]. *)
Definition is_digit (c : ascii) : Prop :=
  (48 ≤ nat_of_ascii c ≤ 57)%nat.

Global Instance is_digit_dec c : Decision (is_digit c).
Proof. unfold is_digit. apply _. Defined.

Fixpoint digits_value (acc : Z) (after_digit : bool) (l : list ascii)
  : option Z :=
  match l with
  | [] => if after_digit then Some acc else None
  | c :: l' =>
    if decide (is_digit c)
    then digits_value (10 * acc + (Z.of_nat (nat_of_ascii c) - 48)) true l'
    else if decide (c = "_"%char)
         then (if after_digit then digits_value acc false l' else None)
         else None
  end.

Definition int (s : string) : result Z :=
  let body := chars (strip s) in
  let parsed :=
    match body with
    | "-"%char :: ds => Z.opp <$> digits_value 0 false ds
    | "+"%char :: ds => digits_value 0 false ds
    | ds => digits_value 0 false ds
    end in
  match parsed with
  | Some n => Ok n
  | None => Raise ValueError
  end.

(** A list comprehension whose condition can raise. *)
Fixpoint filter_raising {A : Type} (cond : A → result bool) (l : list A)
  : result (list A) :=
  match l with
  | [] => Ok []
  | x :: l' =>
    let* b := cond x in
    let* ys := filter_raising cond l' in
    Ok (if b : bool then x :: ys else ys)
  end.

(** A list comprehension whose element expression can raise. *)
Fixpoint map_raising {A B : Type} (f : A → result B) (l : list A)
  : result (list B) :=
  match l with
  | [] => Ok []
  | x :: l' =>
    let* y := f x in
    let* ys := map_raising f l' in
    Ok (y :: ys)
  end.

(** [sum(l)] *)
Definition py_sum (l : list Z) : Z := foldr Z.add 0 l.

(** [range(n)] *)
Definition range (n : Z) : list Z := seqZ 0 n.

(** ** Substitution flags *)

Section substitution_flags.
Context (self : InDelSubs).

(** [sum([len(self.ins_groups[i]) for i in range(len(self.ins_groups))
          if self.ins_groups[i][0] < x])] *)
Definition ins_before (x : Z) : result Z :=
  let* gs := filter_raising
         (λ g, let* g0 := py_index g 0 in Ok (bool_decide (g0 < x)))
         (ins_groups self) in
  Ok (py_sum (len <$> gs)).

(** The comprehensions [cts5_muts] and [cts3_muts]: the window is
    [[start_adj : end_adj+1]]; [shift] is what is added to the index [i]
    (nothing for the 5' end, [CTS3_start_adj] for the 3' end). *)
Definition cts_muts (start_adj end_adj shift : Z) : result (list Z) :=
  let cts_query := py_slice (chars (query_seq self)) start_adj (end_adj + 1) in
  let* hits := filter_raising
           (λ i,
              let* qi := py_index cts_query i in
              let* bases := map_raising
                        (λ seq, py_index (py_slice (chars seq) start_adj
                                                   (end_adj + 1)) i)
                        (profile_seqs self) in
              Ok (bool_decide (qi ∉ bases)
                  && negb (bool_decide (i + shift ∈ nkip self)
                           || bool_decide (i + shift ∈ nkdp self))))
           (range (len cts_query)) in
  Ok ((λ i, i + shift) <$> hits).

(** The body of the loops over [cts5_positions] and [cts3_positions];
    [len(set(list(subs))) == 1 and list(set(list(subs)))[0] == 'N'] says
    that the distinct characters of [subs] are exactly [N]. *)
Definition substitution_group_flags (kind : string) (pos : list Z)
  : result (list flag) :=
  let* c_first := py_index pos 0 in
  let* c_last := py_index pos (len pos - 1) in
  let subs := upper (str_slice (query_seq self) c_first (c_last + 1)) in
  if decide (remove_dups (chars subs) = ["N"%char]) then Ok []
  else
    let profile_sub := col_to_prof (nkip self) <$> pos in
    let query_sub := col_to_qry_ins (nkdp self) <$> pos in
    let* p0 := py_index profile_sub 0 in
    let* positions :=
      (if decide (len pos > 1) then
         let* pl := py_index profile_sub (len profile_sub - 1) in
         let* q0 := py_index query_sub 0 in
         let* ql := py_index query_sub (len query_sub - 1) in
         Ok (str p0 +:+ ".." +:+ str pl, str q0 +:+ ".." +:+ str ql)
       else
         let* q0 := py_index query_sub 0 in
         Ok (str p0, str q0)) in
    Ok [mk_flag kind positions.1 positions.2 subs (len pos)].

(** [InDelSubs.substitution_flags] *)
Definition substitution_flags (boundary_df : list boundary_row)
  : result (list flag) :=
  let CTS5 := filter (λ r, b_Region r = "CTS5") boundary_df in
  let CTS3 := filter (λ r, b_Region r = "CTS3") boundary_df in
  let* s5 := py_index (b_Start <$> CTS5) 0 in
  let CTS5_start := s5 - 1 in
  let* s3 := py_index (b_Start <$> CTS3) 0 in
  let CTS3_start := s3 - 1 in
  let* e5 := py_index (b_End <$> CTS5) 0 in
  let CTS5_end := e5 - 1 in
  let* e3 := py_index (b_End <$> CTS3) 0 in
  let CTS3_end := e3 - 1 in
  let CTS5_start_adj := CTS5_start in
  let* n := ins_before CTS3_start in
  let CTS3_start_adj := CTS3_start + n in
  let* n := ins_before CTS5_end in
  let CTS5_end_adj := CTS5_end + n in
  let* n := ins_before CTS3_end in
  let CTS3_end_adj := CTS3_end + n in
  let* cts5_muts := cts_muts CTS5_start_adj CTS5_end_adj 0 in
  let* cts3_muts := cts_muts CTS3_start_adj CTS3_end_adj CTS3_start_adj in
  let cts5_positions := consecutive_groups cts5_muts in
  let cts3_positions := consecutive_groups cts3_muts in
  let* flags5 := for_each (substitution_group_flags "5'CTS-mut") cts5_positions in
  let* flags3 := for_each (substitution_group_flags "3'CTS-mut") cts3_positions in
  Ok (flags5 ++ flags3).
End substitution_flags.

(** ** The reference loaders *)

Definition nl : string := String (ascii_of_nat 10) EmptyString.

(** The loop of [parse_boundary_file] that keeps the first line that
    starts with [strain_name] (and [boundary] when there is none). *)
Fixpoint select_boundary (strain_name boundary : string)
    (boundary_types : list string) : string :=
  match boundary_types with
  | [] => boundary
  | line :: rest =>
    if startswith line strain_name then line
    else select_boundary strain_name boundary rest
  end.

(** [boundaries[key]] *)
Definition getitem (boundaries : gmap string Z) (key : string) : result Z :=
  match boundaries !! key with
  | Some pos => Ok pos
  | None => Raise (KeyError key)
  end.

(** The loop [for coord in boundary] that fills the dictionary. *)
Fixpoint read_coords (boundaries : gmap string Z) (boundary : list string)
  : result (gmap string Z) :=
  match boundary with
  | [] => Ok boundaries
  | coord :: rest =>
    let* feat := py_index (split coord "=") 0 in
    let* digits := py_index (split coord "=") 1 in
    let* pos := int digits in
    read_coords (<[feat := pos]> boundaries) rest
  end.

(** [Curation.parse_boundary_file], after the lines have been read. *)
Definition boundary_table (strain_name : string)
    (boundary_types : list string) : result (list boundary_row) :=
  let boundary := select_boundary strain_name "" boundary_types in
  let boundary := drop 1 (split boundary "|") in
  let* boundaries := read_coords ∅ boundary in
  let* s1 := getitem boundaries "START" in
  let* c5 := getitem boundaries "CTS5" in
  let* s3 := getitem boundaries "ATG" in
  let* st := getitem boundaries "STOP" in
  let* s5 := getitem boundaries "CTS3" in
  let* e1 := getitem boundaries "CTS5" in
  let* atg := getitem boundaries "ATG" in
  let* e3 := getitem boundaries "STOP" in
  let* c3 := getitem boundaries "CTS3" in
  let* e5 := getitem boundaries "END" in
  Ok [ {| b_Region := "CTS5"; b_Start := s1; b_End := e1 |};
       {| b_Region := "NCR5"; b_Start := c5 + 1; b_End := atg - 1 |};
       {| b_Region := "CDS"; b_Start := s3; b_End := e3 |};
       {| b_Region := "NCR3"; b_Start := st + 1; b_End := c3 - 1 |};
       {| b_Region := "CTS3"; b_Start := s5; b_End := e5 |} ].

(** [Curation.parse_boundary_file]; [readlines] is what
    [open(boundary_file, 'r').readlines()] gives. *)
Definition parse_boundary_file (readlines : string → result (list string))
    (strain_name boundary_file : string) : result (list boundary_row) :=
  match readlines boundary_file with
  | Raise _ =>
    Raise (Exception
             (nl +:+ "ERROR: Invalid boundary_file directory and/or file" +:+ nl))
  | Ok boundary_types => boundary_table strain_name boundary_types
  end.

(** The body of the loop of [parse_lookup_table] for a line of the
    profile. *)
Definition lookup_line (line : string) : result lookup_row :=
  let line_attribs := split line (String (ascii_of_nat 9) EmptyString) in
  let* flag := py_index line_attribs 1 in
  let* range := py_index line_attribs 2 in
  let start_end := split range ".." in
  if decide (len start_end = 2) then
    let* s := py_index start_end 0 in
    let* start := int s in
    let* e := py_index start_end 1 in
    let* end' := int e in
    Ok {| lk_Flag := flag; lk_Start := start; lk_End := end' |}
  else
    let* s := py_index start_end 0 in
    let* start := int s in
    let* e := py_index start_end 0 in
    let* end' := int e in
    Ok {| lk_Flag := flag; lk_Start := start; lk_End := end' |}.

(** [Curation.parse_lookup_table] *)
Definition parse_lookup_table (readlines : string → result (list string))
    (profile lookup_table : string) : result (list lookup_row) :=
  match readlines lookup_table with
  | Raise _ =>
    Raise (Exception
             (nl +:+ "ERROR: Invalid lookup_table directory and/or file" +:+ nl))
  | Ok lookup_allowed =>
    let* profile_lookup :=
      map_raising lookup_line
                  (filter (λ line, startswith line profile = true) lookup_allowed) in
    if decide (profile_lookup ≠ []) then Ok profile_lookup
    else Ok [ {| lk_Flag := "XXX"; lk_Start := -1; lk_End := -1 |} ]
  end.

(** ** MolSeq: the ambiguity screen

    The contents are quotients of two counts; they are kept as exact
    rationals, and [x > 0.005] is the comparison of rationals. *)

Record MolSeq : Type := {
  seq_id : string;
  seq : string
}.

Definition MolSeq_init (accession sequence : string) : MolSeq :=
  {| seq_id := strip accession; seq := strip sequence |}.

Definition get_seq (m : MolSeq) : string := seq m.

Definition get_length (m : MolSeq) : Z := len (chars (seq m)).

Definition count_regular_nucs (m : MolSeq) : Z :=
  let a := count_char "a" (get_seq m) + count_char "A" (get_seq m) in
  let c := count_char "c" (get_seq m) + count_char "C" (get_seq m) in
  let g := count_char "g" (get_seq m) + count_char "G" (get_seq m) in
  let t := count_char "t" (get_seq m) + count_char "T" (get_seq m) in
  a + c + g + t.

Definition count_indeterminate_nucs (m : MolSeq) : Z :=
  count_char "n" (get_seq m) + count_char "N" (get_seq m).

(** [a / b] on two integers. *)
Definition truediv (a b : Z) : result Q :=
  if decide (b = 0) then Raise ZeroDivisionError
  else Ok (Qdiv (inject_Z a) (inject_Z b)).

Definition get_n_content (m : MolSeq) : result Q :=
  truediv (count_indeterminate_nucs m) (get_length m).

Definition get_ambig_content (m : MolSeq) : result Q :=
  truediv (get_length m - (count_regular_nucs m + count_indeterminate_nucs m))
          (get_length m).

(** [x < y] on rationals, as a boolean. *)
Definition Qltb (x y : Q) : bool :=
  if Qlt_le_dec x y then true else false.

(** ** Blast: the classifier, from the parsed BLAST records *)

Record hsp : Type := {
  identities : Z;
  align_length : Z
}.

Record blast_alignment : Type := {
  title : string;
  hsps : list hsp
}.

(** The identity is a float or the string [Unknown]. *)
Inductive identity_value : Type :=
| IdentityUnknown
| IdentityFloat (q : Q).

Record Blast : Type := {
  blast_profile : string;
  blast_identity : identity_value
}.

(** [Blast.__init__], from the records that [NCBIXML.parse] yields (each
    record is its list of alignments); only the first record is read. *)
Definition Blast_init (results : list (list blast_alignment)) : result Blast :=
  match results with
  | [] => Raise (UnboundLocalError "profile")
  | alignments :: _ =>
    if decide (len alignments > 0) then
      let* a := py_index alignments 0 in
      let* profile := py_index (split (title a) "|") 3 in
      let* a' := py_index alignments 0 in
      let* h := py_index (hsps a') 0 in
      let* identity := truediv (identities h) (align_length h) in
      Ok {| blast_profile := profile; blast_identity := IdentityFloat identity |}
    else
      Ok {| blast_profile := "Unknown"; blast_identity := IdentityUnknown |}
  end.

(** [sep.join(l)] *)
Fixpoint join (sep : string) (l : list string) : string :=
  match l with
  | [] => ""
  | [s] => s
  | s :: rest => s +:+ sep +:+ join sep rest
  end.

(** [Blast.get_strain] *)
Definition get_strain (b : Blast) : string :=
  if decide (blast_profile b = "Unknown") then "Unknown"
  else
    let strain := split (blast_profile b) "_" in
    let strain := py_slice strain 0 (len strain - 1) in
    join "_" strain.

(** ** Curation: the facade

    What the constructor reads from outside is a [World]; every access to
    it is logged as an [event], in order, whether or not it succeeds. *)

Record World : Type := {
  (* what [Curation.get_acc_and_seq] returns for a query file *)
  get_acc_and_seq : string → result (string * string);
  (* [os.listdir] *)
  listdir : string → result (list string);
  (* the records of the BLAST run on a query file *)
  blast_records : string → result (list (list blast_alignment));
  (* [open(path).readlines()] *)
  readlines : string → result (list string);
  (* the sequences of the alignment file once the command has run *)
  muscle : string → result (list string);
  (* writing a file *)
  write : string → result unit
}.

Inductive event : Type :=
| ReadQuery (query : string)
| ListDir (profile_dir : string)
| RunBlast (query : string)
| OpenFile (path : string)
| RunMuscle (cmd : string)
| ReadAlignment (alignment : string)
| SaveAlignment (path : string).

Definition io (A : Type) : Type := list event * result A.

Definition io_bind {A B : Type} (m : io A) (f : A → io B) : io B :=
  match m with
  | (log, Ok a) => let '(log', r) := f a in (log ++ log', r)
  | (log, Raise e) => (log, Raise e)
  end.

Notation "'let!' x := m 'in' k" := (io_bind m (λ x, k))
  (at level 10, x name, m at level 100, k at level 200, only parsing).

Definition perform {A : Type} (e : event) (r : result A) : io A := ([e], r).
Definition pure {A : Type} (r : result A) : io A := ([], r).

(** The object: the attributes set on the sentinel path are [profile],
    [identity], [strain_name] and [accession] only; an attribute that was
    never set is [None]. *)
Record Curation : Type := {
  profile : string;
  identity : identity_value;
  strain_name : string;
  accession : string;
  mut_flags : option (list flag);
  del_flags : option (list flag);
  ins_flags : option (list flag);
  sub_flags : option (list flag);
  ambig_flags : option (list string)
}.

(** Reading an attribute. *)
Definition getattr {A : Type} (name : string) (a : option A) : result A :=
  match a with
  | Some v => Ok v
  | None => Raise (AttributeError name)
  end.

(** Reading the local variable [identity] of the constructor, which is
    bound on the BLAST branch only. *)
Definition local_identity (identity : option identity_value)
  : result identity_value :=
  match identity with
  | Some v => Ok v
  | None => Raise (UnboundLocalError "identity")
  end.

(** [identity < 0.80] *)
Definition identity_below (identity : identity_value) (bound : Q)
  : result bool :=
  match identity with
  | IdentityFloat q => Ok (Qltb q bound)
  | IdentityUnknown => Raise TypeError
  end.

(** Lines 66 to 73: the ambiguity screen. *)
Definition ambiguity_screen (accession sequence : string)
    (identity : option identity_value) : result (list string) :=
  let ambig_flags := [] in
  let molseq := MolSeq_init accession sequence in
  let* n_content := get_n_content molseq in
  let ambig_flags :=
    if Qltb (5 # 1000) n_content then ambig_flags ++ ["Excess-N"]
    else ambig_flags in
  let* ambig_content := get_ambig_content molseq in
  let ambig_flags :=
    if Qltb (5 # 1000) ambig_content then ambig_flags ++ ["Excess-Ambig"]
    else ambig_flags in
  let* identity := local_identity identity in
  let* below := identity_below identity (80 # 100) in
  Ok (if below : bool then ambig_flags ++ ["Excess-Dist"] else ambig_flags).

(** [if strain_name:] *)
Definition supplied (strain_name : option string) : option string :=
  match strain_name with
  | Some name => if decide (name = "") then None else Some name
  | None => None
  end.

Global Instance flag_eq_dec : EqDecision flag.
Proof. solve_decision. Defined.

(** [Curation.__init__] *)
Definition Curation_init (w : World) (query : string)
    (strain_name : option string)
    (boundary_file lookup_table profile_dir output_dir : string)
  : io Curation :=
  let! acc_seq := perform (ReadQuery query) (get_acc_and_seq w query) in
  let accession := acc_seq.1 in
  let sequence := acc_seq.2 in
  let! classified :=
    match supplied strain_name with
    | Some strain_name =>
      let! profile :=
        perform (ListDir profile_dir)
          (match (let* names := listdir w profile_dir in
                  py_index (filter (λ filename,
                                      startswith filename strain_name = true)
                                   names) 0) with
           | Ok profile => Ok profile
           | Raise _ =>
             Raise (Exception
                      (nl +:+ "ERROR: Invalid profiles directory or strain name"
                          +:+ nl))
           end) in
      pure (Ok (profile, None, strain_name))
    | None =>
      let! b :=
        perform (RunBlast query)
                (let* records := blast_records w query in Blast_init records) in
      pure (Ok (blast_profile b, Some (blast_identity b), get_strain b))
    end in
  let profile := classified.1.1 in
  let identity : option identity_value := classified.1.2 in
  let strain_name := classified.2 in
  if decide (profile = "Unknown") then
    pure (Ok {| profile := "Unknown"; identity := IdentityUnknown;
                strain_name := "Unknown"; accession := accession;
                mut_flags := None; del_flags := None; ins_flags := None;
                sub_flags := None; ambig_flags := None |})
  else
    let! boundary_df :=
      perform (OpenFile boundary_file)
              (parse_boundary_file (readlines w) strain_name boundary_file) in
    let! lookup_df :=
      perform (OpenFile lookup_table)
              (parse_lookup_table (readlines w) profile lookup_table) in
    let! ambig_flags := pure (ambiguity_screen accession sequence identity) in
    let alignment := profile_dir +:+ "/precomputed_alignment.fasta" in
    let cmd := "./muscle -maxiters 1000 -profile -in1 " +:+ profile_dir +:+ "/"
               +:+ profile +:+ " -in2 " +:+ query +:+ " -out " +:+ alignment in
    let! _ := perform (RunMuscle cmd) (Ok ()) in
    let! muts :=
      perform (ReadAlignment alignment)
              (let* sequences := muscle w cmd in InDelSubs_init sequences) in
    let! del_flags := pure (deletion_flags muts lookup_df boundary_df) in
    let! ins_flags := pure (insertion_flags muts boundary_df) in
    let! sub_flags := pure (substitution_flags muts boundary_df) in
    let mut_flags := del_flags ++ ins_flags ++ sub_flags in
    let! _ :=
      if decide (len ins_flags = 0) then
        let path := output_dir +:+ "/" +:+ accession +:+ "_aligned.fasta" in
        perform (SaveAlignment path) (write w path)
      else pure (Ok ()) in
    let! identity := pure (local_identity identity) in
    pure (Ok {| profile := profile; identity := identity;
                strain_name := strain_name; accession := accession;
                mut_flags := Some mut_flags; del_flags := Some del_flags;
                ins_flags := Some ins_flags; sub_flags := Some sub_flags;
                ambig_flags := Some ambig_flags |}).

(** What a flag accessor returns: a sentinel string or the table. *)
Inductive report : Type :=
| Sentinel (s : string)
| Table (rows : list flag).

(** What [ambiguity_flags] returns: a string or the list of flags. *)
Inductive ambiguity_report : Type :=
| AmbiguityString (s : string)
| AmbiguityList (flags : list string).

(** The accessors [mutation_flags], [deletion_flags], [insertion_flags]
    and [substitution_flags] differ in the attribute only. *)
Definition flags_report (self : Curation) (name : string)
    (attribute : option (list flag)) : result report :=
  if decide (profile self = "Unknown") then Ok (Sentinel "Unknown")
  else
    let* flags := getattr name attribute in
    if decide (flags = []) then Ok (Sentinel "Pass") else Ok (Table flags).

Definition Curation_mutation_flags (self : Curation) : result report :=
  flags_report self "mut_flags" (mut_flags self).

Definition Curation_deletion_flags (self : Curation) : result report :=
  flags_report self "del_flags" (del_flags self).

Definition Curation_insertion_flags (self : Curation) : result report :=
  flags_report self "ins_flags" (ins_flags self).

Definition Curation_substitution_flags (self : Curation) : result report :=
  flags_report self "sub_flags" (sub_flags self).

(** [Curation.ambiguity_flags] *)
Definition Curation_ambiguity_flags (self : Curation)
  : result ambiguity_report :=
  if decide (profile self = "Unknown") then Ok (AmbiguityString "Excess-Dist")
  else
    let* flags := getattr "ambig_flags" (ambig_flags self) in
    if decide (flags = []) then Ok (AmbiguityString "Pass")
    else Ok (AmbiguityList flags).

(** [True in [True for flag in flags if cond(flag)]] *)
Definition any_flag (cond : flag → bool) (flags : list flag) : bool :=
  bool_decide (true ∈ ((λ _, true) <$> filter (λ flag, cond flag = true) flags)).

(** [Curation.summary_flag] *)
Definition Curation_summary_flag (self : Curation) : result string :=
  let* ambiguous :=
    (if decide (profile self = "Unknown") then Ok true
     else
       let* flags := getattr "ambig_flags" (ambig_flags self) in
       Ok (bool_decide (flags ≠ []))) in
  if ambiguous : bool then Ok "Ambig-Seq"
  else
    let* flags := getattr "mut_flags" (mut_flags self) in
    if any_flag (λ flag, contains "CDS" (Flag flag)) flags then Ok "Flag-CDS"
    else if any_flag (λ flag, contains "NCR" (Flag flag)
                              || contains "CTS" (Flag flag)) flags
    then Ok "Flag-NCR"
    else Ok "Pass".

(** * The vocabulary of the statements *)

(** The character [-] stands at the column [c] of the row [seq]. *)
Definition gap_at (seq : string) (c : Z) : Prop :=
  0 ≤ c ∧ chars seq !! Z.to_nat c = Some "-"%char.

(** The column [c] is a gap in every profile row (the set X). *)
Definition all_profile_gap (profile_seqs : list string) (c : Z) : Prop :=
  ∀ p, p ∈ profile_seqs → gap_at p c.

(** The column [c] is a gap in some profile row (the set U). *)
Definition any_profile_gap (profile_seqs : list string) (c : Z) : Prop :=
  ∃ p, p ∈ profile_seqs ∧ gap_at p c.

(** The label that the table of section 4.4 gives to a deletion run of
    [run_length] columns in the region [region]. *)
Definition deletion_kind (region : string) (run_length : Z) : option string :=
  if decide (region = "CTS5") then Some "5'CTS-del"
  else if decide (region = "CTS3") then Some "3'CTS-del"
  else if decide (region = "NCR5") then Some "5'NCR-del"
  else if decide (region = "NCR3") then Some "3'NCR-del"
  else if decide (region = "CDS") then
    Some (if decide (run_length `mod` 3 = 0) then "CDS-3Xdel" else "CDS-del")
  else None.

(** The labels to which the whitelist applies (section 4.6). *)
Definition whitelistable (kind : string) : Prop :=
  kind ∈ ["5'NCR-del"; "3'NCR-del"; "CDS-del"; "CDS-3Xdel"].

(** Some row of the whitelist has the label [kind] and covers the
    positions [first] to [last]. *)
Definition whitelisted (lookup_df : list lookup_row) (kind : string)
    (first last : Z) : Prop :=
  ∃ row, row ∈ lookup_df ∧ lk_Flag row = kind
         ∧ lk_Start row ≤ first ∧ lk_End row >= last.

(** The record of a deletion flag of label [kind] for the run [pos], whose
    part inside the region has the [length] profile positions [p0] to [pl]
    and follows the query position [q0]. *)
Definition deletion_candidate (pos : list Z) (kind : string)
    (p0 pl q0 length : Z) : flag :=
  mk_flag kind
          (if decide (len pos > 1) then str p0 +:+ ".." +:+ str pl else str p0)
          (str q0 +:+ ".." +:+ str (q0 + 1))
          "del" length.

(** The query position [q0] is the start or the end of the query as
    reconstructed from the alignment. *)
Definition terminal (self : InDelSubs) (q0 : Z) : Prop :=
  q0 = 0 ∨ q0 = len (chars (query_seq self)) - Z.of_nat (size (nkdp self)).

(** The row [reg] of the boundary table overlaps the run [pos] in profile
    coordinates: the test of line 544. *)
Definition overlaps (self : InDelSubs) (reg : boundary_row) (pos : list Z)
  : Prop :=
  ∃ p_first p_last,
    head (profile_del self pos) = Some p_first
    ∧ last (profile_del self pos) = Some p_last
    ∧ b_Start reg ≤ p_last ∧ b_End reg >= p_first.

Global Instance whitelistable_dec kind : Decision (whitelistable kind).
Proof. unfold whitelistable. apply _. Defined.

Global Instance whitelisted_dec lookup_df kind first_p last_p :
  Decision (whitelisted lookup_df kind first_p last_p).
Proof.
  unfold whitelisted.
  refine (cast_if (decide (Exists (λ row, lk_Flag row = kind
                                          ∧ lk_Start row ≤ first_p
                                          ∧ lk_End row >= last_p) lookup_df)));
    rewrite Exists_exists in *; naive_solver.
Defined.

Global Instance terminal_dec self q0 : Decision (terminal self q0).
Proof. unfold terminal. apply _. Defined.

(** The alignment column of the canonical profile position [p]: the
    position plus the insertion columns before it, as the first two terms
    of lines 557 and 558 count them, less one for the 0-based column. *)
Definition prof_to_col (nkip : list Z) (p : Z) : Z :=
  p + len (filter (λ i, i < p) (col_to_prof_ins nkip <$> nkip)) - 1.

(** The same inverse for the query: the position plus the query-gap
    columns before it, less one. *)
Definition qry_to_col (nkdp : gset Z) (q : Z) : Z :=
  q + len (filter (λ i, i < q) (col_to_qry nkdp <$> elements nkdp)) - 1.

(** A small alignment: two profile rows and the query, with a run of
    three query gaps at the columns 5 to 7, one at the column 21, and the
    insertion columns 4, 16 and 17. *)
Definition example_alignment : list string :=
  [ "ACGT-ACGTACGTACG--TACGT";
    "ACGT-ACGTAC-TACG--TACGT";
    "ACGTA---TACGTACGttTAC-T" ].

(** A boundary table for it. *)
Definition example_boundaries : list boundary_row :=
  [ {| b_Region := "CTS5"; b_Start := 1; b_End := 3 |};
    {| b_Region := "NCR5"; b_Start := 4; b_End := 6 |};
    {| b_Region := "CDS"; b_Start := 7; b_End := 15 |};
    {| b_Region := "NCR3"; b_Start := 16; b_End := 17 |};
    {| b_Region := "CTS3"; b_Start := 18; b_End := 20 |} ].

(** A boundary table whose 5'NCR is empty (ATG = CTS5 + 1): the run of the
    columns 5 to 7 of [example_alignment] has the profile positions 5 to
    7 and straddles the end of the 5'CTS and the start of the CDS. *)
Definition degenerate_boundaries : list boundary_row :=
  [ {| b_Region := "CTS5"; b_Start := 1; b_End := 6 |};
    {| b_Region := "NCR5"; b_Start := 7; b_End := 6 |};
    {| b_Region := "CDS"; b_Start := 7; b_End := 15 |};
    {| b_Region := "NCR3"; b_Start := 16; b_End := 17 |};
    {| b_Region := "CTS3"; b_Start := 18; b_End := 20 |} ].

(** A whitelist with one row, for in-frame CDS deletions at the profile
    positions 7 to 8. *)
Definition example_lookup : list lookup_row :=
  [ {| lk_Flag := "CDS-3Xdel"; lk_Start := 7; lk_End := 8 |} ].

(** [sub] occurs in [s]. *)
Definition is_substring (sub s : string) : Prop :=
  ∃ pre post, s = pre +:+ sub +:+ post.

(** The first field of a line of the boundary file. *)
Definition first_field (line : string) : string :=
  default "" (head (split line "|")).

(** A world in which BLAST finds no alignment for the query, and no
    reference file can be read. *)
Definition unknown_world : World :=
  {| get_acc_and_seq := λ _, Ok ("AB000001", "ACGTACGT");
     listdir := λ _, Raise (Exception "no such directory");
     blast_records := λ _, Ok [[]];
     readlines := λ _, Raise (Exception "no such file");
     muscle := λ _, Raise (Exception "no such file");
     write := λ _, Raise (Exception "no such directory") |}.

(** A world with a profile for the strain B_1 and a boundary file that
    has no line for it. *)
Definition strain_world : World :=
  {| get_acc_and_seq := λ _, Ok ("AB000001", "ACGTACGT");
     listdir := λ _, Ok ["A_4_H1_profile.fasta"; "B_1_profile.fasta"];
     blast_records := λ _, Ok [[]];
     readlines := λ _,
       Ok ["A_4_H1|START=1|CTS5=12|ATG=33|STOP=100|CTS3=110|END=120" +:+ nl];
     muscle := λ _, Raise (Exception "no such file");
     write := λ _, Ok () |}.

(** A boundary file with a line for the strain A_4_H10 only. *)
Definition H10_boundary_lines : list string :=
  ["A_4_H10|START=1|CTS5=12|ATG=30|STOP=100|CTS3=110|END=120" +:+ nl].

(** The outcome [r'] raises what [r] raises, or returns some of the flags
    that [r] returns, in the same order. *)
Definition fewer_flags {B : Type} (r r' : result (list B)) : Prop :=
  match r, r' with
  | Ok flags, Ok flags' => sublist flags' flags
  | Raise e, Raise e' => e = e'
  | _, _ => False
  end.

(** The labels that each method of the flag engine can give to a flag. *)
Definition deletion_labels : list string :=
  ["5'CTS-del"; "3'CTS-del"; "5'NCR-del"; "3'NCR-del"; "CDS-3Xdel"; "CDS-del"].

Definition insertion_labels : list string :=
  ["5'NCR-ext"; "3'NCR-ext"; "5'CTS-ins"; "3'CTS-ins"; "5'NCR-ins";
   "3'NCR-ins"; "CDS-3Xins"; "CDS-ins"].

Definition substitution_labels : list string := ["5'CTS-mut"; "3'CTS-mut"].

(** A world in which the whole pipeline runs: BLAST finds the profile
    [X_1_profile.fasta] with 19 identities in 20 columns, the boundary
    file has a line for the strain X_1 (the table [example_boundaries]),
    the lookup file has no line for the profile, and MUSCLE writes the
    given alignment. *)
Definition pipeline_world (alignment : list string) : World :=
  {| get_acc_and_seq := λ _, Ok ("AB000001", "ACGTACGTACGTACGTACGT");
     listdir := λ _, Ok ["X_1_profile.fasta"];
     blast_records := λ _,
       Ok [[ {| title := "gnl|BL_ORD_ID|0|X_1_profile.fasta";
                hsps := [ {| identities := 19; align_length := 20 |} ] |} ]];
     readlines := λ path,
       if decide (path = "boundaries.txt")
       then Ok ["X_1|START=1|CTS5=3|ATG=7|STOP=15|CTS3=18|END=20" +:+ nl]
       else Ok [];
     muscle := λ _, Ok alignment;
     write := λ _, Ok () |}.

(** An alignment in which the query equals both profile rows. *)
Definition identical_alignment : list string :=
  [ "ACGTACGTACGTACGTACGT";
    "ACGTACGTACGTACGTACGT";
    "ACGTACGTACGTACGTACGT" ].

(** The MUSCLE command line of the constructor. *)
Definition muscle_command (profile_dir profile query : string) : string :=
  "./muscle -maxiters 1000 -profile -in1 " +:+ profile_dir +:+ "/"
    +:+ profile +:+ " -in2 " +:+ query +:+ " -out "
    +:+ (profile_dir +:+ "/precomputed_alignment.fasta").

(** A line of the boundary file, as the format of the parser has it: the
    strain, then the six coordinates as [KEY=number], with bars between
    the fields and a line end. *)
Definition boundary_line (strain : string) (START CTS5 ATG STOP CTS3 END : Z)
  : string :=
  join "|" [ strain;
             join "=" ["START"; str START];
             join "=" ["CTS5"; str CTS5];
             join "=" ["ATG"; str ATG];
             join "=" ["STOP"; str STOP];
             join "=" ["CTS3"; str CTS3];
             join "=" ["END"; str END +:+ nl] ].

(** The column [c] is a substitution: the query has a character there,
    every profile row has another character there, and the column is
    neither an insertion column nor a query gap. *)
Definition substituted_column (self : InDelSubs) (c : Z) : Prop :=
  (c ∉ nkip self) ∧ (c ∉ nkdp self)
  ∧ ∃ qc, chars (query_seq self) !! Z.to_nat c = Some qc
          ∧ ∀ seq, seq ∈ profile_seqs self →
                   ∃ pc, chars seq !! Z.to_nat c = Some pc ∧ pc ≠ qc.

(** An alignment without gaps in which the query differs from the profile
    at the column 1 only. *)
Definition substituted_alignment : list string :=
  [ "ACGTACGTACGTACGTACGT";
    "ACGTACGTACGTACGTACGT";
    "AtGTACGTACGTACGTACGT" ].

(** A boundary file in which the line of the strain A_4_H10 comes before
    the line of the strain A_4_H1. *)
Definition H10_then_H1_lines : list string :=
  ["A_4_H10|START=1|CTS5=12|ATG=30|STOP=100|CTS3=110|END=120" +:+ nl;
   "A_4_H1|START=1|CTS5=20|ATG=33|STOP=1733|CTS3=1765|END=1777" +:+ nl].

(** * Properties *)

(** ** The monad and the built-ins *)

Lemma bind_Ok {A B : Type} (m : result A) (f : A → result B) (b : B) :
  bind m f = Ok b ↔ ∃ a, m = Ok a ∧ f a = Ok b.
Proof.
  destruct m as [a|e]; simpl; split.
  - intros H. by exists a.
  - by intros (a' & [= <-] & H).
  - intros [=].
  - by intros (a' & [=] & _).
Qed.

Lemma len_nonneg {A : Type} (l : list A) : 0 ≤ len l.
Proof. unfold len. lia. Qed.

Lemma len_nil_iff {A : Type} (l : list A) : len l = 0 ↔ l = [].
Proof. unfold len. destruct l; simpl; split; intros; try done; lia. Qed.

Lemma len_cons {A : Type} (x : A) (l : list A) : len (x :: l) = len l + 1.
Proof. unfold len. simpl. lia. Qed.

Lemma len_fmap {A B : Type} (f : A → B) (l : list A) : len (f <$> l) = len l.
Proof. unfold len. by rewrite length_fmap. Qed.

Lemma py_index_0 {A : Type} (x : A) (l : list A) : py_index (x :: l) 0 = Ok x.
Proof.
  unfold py_index. cbv zeta. rewrite len_cons. pose proof (len_nonneg l).
  repeat case_decide; try lia. done.
Qed.


Lemma py_index_last {A : Type} (l : list A) (x : A) :
  py_index (l ++ [x]) (len (l ++ [x]) - 1) = Ok x.
Proof.
  unfold py_index, len. cbv zeta. rewrite length_app. simpl.
  repeat case_decide; try lia.
  replace (Z.to_nat (Z.of_nat (length l + 1) - 1)) with (length l) by lia.
  by rewrite list_lookup_middle.
Qed.

Lemma py_index_Ok_elem {A : Type} (l : list A) (i : Z) (x : A) :
  py_index l i = Ok x → x ∈ l.
Proof.
  unfold py_index. case_decide; [|done].
  destruct (l !! _) eqn:E; [|done]. intros [= <-].
  by eapply list_elem_of_lookup_2.
Qed.

Lemma for_each_Ok_elem {A B : Type} (body : A → result (list B)) l ys y :
  for_each body l = Ok ys → y ∈ ys →
  ∃ x zs, x ∈ l ∧ body x = Ok zs ∧ y ∈ zs.
Proof.
  revert ys. induction l as [|x l IH]; intros ys; simpl.
  - intros [= <-] Hy. by apply elem_of_nil in Hy.
  - intros (zs & Hx & (ws & Hl & [= <-])%bind_Ok)%bind_Ok Hy.
    apply elem_of_app in Hy as [Hy|Hy].
    + exists x, zs. split; [left|done].
    + destruct (IH _ Hl Hy) as (x' & zs' & ? & ? & ?).
      exists x', zs'. split; [by right|done].
Qed.

Lemma for_each_total {A B : Type} (body : A → result (list B)) l :
  (∀ x, x ∈ l → ∃ ys, body x = Ok ys) → ∃ zs, for_each body l = Ok zs.
Proof.
  induction l as [|x l IH]; intros H; simpl; [by eexists|].
  destruct (H x) as [ys ->]; [left|]. simpl.
  destruct IH as [zs ->]; [intros; apply H; by right|]. simpl. by eexists.
Qed.

Lemma for_each_Raise {A B : Type} (body : A → result (list B)) l1 x l2 e :
  (∀ y, y ∈ l1 → ∃ ys, body y = Ok ys) → body x = Raise e →
  for_each body (l1 ++ x :: l2) = Raise e.
Proof.
  induction l1 as [|y l1 IH]; intros H Hx; simpl.
  - by rewrite Hx.
  - destruct (H y) as [ys ->]; [left|]. simpl.
    rewrite IH; [done| |done]. intros; apply H; by right.
Qed.

(** ** Enumerating and grouping *)

Lemma elem_of_enumerate_from {A : Type} (l : list A) (n i : Z) (x : A) :
  (i, x) ∈ enumerate_from n l ↔ ∃ k : nat, i = n + Z.of_nat k ∧ l !! k = Some x.
Proof.
  revert n. induction l as [|y l IH]; intros n; simpl.
  - split; [by intros ?%elem_of_nil | by intros (k & _ & ?)].
  - rewrite elem_of_cons, IH. split.
    + intros [[= -> ->] | (k & -> & Hk)]; [exists 0%nat | exists (S k)];
        (split; [lia|done]).
    + intros ([|k] & -> & Hk); simpl in Hk.
      * left. injection Hk as ->. f_equal. lia.
      * right. exists k. split; [lia | done].
Qed.

Lemma elem_of_dash_columns (seq : string) (c : Z) :
  c ∈ dash_columns seq ↔ gap_at seq c.
Proof.
  unfold dash_columns, gap_at, enumerate.
  rewrite elem_of_list_to_set, list_elem_of_fmap. split.
  - intros ([i x] & -> & [Hx Hin]%list_elem_of_filter). simpl in *. subst x.
    apply elem_of_enumerate_from in Hin as (k & -> & Hk).
    rewrite Z.add_0_l, Nat2Z.id. split; [lia|done].
  - intros [Hc Hk]. exists (c, "-"%char). split; [done|].
    apply list_elem_of_filter. split; [done|].
    apply elem_of_enumerate_from. exists (Z.to_nat c). split; [lia|done].
Qed.

(** ** The column sets of [InDelSubs.__init__] *)

Lemma elem_of_profile_dash_union (X : gset Z) (l : list string) (c : Z) :
  c ∈ profile_dash_union X l ↔ c ∈ X ∨ ∃ p, p ∈ l ∧ c ∈ dash_columns p.
Proof.
  unfold profile_dash_union. revert X.
  induction l as [|s l IH]; intros X; simpl.
  - split; [by left|]. intros [?|(p & ?%elem_of_nil & _)]; done.
  - rewrite IH, elem_of_union. split.
    + intros [[?|?]|(p & ? & ?)]; [by left| |].
      * right. exists s. split; [left|done].
      * right. exists p. split; [by right|done].
    + intros [?|(p & [->|?]%elem_of_cons & ?)].
      * by left; left.
      * by left; right.
      * right. by exists p.
Qed.

Lemma elem_of_profile_dash_intsct (X : gset Z) (l : list string) (c : Z) :
  c ∈ profile_dash_intsct X l ↔ c ∈ X ∧ ∀ p, p ∈ l → c ∈ dash_columns p.
Proof.
  unfold profile_dash_intsct. revert X.
  induction l as [|s l IH]; intros X; simpl.
  - split; [|by intros [? _]]. intros ?. split; [done|].
    by intros p ?%elem_of_nil.
  - rewrite IH, elem_of_intersection. split.
    + intros [[? ?] Hl]. split; [done|].
      intros p [->|?]%elem_of_cons; [done|by apply Hl].
    + intros [? Hl]. split; [split; [done|apply Hl; left]|].
      intros p ?. apply Hl. by right.
Qed.

Lemma elem_of_np_sort (l : list Z) (c : Z) : c ∈ np_sort l ↔ c ∈ l.
Proof. unfold np_sort. by rewrite merge_sort_Permutation. Qed.

Lemma NoDup_np_sort (l : list Z) : NoDup l → NoDup (np_sort l).
Proof. unfold np_sort. by rewrite merge_sort_Permutation. Qed.

(** What the constructor computes, field by field. *)
Lemma InDelSubs_init_inv (sequences : list string) (self : InDelSubs) :
  InDelSubs_init sequences = Ok self →
  ∃ first_seq rest,
    sequences = (first_seq :: rest) ++ [query_seq self] ∧
    profile_seqs self = first_seq :: rest ∧
    nkdp self = dash_columns (query_seq self) ∧
    let X := profile_dash_intsct (dash_columns first_seq) rest in
    let U := profile_dash_union (dash_columns first_seq) rest in
    nkip self = np_sort (elements (X ∖ nkdp self)) ∧
    nkadp self = U ∖ (X ∖ nkdp self) ∧
    del_groups self =
      consecutive_groups (np_sort (elements (nkdp self ∖ nkadp self))) ∧
    ins_groups self = consecutive_groups (nkip self).
Proof.
  unfold InDelSubs_init.
  destruct sequences as [|s0 l0] using rev_ind; [done|]. clear IHl0.
  rewrite py_index_last. simpl.
  replace (length (l0 ++ [s0]) - 1)%nat with (length l0)
    by (rewrite length_app; simpl; lia).
  rewrite take_app_length.
  destruct l0 as [|first_seq rest]; [done|].
  rewrite py_index_0. simpl. rewrite drop_0.
  intros [= <-]. simpl. by exists first_seq, rest.
Qed.

(** The constructor succeeds on every alignment with a profile row and a
    query row. *)
Lemma InDelSubs_init_total (first_seq : string) (rest : list string)
    (query : string) :
  ∃ self, InDelSubs_init ((first_seq :: rest) ++ [query]) = Ok self.
Proof.
  unfold InDelSubs_init. rewrite py_index_last. simpl.
  replace (length (rest ++ [query]) - 0)%nat with (S (length rest))
    by (rewrite length_app; simpl; lia).
  change (S (length rest)) with (length (first_seq :: rest)).
  change (first_seq :: rest ++ [query]) with ((first_seq :: rest) ++ [query]).
  rewrite take_app_length, py_index_0. simpl. by eexists.
Qed.

Section columns.
Context (sequences : list string) (self : InDelSubs).
Hypothesis Hinit : InDelSubs_init sequences = Ok self.

Lemma elem_of_nkdp (c : Z) : c ∈ nkdp self ↔ gap_at (query_seq self) c.
Proof.
  destruct (InDelSubs_init_inv _ _ Hinit) as (f & r & _ & _ & -> & _).
  apply elem_of_dash_columns.
Qed.

Lemma elem_of_nkip (c : Z) :
  c ∈ nkip self ↔ all_profile_gap (profile_seqs self) c ∧ c ∉ nkdp self.
Proof.
  destruct (InDelSubs_init_inv _ _ Hinit)
    as (f & r & _ & -> & _ & -> & _).
  rewrite elem_of_np_sort, elem_of_elements, elem_of_difference,
    elem_of_profile_dash_intsct.
  unfold all_profile_gap. setoid_rewrite elem_of_dash_columns.
  split; intros [HX ?]; (split; [|done]).
  - destruct HX as [? Hr]. intros p [->|?]%elem_of_cons; [done|by apply Hr].
  - split; [apply HX; left|]. intros p ?. apply HX. by right.
Qed.

Lemma elem_of_nkadp (c : Z) :
  c ∈ nkadp self ↔ any_profile_gap (profile_seqs self) c ∧ c ∉ nkip self.
Proof.
  destruct (InDelSubs_init_inv _ _ Hinit)
    as (f & r & _ & Hp & _ & Hi & -> & _).
  rewrite Hi, Hp, elem_of_np_sort, elem_of_elements, elem_of_difference,
    elem_of_profile_dash_union.
  unfold any_profile_gap. setoid_rewrite elem_of_dash_columns.
  split; intros [HU ?]; (split; [|done]).
  - destruct HU as [?|(p & ? & ?)]; [exists f|exists p];
      (split; [|done]); [left|by right].
  - destruct HU as (p & [->|?]%elem_of_cons & ?); [by left|].
    right. by exists p.
Qed.

Lemma NoDup_nkip : NoDup (nkip self).
Proof.
  destruct (InDelSubs_init_inv _ _ Hinit) as (f & r & _ & _ & _ & -> & _).
  apply NoDup_np_sort, NoDup_elements.
Qed.

Lemma nkip_not_nkdp (c : Z) : c ∈ nkip self → c ∉ nkdp self.
Proof. by intros [_ ?]%elem_of_nkip. Qed.

Lemma nkdp_not_nkip (c : Z) : c ∈ nkdp self → c ∉ nkip self.
Proof. intros ? [_ ?]%elem_of_nkip. done. Qed.
End columns.

(** ** Counting the columns of a set below a column *)

Lemma len_filter_ext {A : Type} (P Q : A → Prop)
    `{∀ x, Decision (P x)} `{∀ x, Decision (Q x)} (l : list A) :
  (∀ x, x ∈ l → P x ↔ Q x) → len (filter P l) = len (filter Q l).
Proof.
  induction l as [|x l IH]; intros HPQ; [done|].
  assert (len (filter P l) = len (filter Q l)) as IH'.
  { apply IH. intros. apply HPQ. by right. }
  assert (P x ↔ Q x) as Hx by (apply HPQ; left).
  rewrite !filter_cons.
  destruct (decide (P x)), (decide (Q x)); rewrite ?len_cons; tauto || lia.
Qed.

Lemma len_filter_fmap {A B : Type} (f : A → B) (P : B → Prop)
    `{∀ y, Decision (P y)} (l : list A) :
  len (filter P (f <$> l)) = len (filter (λ x, P (f x)) l).
Proof.
  induction l as [|x l IH]; [done|].
  rewrite fmap_cons, !filter_cons.
  destruct (decide (P (f x))); rewrite ?len_cons; lia.
Qed.

Lemma len_filter_mono {A : Type} (P Q : A → Prop)
    `{∀ x, Decision (P x)} `{∀ x, Decision (Q x)} (l : list A) :
  (∀ x, x ∈ l → P x → Q x) → len (filter P l) ≤ len (filter Q l).
Proof.
  induction l as [|x l IH]; intros HPQ; [done|].
  assert (len (filter P l) ≤ len (filter Q l)) as IH'.
  { apply IH. intros ???. apply HPQ; [by right|done]. }
  assert (P x → Q x) as Hx by (apply HPQ; left).
  rewrite !filter_cons.
  destruct (decide (P x)), (decide (Q x)); rewrite ?len_cons; tauto || lia.
Qed.

Lemma len_filter_split (l : list Z) (p p' : Z) :
  p ≤ p' →
  len (filter (λ j, j ≤ p') l)
  = len (filter (λ j, j ≤ p) l) + len (filter (λ j, p < j ≤ p') l).
Proof.
  intros Hp. induction l as [|x l IH]; [done|].
  rewrite !filter_cons.
  destruct (decide (x ≤ p')), (decide (x ≤ p)), (decide (p < x ≤ p'));
    rewrite ?len_cons; lia.
Qed.

(** A duplicate-free list of integers of an interval is no longer than
    the interval. *)
Lemma len_NoDup_interval (l : list Z) (p p' : Z) :
  p ≤ p' → NoDup l → (∀ x, x ∈ l → p < x ≤ p') → len l ≤ p' - p.
Proof.
  intros Hp Hnd Hin.
  assert (l ⊆+ seqZ (p + 1) (p' - p)) as Hsub.
  { apply NoDup_submseteq; [done|]. intros x Hx. apply elem_of_seqZ.
    specialize (Hin x Hx). lia. }
  apply submseteq_length in Hsub. rewrite length_seqZ in Hsub.
  unfold len. lia.
Qed.

Section ranks.
Context (S : list Z).
Hypothesis HS : NoDup S.

Lemma len_filter_le_lt (x : Z) :
  len (filter (λ i, i ≤ x) S)
  = len (filter (λ i, i < x) S) + (if decide (x ∈ S) then 1 else 0).
Proof using HS.
  induction HS as [|y l Hy Hnd IH].
  - done.
  - specialize (IH Hnd). rewrite !filter_cons.
    assert ((if decide (x ∈ y :: l) then 1 else 0)
            = (if decide (x = y) then 1 else 0)
              + (if decide (x ∈ l) then 1 else 0)) as ->.
    { pose proof (elem_of_cons l x y) as Hc.
      repeat case_decide; try lia; exfalso; subst; tauto. }
    destruct (decide (y ≤ x)), (decide (y < x)), (decide (x = y));
      rewrite ?len_cons, ?IH; lia.
Qed.

Lemma col_to_prof_succ (x : Z) :
  col_to_prof S (x + 1) = col_to_prof_ins S x + 1.
Proof.
  unfold col_to_prof, col_to_prof_ins.
  rewrite (len_filter_ext (λ i, i < x + 1) (λ i, i ≤ x)); [lia|].
  intros; lia.
Qed.

Lemma col_to_prof_not_in (x : Z) :
  x ∉ S → col_to_prof S x = col_to_prof_ins S x.
Proof using HS.
  intros Hx. unfold col_to_prof, col_to_prof_ins.
  rewrite len_filter_le_lt, decide_False by done. lia.
Qed.

Lemma col_to_prof_ins_in (x : Z) :
  x ∈ S → col_to_prof_ins S x = col_to_prof S x - 1.
Proof using HS.
  intros Hx. unfold col_to_prof, col_to_prof_ins.
  rewrite len_filter_le_lt, decide_True by done. lia.
Qed.

Lemma col_to_prof_ins_step (x : Z) :
  col_to_prof_ins S x ≤ col_to_prof_ins S (x + 1).
Proof using HS.
  destruct (decide (x + 1 ∈ S)) as [Hin|Hin].
  - rewrite (col_to_prof_ins_in (x + 1)), col_to_prof_succ by done. lia.
  - rewrite <- (col_to_prof_not_in (x + 1)), col_to_prof_succ by done. lia.
Qed.

Lemma col_to_prof_ins_mono (x y : Z) :
  x ≤ y → col_to_prof_ins S x ≤ col_to_prof_ins S y.
Proof using HS.
  intros Hxy. replace y with (x + Z.of_nat (Z.to_nat (y - x))) by lia.
  generalize (Z.to_nat (y - x)) as n. induction n as [|n IH].
  - rewrite Z.add_0_r. lia.
  - replace (x + Z.of_nat (Datatypes.S n)) with (x + Z.of_nat n + 1) by lia.
    pose proof (col_to_prof_ins_step (x + Z.of_nat n)). lia.
Qed.

Lemma col_to_prof_ins_lt (x y : Z) :
  x < y → y ∉ S → col_to_prof_ins S x < col_to_prof_ins S y.
Proof using HS.
  intros Hxy Hy. rewrite <- (col_to_prof_not_in y) by done.
  replace y with ((y - 1) + 1) by lia. rewrite col_to_prof_succ.
  pose proof (col_to_prof_ins_mono x (y - 1)). lia.
Qed.

(** The canonical position is strictly increasing, hence injective, on
    the columns outside the set. *)
Lemma col_to_prof_lt (x y : Z) :
  x ∉ S → y ∉ S → x < y → col_to_prof S x < col_to_prof S y.
Proof using HS.
  intros Hx Hy Hxy. rewrite !col_to_prof_not_in by done.
  by apply col_to_prof_ins_lt.
Qed.

Lemma col_to_prof_inj (x y : Z) :
  x ∉ S → y ∉ S → col_to_prof S x = col_to_prof S y → x = y.
Proof using HS.
  intros Hx Hy Heq.
  destruct (Z.lt_total x y) as [Hlt|[?|Hlt]]; [|done|];
    apply col_to_prof_lt in Hlt; try done; lia.
Qed.
End ranks.

(** ** The runs of consecutive columns *)

Lemma groupby_concat {A K : Type} `{EqDecision K} (key : A → K) (l : list A) :
  concat (snd <$> groupby key l) = l.
Proof.
  induction l as [|x l IH]; [done|]. simpl.
  destruct (groupby key l) as [|[k g] rest]; simpl in *.
  - by rewrite <- IH.
  - case_decide; simpl; by rewrite <- IH.
Qed.

Lemma groupby_keys {A K : Type} `{EqDecision K} (key : A → K) (l : list A) :
  Forall (λ kg, kg.2 ≠ [] ∧ Forall (λ x, key x = kg.1) kg.2) (groupby key l).
Proof.
  induction l as [|x l IH]; simpl; [constructor|].
  destruct (groupby key l) as [|[k g] rest].
  - repeat constructor; done.
  - inversion IH as [|?? [Hne Hk] Hrest]; subst. simpl in *. case_decide.
    + constructor; [|done]. split; [done|]. by constructor.
    + constructor; [|by constructor]. split; [done|]. by repeat constructor.
Qed.

Lemma enumerate_from_app {A : Type} (n : Z) (a1 a2 : list A) :
  enumerate_from n (a1 ++ a2)
  = enumerate_from n a1 ++ enumerate_from (n + len a1) a2.
Proof.
  revert n. induction a1 as [|x a1 IH]; intros n; simpl.
  - unfold len. simpl. by rewrite Z.add_0_r.
  - rewrite IH, len_cons. do 3 f_equal. lia.
Qed.

Lemma snd_enumerate_from {A : Type} (n : Z) (a : list A) :
  snd <$> enumerate_from n a = a.
Proof. revert n. induction a as [|x a IH]; intros n; simpl; by rewrite ?IH. Qed.

Lemma length_enumerate_from {A : Type} (n : Z) (a : list A) :
  length (enumerate_from n a) = length a.
Proof. revert n. induction a as [|x a IH]; intros n; simpl; by rewrite ?IH. Qed.

(** A segment of an enumeration is the enumeration of a segment. *)
Lemma enumerate_from_segment {A : Type} (n : Z) (a : list A)
    (l1 g l2 : list (Z * A)) :
  enumerate_from n a = l1 ++ g ++ l2 →
  ∃ a1 b a2, a = a1 ++ b ++ a2 ∧ g = enumerate_from (n + len a1) b.
Proof.
  intros Heq.
  assert (a = (snd <$> l1) ++ (snd <$> g) ++ (snd <$> l2)) as Ha.
  { by rewrite <- !fmap_app, <- Heq, snd_enumerate_from. }
  exists (snd <$> l1), (snd <$> g), (snd <$> l2). split; [done|].
  rewrite Ha, !enumerate_from_app in Heq.
  apply app_inj_1 in Heq as [_ Heq].
  - apply app_inj_1 in Heq as [Heq _]; [done|].
    by rewrite length_enumerate_from, length_fmap.
  - by rewrite length_enumerate_from, length_fmap.
Qed.

(** An enumeration on which index minus value is constant holds
    consecutive integers. *)
Lemma enumerate_from_constant_key (m k : Z) (b : list Z) :
  Forall (λ ix : Z * Z, ix.1 - ix.2 = k) (enumerate_from m b) →
  b = seqZ (m - k) (len b).
Proof.
  revert m. induction b as [|v b IH]; intros m; simpl.
  - intros _. by rewrite seqZ_nil.
  - intros [Hv Hb]%Forall_cons. simpl in Hv.
    rewrite len_cons, seqZ_cons by (pose proof (len_nonneg b); lia).
    f_equal; [lia|]. rewrite (IH _ Hb) at 1. f_equal; lia.
Qed.

Lemma consecutive_groups_spec (a g : list Z) :
  g ∈ consecutive_groups a →
  g ≠ [] ∧ (∃ c0, g = seqZ c0 (len g)) ∧ (∀ x, x ∈ g → x ∈ a).
Proof.
  unfold consecutive_groups, enumerate.
  intros ([k ixs] & -> & Hin)%list_elem_of_fmap. simpl.
  pose proof (groupby_keys (λ ix : Z * Z, ix.1 - ix.2) (enumerate_from 0 a))
    as Hkeys.
  rewrite Forall_forall in Hkeys. destruct (Hkeys _ Hin) as [Hne Hk].
  simpl in *.
  assert (∃ l1 l2, enumerate_from 0 a = l1 ++ ixs ++ l2) as (l1 & l2 & Hseg).
  { pose proof (groupby_concat (λ ix : Z * Z, ix.1 - ix.2)
                                (enumerate_from 0 a)) as Hcat.
    apply list_elem_of_split in Hin as (gs1 & gs2 & Hgs).
    rewrite Hgs, fmap_app, concat_app in Hcat. simpl in Hcat.
    exists (concat (snd <$> gs1)), (concat (snd <$> gs2)). by rewrite <- Hcat. }
  apply enumerate_from_segment in Hseg as (a1 & b & a2 & -> & ->).
  rewrite snd_enumerate_from. split; [|split].
  - intros ->. by apply Hne.
  - exists (0 + len a1 - k). by apply enumerate_from_constant_key.
  - intros x Hx. rewrite !elem_of_app. by right; left.
Qed.

(** ** The query position of a canonical profile position *)

Section remap.
Context (I : list Z) (D : gset Z).
Hypothesis HI : NoDup I.
Hypothesis Hdisj : ∀ c, c ∈ D → c ∉ I.

Let ins_pos := col_to_prof_ins I <$> I.
Let del_pos := col_to_prof I <$> elements D.

Lemma col_to_qry_unfold (c : Z) :
  col_to_qry D c = col_to_prof_ins (elements D) c.
Proof. done. Qed.

Lemma prof_to_qry_col (c : Z) :
  c ∉ I →
  prof_to_qry ins_pos del_pos (col_to_prof I c)
  = col_to_qry D c.
Proof using HI Hdisj.
  intros Hc. unfold prof_to_qry, ins_pos, del_pos.
  rewrite !len_filter_fmap.
  rewrite (len_filter_ext _ (λ x, x < c) I).
  2:{ intros x Hx. rewrite (col_to_prof_not_in I HI c Hc). split.
      - intros Hlt. destruct (decide (x < c)) as [|Hge]; [done|].
        pose proof (col_to_prof_ins_mono I HI c x). lia.
      - intros Hlt. by apply col_to_prof_ins_lt. }
  rewrite (len_filter_ext _ (λ x, x ≤ c) (elements D)).
  2:{ intros x Hx%elem_of_elements%Hdisj. split.
      - intros Hle. destruct (decide (x ≤ c)) as [|Hgt]; [done|].
        pose proof (col_to_prof_lt I HI c x Hc Hx). lia.
      - intros Hle. destruct (decide (x = c)) as [->|]; [lia|].
        pose proof (col_to_prof_lt I HI x c Hx Hc). lia. }
  unfold col_to_prof, col_to_qry. lia.
Qed.

Lemma NoDup_del_pos : NoDup del_pos.
Proof using HI Hdisj.
  unfold del_pos. apply NoDup_fmap_2_strong; [|apply NoDup_elements].
  intros x y Hx%elem_of_elements%Hdisj Hy%elem_of_elements%Hdisj.
  by apply col_to_prof_inj.
Qed.

Lemma prof_to_qry_mono (p p' : Z) :
  p ≤ p' →
  prof_to_qry ins_pos del_pos p
  ≤ prof_to_qry ins_pos del_pos p'.
Proof using HI Hdisj.
  intros Hp. unfold prof_to_qry.
  pose proof (len_filter_mono (λ i, i < p) (λ i, i < p') ins_pos)
    as Hins.
  rewrite (len_filter_split del_pos p p' Hp).
  pose proof (len_NoDup_interval
                (filter (λ j, p < j ≤ p') del_pos) p p' Hp) as Hdel.
  assert (len (filter (λ j, p < j ≤ p') del_pos) ≤ p' - p).
  { apply Hdel; [apply NoDup_filter, NoDup_del_pos|].
    by intros x [? _]%list_elem_of_filter. }
  assert (len (filter (λ i, i < p) ins_pos)
          ≤ len (filter (λ i, i < p') ins_pos)).
  { apply Hins. intros; lia. }
  lia.
Qed.
End remap.

(** ** The runs of an alignment *)

Lemma py_index_seqZ_first (m n : Z) : 0 < n → py_index (seqZ m n) 0 = Ok m.
Proof. intros Hn. rewrite seqZ_cons by done. apply py_index_0. Qed.

Lemma len_seqZ (m n : Z) : 0 ≤ n → len (seqZ m n) = n.
Proof. intros Hn. unfold len. rewrite length_seqZ. lia. Qed.

Lemma py_index_seqZ_last (m n : Z) :
  0 < n → py_index (seqZ m n) (len (seqZ m n) - 1) = Ok (m + n - 1).
Proof.
  intros Hn. replace n with (Z.of_nat (S (Z.to_nat (n - 1)))) at 1 2 by lia.
  rewrite seqZ_S, py_index_last. f_equal. lia.
Qed.

Lemma filter_all {A : Type} (P : A → Prop) `{∀ x, Decision (P x)} (l : list A) :
  Forall P l → filter P l = l.
Proof.
  induction 1 as [|x l Hx Hl IH]; [done|].
  by rewrite filter_cons, decide_True, IH.
Qed.

Lemma len_filter_le {A : Type} (P : A → Prop) `{∀ x, Decision (P x)}
    (l : list A) : len (filter P l) ≤ len l.
Proof. unfold len. pose proof (length_filter P l). lia. Qed.

Section runs.
Context (sequences : list string) (self : InDelSubs).
Hypothesis Hinit : InDelSubs_init sequences = Ok self.

Lemma nkdp_elements_not_nkip (c : Z) : c ∈ nkdp self → c ∉ nkip self.
Proof using Hinit. by eapply nkdp_not_nkip. Qed.

(** A deletion run is a non-empty interval of query-gap columns, none
    of which is an insertion column. *)
Lemma del_group_cols (pos : list Z) :
  pos ∈ del_groups self →
  0 < len pos ∧ (∃ c0, pos = seqZ c0 (len pos))
  ∧ ∀ c, c ∈ pos → c ∈ nkdp self ∧ c ∉ nkip self.
Proof using Hinit.
  destruct (InDelSubs_init_inv _ _ Hinit)
    as (f & r & _ & _ & _ & _ & _ & -> & _).
  intros (Hne & Hseq & Hin)%consecutive_groups_spec. split; [|split].
  - pose proof (len_nonneg pos). rewrite <- len_nil_iff in Hne. lia.
  - done.
  - intros c Hc%Hin%elem_of_np_sort%elem_of_elements%elem_of_difference.
    destruct Hc as [Hc _]. split; [done|by apply nkdp_elements_not_nkip].
Qed.

(** An insertion run is a non-empty interval of insertion columns. *)
Lemma ins_group_cols (pos : list Z) :
  pos ∈ ins_groups self →
  0 < len pos ∧ (∃ c0, pos = seqZ c0 (len pos))
  ∧ ∀ c, c ∈ pos → c ∈ nkip self.
Proof using Hinit.
  destruct (InDelSubs_init_inv _ _ Hinit)
    as (f & r & _ & _ & _ & _ & _ & _ & ->).
  intros (Hne & Hseq & Hin)%consecutive_groups_spec. split; [|split].
  - pose proof (len_nonneg pos). rewrite <- len_nil_iff in Hne. lia.
  - done.
  - done.
Qed.

(** Along a run of query gaps the query position does not move. *)
Lemma col_to_qry_run (c0 n c : Z) :
  (∀ x, c0 ≤ x < c0 + n → x ∈ nkdp self) →
  c0 ≤ c < c0 + n →
  col_to_qry (nkdp self) c = col_to_qry (nkdp self) c0.
Proof.
  intros Hrun Hc. replace c with (c0 + Z.of_nat (Z.to_nat (c - c0))) by lia.
  assert (Z.of_nat (Z.to_nat (c - c0)) < n) as Hk by lia.
  revert Hk. generalize (Z.to_nat (c - c0)) as k. induction k as [|k IH].
  - intros _. by rewrite Z.add_0_r.
  - intros Hk. rewrite <- IH by lia.
    replace (c0 + Z.of_nat (S k)) with (c0 + Z.of_nat k + 1) by lia.
    rewrite !col_to_qry_unfold.
    rewrite (col_to_prof_ins_in (elements (nkdp self)) (NoDup_elements _)
                                (c0 + Z.of_nat k + 1)).
    + rewrite col_to_prof_succ. lia.
    + apply elem_of_elements, Hrun. lia.
Qed.

(** Along a run without insertion columns the canonical profile
    position advances with the column. *)
Lemma col_to_prof_run (c0 n c : Z) :
  (∀ x, c0 ≤ x < c0 + n → x ∉ nkip self) →
  c0 ≤ c < c0 + n →
  col_to_prof (nkip self) c = col_to_prof (nkip self) c0 + (c - c0).
Proof using Hinit.
  intros Hrun Hc. replace c with (c0 + Z.of_nat (Z.to_nat (c - c0))) by lia.
  assert (Z.of_nat (Z.to_nat (c - c0)) < n) as Hk by lia.
  revert Hk. generalize (Z.to_nat (c - c0)) as k. induction k as [|k IH].
  - intros _. rewrite Z.add_0_r. lia.
  - intros Hk.
    replace (c0 + Z.of_nat (S k)) with (c0 + Z.of_nat k + 1) by lia.
    rewrite col_to_prof_succ.
    rewrite <- (col_to_prof_not_in (nkip self) (NoDup_nkip _ _ Hinit))
      by (apply Hrun; lia).
    rewrite IH by lia. lia.
Qed.
End runs.

(** ** The deletion flags of a run *)

Lemma py_index_last_Some {A : Type} (l : list A) (x : A) :
  last l = Some x → py_index l (len l - 1) = Ok x.
Proof.
  destruct l as [|y l] using rev_ind; [done|].
  rewrite last_snoc. intros [= ->]. apply py_index_last.
Qed.

Lemma py_index_head_Some {A : Type} (l : list A) (x : A) :
  head l = Some x → py_index l 0 = Ok x.
Proof. destruct l; [done|]. intros [= ->]. apply py_index_0. Qed.

Lemma py_index_0_Ok {A : Type} (l : list A) (x : A) :
  py_index l 0 = Ok x → head l = Some x.
Proof. destruct l; [done|]. by rewrite py_index_0; intros [= ->]. Qed.

Lemma fmap_seqZ_shift (f : Z → Z) (c0 n : Z) :
  (∀ c, c0 ≤ c < c0 + n → f c = f c0 + (c - c0)) →
  f <$> seqZ c0 n = seqZ (f c0) n.
Proof.
  destruct (decide (n ≤ 0)) as [Hn|Hn]; [by rewrite !seqZ_nil|].
  replace n with (Z.of_nat (Z.to_nat n)) by lia.
  generalize (Z.to_nat n) as k. clear Hn. induction k as [|k IH]; [done|].
  intros Hf. rewrite !seqZ_S, fmap_app, IH.
  - assert (f (c0 + Z.of_nat k) = f c0 + Z.of_nat k) as Hk
      by (rewrite Hf; lia).
    simpl. by rewrite Hk.
  - intros c Hc. apply Hf. lia.
Qed.

Lemma check_lookup_PASS (lookup_df : list lookup_row) (kind : string)
    (first last : Z) :
  check_lookup lookup_df kind first last = "PASS"
  ↔ whitelisted lookup_df kind first last.
Proof.
  unfold check_lookup, whitelisted. cbv zeta.
  set (P := λ r, lk_Flag r = kind ∧ lk_Start r ≤ first ∧ lk_End r >= last).
  destruct (decide (len (filter P lookup_df) > 0)) as [Hlen|Hlen].
  - split; [intros _|done].
    destruct (filter P lookup_df) as [|row l] eqn:E; [done|].
    assert (row ∈ filter P lookup_df) as [HP ?]%list_elem_of_filter
      by (rewrite E; left).
    exists row. by split.
  - split; [done|]. intros (row & Hin & HP). exfalso. apply Hlen.
    assert (row ∈ filter P lookup_df) as Hrow
      by (apply list_elem_of_filter; split; [exact HP|done]).
    destruct (filter P lookup_df) as [|r0 l0]; [by apply elem_of_nil in Hrow|].
    rewrite len_cons. pose proof (len_nonneg l0). lia.
Qed.

Lemma check_lookup_cases (lookup_df : list lookup_row) (kind : string)
    (first last : Z) :
  check_lookup lookup_df kind first last = "PASS"
  ∨ check_lookup lookup_df kind first last = "FAIL".
Proof. unfold check_lookup. cbv zeta. case_decide; [by left|by right]. Qed.

Lemma checked_spec (lookup_df : list lookup_row) (kind : string)
    (p0 pl : Z) (cand : flag) :
  whitelistable kind →
  (if decide (check_lookup lookup_df kind p0 pl = "FAIL")
   then Ok [cand] else Ok [])
  = Ok (if decide (whitelistable kind ∧ whitelisted lookup_df kind p0 pl)
        then [] else [cand]).
Proof.
  intros Hk. pose proof (check_lookup_PASS lookup_df kind p0 pl) as HP.
  destruct (check_lookup_cases lookup_df kind p0 pl) as [E|E]; rewrite E.
  - rewrite decide_False by done. rewrite decide_True; [done|].
    split; [done|]. by apply HP.
  - rewrite decide_True by done. rewrite decide_False; [done|].
    intros [_ Hw]. apply HP in Hw. by rewrite E in Hw.
Qed.

Lemma unchecked_spec (lookup_df : list lookup_row) (kind : string)
    (p0 pl : Z) (cand : flag) :
  ¬ whitelistable kind →
  [cand] = (if decide (whitelistable kind ∧ whitelisted lookup_df kind p0 pl)
            then [] else [cand]).
Proof. intros Hk. case_decide; [tauto|done]. Qed.

(** The chain of tests of [deletion_flags] on a non-empty part of a run:
    the flag of the table, unless the whitelist covers it. *)
Lemma deletion_emit_spec (lookup_df : list lookup_row) (pos : list Z)
    (region : string) (region_dels_p region_dels_q : list Z) (p0 pl q0 : Z) :
  head region_dels_p = Some p0 → last region_dels_p = Some pl →
  head region_dels_q = Some q0 →
  deletion_emit lookup_df pos region region_dels_p region_dels_q
  = Ok match deletion_kind region (len pos) with
       | None => []
       | Some kind =>
         if decide (whitelistable kind ∧ whitelisted lookup_df kind p0 pl)
         then []
         else [deletion_candidate pos kind p0 pl q0 (len region_dels_p)]
       end.
Proof.
  intros Hp0%py_index_head_Some Hpl%py_index_last_Some Hq0%py_index_head_Some.
  unfold deletion_emit, deletion_kind, deletion_candidate.
  rewrite Hp0, Hpl, Hq0.
  assert (∀ kind, kind ∈ ["5'CTS-del"; "3'CTS-del"] → ¬ whitelistable kind)
    as Hcts.
  { unfold whitelistable. intros kind Hk Hw.
    repeat (apply elem_of_cons in Hk as [->|Hk];
            [by repeat (apply elem_of_cons in Hw as [?|Hw]; [done|]);
                apply elem_of_nil in Hw|]).
    by apply elem_of_nil in Hk. }
  assert (∀ kind, kind ∈ ["5'NCR-del"; "3'NCR-del"; "CDS-del"; "CDS-3Xdel"]
                  → whitelistable kind) as Hncr by done.
  destruct (decide (len pos > 1)); simpl.
  all: destruct (decide (region = "CTS5"));
    [f_equal; apply unchecked_spec, Hcts; set_solver|].
  all: destruct (decide (region = "CTS3"));
    [f_equal; apply unchecked_spec, Hcts; set_solver|].
  all: destruct (decide (region = "NCR5"));
    [apply checked_spec, Hncr; set_solver|].
  all: destruct (decide (region = "NCR3"));
    [apply checked_spec, Hncr; set_solver|].
  all: destruct (decide (region = "CDS")); [|done].
  all: destruct (decide (len pos `mod` 3 = 0));
    apply checked_spec, Hncr; set_solver.
Qed.

Section deletion_runs.
Context (sequences : list string) (self : InDelSubs).
Hypothesis Hinit : InDelSubs_init sequences = Ok self.

(** The shape of a deletion run: an interval of [n] columns from [c0],
    whose profile positions are the interval of [n] positions from
    [col_to_prof c0] and whose query positions all are [col_to_qry c0]. *)
Lemma del_run_shape (pos : list Z) :
  pos ∈ del_groups self →
  ∃ c0 n,
    0 < n ∧ len pos = n ∧ pos = seqZ c0 n
    ∧ (∀ c, c0 ≤ c < c0 + n → c ∈ nkdp self ∧ c ∉ nkip self)
    ∧ profile_del self pos = seqZ (col_to_prof (nkip self) c0) n
    ∧ Forall (λ q, q = col_to_qry (nkdp self) c0) (query_del self pos)
    ∧ head (query_del self pos) = Some (col_to_qry (nkdp self) c0).
Proof using Hinit.
  intros (Hn & [c0 Hpos] & Hcols)%(del_group_cols _ _ Hinit).
  exists c0, (len pos). split; [done|]. split; [done|]. split; [done|].
  assert (∀ c, c0 ≤ c < c0 + len pos → c ∈ nkdp self ∧ c ∉ nkip self)
    as Hrun.
  { intros c Hc. apply Hcols. rewrite Hpos. by apply elem_of_seqZ. }
  split; [done|]. unfold profile_del, query_del. split; [|split].
  - rewrite Hpos at 1. apply fmap_seqZ_shift. intros c Hc.
    eapply (col_to_prof_run _ _ Hinit); [|done]. intros; by apply Hrun.
  - rewrite Hpos at 1. apply Forall_fmap, Forall_seqZ. intros c Hc. simpl.
    eapply col_to_qry_run; [|done]. intros; by apply Hrun.
  - rewrite Hpos at 1. by rewrite seqZ_cons.
Qed.

Lemma head_seqZ (m n : Z) : 0 < n → head (seqZ m n) = Some m.
Proof. intros. by rewrite seqZ_cons. Qed.

Lemma last_seqZ (m n : Z) : 0 < n → last (seqZ m n) = Some (m + n - 1).
Proof.
  intros Hn. replace n with (Z.of_nat (S (Z.to_nat (n - 1)))) at 1 by lia.
  rewrite seqZ_S, last_snoc. f_equal. lia.
Qed.

(** The regions of a run are the rows that overlap it; computing them
    never fails. *)
Lemma regions_spec (boundary_df : list boundary_row) (pos : list Z) :
  pos ∈ del_groups self →
  ∃ regs, regions self boundary_df pos = Ok regs
          ∧ ∀ reg, reg ∈ regs ↔ reg ∈ boundary_df ∧ overlaps self reg pos.
Proof using Hinit.
  intros (c0 & n & Hn & Hlen & Hpos & Hrun & Hp & Hq & Hq0)%del_run_shape.
  unfold regions, overlaps. rewrite Hp.
  rewrite py_index_seqZ_last, py_index_seqZ_first by done. simpl.
  eexists. split; [done|]. intros reg.
  rewrite list_elem_of_filter, head_seqZ, last_seqZ by done. split.
  - intros [? ?]. split; [done|]. by eexists _, _.
  - intros [? (p1 & p2 & [= <-] & [= <-] & ?)]. by split.
Qed.

(** Every query position of a run lies in the query interval of every
    region that overlaps the run: [region_dels_q] is the whole of
    [query_del]. *)
Lemma region_dels_q_all (pos : list Z) (reg : boundary_row) :
  pos ∈ del_groups self → overlaps self reg pos →
  region_dels_q self reg pos = query_del self pos.
Proof using Hinit.
  intros (c0 & n & Hn & Hlen & Hpos & Hrun & Hp & Hq & Hq0)%del_run_shape.
  unfold overlaps. rewrite Hp, head_seqZ, last_seqZ by done.
  intros (p1 & p2 & [= <-] & [= <-] & Hs & He).
  unfold region_dels_q. apply filter_all.
  eapply Forall_impl; [exact Hq|]. intros q ->.
  pose proof (NoDup_nkip _ _ Hinit) as HI.
  pose proof (nkdp_not_nkip _ _ Hinit) as HD.
  assert (c0 ∉ nkip self) as Hc0 by (apply Hrun; lia).
  assert (c0 + n - 1 ∉ nkip self) as Hck by (apply Hrun; lia).
  unfold start_q, end_q, all_profile_ins, all_profile_del. split.
  - etrans; [apply (prof_to_qry_mono _ _ HI HD _ _ Hs)|].
    rewrite <- (col_to_qry_run self c0 n (c0 + n - 1))
      by (intros; try apply Hrun; lia).
    rewrite <- (prof_to_qry_col _ _ HI HD) by done.
    rewrite (col_to_prof_run _ _ Hinit c0 n (c0 + n - 1))
      by (intros; try apply Hrun; lia).
    apply Z.eq_le_incl. f_equal. lia.
  - rewrite <- (prof_to_qry_col _ _ HI HD) by done.
    apply (prof_to_qry_mono _ _ HI HD). lia.
Qed.

Lemma region_dels_q_head (pos : list Z) (reg : boundary_row) :
  pos ∈ del_groups self → overlaps self reg pos →
  ∃ c0, head pos = Some c0
        ∧ head (region_dels_q self reg pos)
          = Some (col_to_qry (nkdp self) c0).
Proof using Hinit.
  intros Hpos Hreg. rewrite region_dels_q_all by done.
  destruct (del_run_shape _ Hpos)
    as (c0 & n & Hn & Hlen & Hseq & Hrun & Hp & Hq & Hq0).
  exists c0. split; [|done]. rewrite Hseq. by apply head_seqZ.
Qed.

(** The part of a run inside an overlapping region that is a non-empty
    interval is not empty. *)
Lemma region_dels_p_nonempty (pos : list Z) (reg : boundary_row) :
  pos ∈ del_groups self → overlaps self reg pos →
  b_Start reg ≤ b_End reg →
  region_dels_p self reg pos ≠ [].
Proof using Hinit.
  intros (c0 & n & Hn & Hlen & Hpos & Hrun & Hp & Hq & Hq0)%del_run_shape.
  unfold overlaps. rewrite Hp, head_seqZ, last_seqZ by done.
  intros (p1 & p2 & [= <-] & [= <-] & Hs & He) Hse.
  unfold region_dels_p. rewrite Hp.
  set (p0 := col_to_prof (nkip self) c0) in *.
  assert (Z.max (b_Start reg) p0
            ∈ filter (λ i, b_Start reg ≤ i ≤ b_End reg) (seqZ p0 n)) as Hin.
  { apply list_elem_of_filter. split; [lia|]. apply elem_of_seqZ. lia. }
  intros E. rewrite E in Hin. by apply elem_of_nil in Hin.
Qed.

(** The number of positions of a run inside a region, and the case of
    a run that lies wholly inside it. *)
Lemma region_dels_p_len (pos : list Z) (reg : boundary_row) :
  pos ∈ del_groups self →
  len (region_dels_p self reg pos) ≤ len pos
  ∧ (Forall (λ p, b_Start reg ≤ p ≤ b_End reg) (profile_del self pos) →
     len (region_dels_p self reg pos) = len pos).
Proof.
  intros _. unfold region_dels_p. split.
  - etrans; [apply len_filter_le|]. unfold profile_del. by rewrite len_fmap.
  - intros Hall. rewrite filter_all by done.
    unfold profile_del. by rewrite len_fmap.
Qed.
End deletion_runs.

(** ** The column sets (C4) *)

(** C4: for every parsed alignment (the last row is the query, the rows
    before it are the profile), the insertion columns are the columns
    that are a gap in every profile row and not in the query (I = X \ D),
    the accepted columns are the columns that are a gap in some profile
    row and are no insertion column (A = U \ I); hence I and D are
    disjoint, and so are A and I. *)
Theorem column_sets_derivation (sequences : list string) (self : InDelSubs) :
  InDelSubs_init sequences = Ok self →
  let D : gset Z := nkdp self in
  let I : gset Z := list_to_set (nkip self) in
  let A : gset Z := nkadp self in
  sequences = profile_seqs self ++ [query_seq self]
  ∧ (∀ c, c ∈ D ↔ gap_at (query_seq self) c)
  ∧ (∀ c, c ∈ I ↔ all_profile_gap (profile_seqs self) c ∧ c ∉ D)
  ∧ (∀ c, c ∈ A ↔ any_profile_gap (profile_seqs self) c ∧ c ∉ I)
  ∧ I ∩ D = ∅ ∧ A ∩ I = ∅.
Proof.
  intros Hinit D I A.
  assert (∀ c, c ∈ I ↔ c ∈ nkip self) as HI
    by (intros; apply elem_of_list_to_set).
  split; [|split; [|split; [|split; [|split]]]].
  - destruct (InDelSubs_init_inv _ _ Hinit) as (f & r & -> & -> & _). done.
  - intros c. by eapply elem_of_nkdp.
  - intros c. rewrite HI. by eapply elem_of_nkip.
  - intros c. rewrite HI. by eapply elem_of_nkadp.
  - apply elem_of_equiv_empty_L. intros c [Hi Hd]%elem_of_intersection.
    apply HI in Hi. by eapply nkip_not_nkdp.
  - apply elem_of_equiv_empty_L. intros c [Ha Hi]%elem_of_intersection.
    apply HI in Hi. eapply elem_of_nkadp in Ha as [_ Ha]; done.
Qed.

Lemma column_sets_derivation_witness :
  ∃ self,
    InDelSubs_init example_alignment = Ok self
    ∧ example_alignment = profile_seqs self ++ [query_seq self]
    ∧ (∀ c, c ∈ nkdp self ↔ gap_at (query_seq self) c)
    ∧ (∀ c, c ∈ (list_to_set (nkip self) : gset Z)
            ↔ all_profile_gap (profile_seqs self) c ∧ c ∉ nkdp self)
    ∧ (∀ c, c ∈ nkadp self
            ↔ any_profile_gap (profile_seqs self) c
              ∧ c ∉ (list_to_set (nkip self) : gset Z))
    ∧ (list_to_set (nkip self) : gset Z) ∩ nkdp self = ∅
    ∧ nkadp self ∩ list_to_set (nkip self) = ∅.
Proof.
  eexists. split; [vm_compute; reflexivity|].
  apply (column_sets_derivation example_alignment). vm_compute. reflexivity.
Defined.

(** ** The round trip of the coordinate mappings (C5) *)

Lemma rank_round_trip (S : list Z) (c : Z) :
  NoDup S → c ∉ S →
  col_to_prof S c
  + len (filter (λ i, i < col_to_prof S c) (col_to_prof_ins S <$> S)) - 1 = c.
Proof.
  intros HS Hc. rewrite len_filter_fmap.
  rewrite (len_filter_ext _ (λ x, x < c) S).
  - unfold col_to_prof. lia.
  - intros x Hx. rewrite (col_to_prof_not_in S HS c Hc). split.
    + intros Hlt. destruct (decide (x < c)) as [|Hge]; [done|].
      pose proof (col_to_prof_ins_mono S HS c x). lia.
    + intros Hlt. by apply col_to_prof_ins_lt.
Qed.

(** C5: on the columns outside I the canonical profile position
    [c - |{j ∈ I : j < c}| + 1] is injective, and the inverse mapping takes
    the position back to the column; the same holds for the canonical
    query position on the columns outside D. *)
Theorem coordinate_round_trip (sequences : list string) (self : InDelSubs) :
  InDelSubs_init sequences = Ok self →
  let I := nkip self in
  let D := nkdp self in
  (∀ c, c ∉ I → prof_to_col I (col_to_prof I c) = c)
  ∧ (∀ c1 c2, c1 ∉ I → c2 ∉ I →
              col_to_prof I c1 = col_to_prof I c2 → c1 = c2)
  ∧ (∀ c, c ∉ D → qry_to_col D (col_to_qry D c) = c)
  ∧ (∀ c1 c2, c1 ∉ D → c2 ∉ D →
              col_to_qry D c1 = col_to_qry D c2 → c1 = c2).
Proof.
  intros Hinit I D. pose proof (NoDup_nkip _ _ Hinit) as HI.
  pose proof (NoDup_elements D) as HD.
  assert (∀ c, c ∉ D → col_to_qry D c = col_to_prof (elements D) c) as Hq.
  { intros c Hc. rewrite col_to_qry_unfold.
    symmetry. apply col_to_prof_not_in; [done|]. by rewrite elem_of_elements. }
  split; [|split; [|split]].
  - intros c Hc. by apply rank_round_trip.
  - intros c1 c2. by apply col_to_prof_inj.
  - intros c Hc. unfold qry_to_col. rewrite Hq by done.
    apply (rank_round_trip (elements D)); [done|]. by rewrite elem_of_elements.
  - intros c1 c2 H1 H2. rewrite !Hq by done.
    apply col_to_prof_inj; [done|by rewrite elem_of_elements..].
Qed.

Lemma coordinate_round_trip_witness :
  ∃ self,
    InDelSubs_init example_alignment = Ok self
    ∧ (∀ c, c ∉ nkip self →
            prof_to_col (nkip self) (col_to_prof (nkip self) c) = c)
    ∧ (∀ c1 c2, c1 ∉ nkip self → c2 ∉ nkip self →
                col_to_prof (nkip self) c1 = col_to_prof (nkip self) c2 →
                c1 = c2)
    ∧ (∀ c, c ∉ nkdp self →
            qry_to_col (nkdp self) (col_to_qry (nkdp self) c) = c)
    ∧ (∀ c1 c2, c1 ∉ nkdp self → c2 ∉ nkdp self →
                col_to_qry (nkdp self) c1 = col_to_qry (nkdp self) c2 →
                c1 = c2).
Proof.
  eexists. split; [vm_compute; reflexivity|].
  apply (coordinate_round_trip example_alignment). vm_compute. reflexivity.
Defined.

(** ** The loop body of [deletion_flags] *)

Lemma nonempty_head_last {A : Type} (l : list A) :
  l ≠ [] → ∃ x y, head l = Some x ∧ last l = Some y.
Proof.
  intros Hl. destruct l as [|x l]; [done|]. exists x.
  destruct (last (x :: l)) as [y|] eqn:E; [by exists y|].
  by apply last_None in E.
Qed.

Section deletion_body.
Context (sequences : list string) (self : InDelSubs).
Context (lookup_df : list lookup_row).
Hypothesis Hinit : InDelSubs_init sequences = Ok self.

(** A region in which the run has a profile position overlaps the
    run. *)
Lemma intersects_overlaps (pos : list Z) (reg : boundary_row) :
  pos ∈ del_groups self → region_dels_p self reg pos ≠ [] →
  overlaps self reg pos.
Proof using Hinit.
  intros (c0 & n & Hn & Hlen & Hpos & Hrun & Hp & Hq & Hq0)%(del_run_shape _ _ Hinit).
  unfold region_dels_p, overlaps. rewrite Hp. intros Hne.
  destruct (filter _ _) as [|p l] eqn:E; [done|].
  assert (p ∈ filter (λ i, b_Start reg ≤ i ≤ b_End reg)
                   (seqZ (col_to_prof (nkip self) c0) n))
    as [Hreg Hin%elem_of_seqZ]%list_elem_of_filter by (rewrite E; left).
  exists (col_to_prof (nkip self) c0), (col_to_prof (nkip self) c0 + n - 1).
  rewrite head_seqZ, last_seqZ by done. repeat split; lia.
Qed.

(** The terminal test reads the query position that the run follows;
    a terminal run gives no flag, any other run goes on to the chain of
    tests on the region. *)
Lemma deletion_region_flags_spec (pos : list Z) (reg : boundary_row) :
  pos ∈ del_groups self → overlaps self reg pos →
  ∃ c0,
    head pos = Some c0
    ∧ head (region_dels_q self reg pos) = Some (col_to_qry (nkdp self) c0)
    ∧ deletion_region_flags self lookup_df pos reg
      = if decide (terminal self (col_to_qry (nkdp self) c0)) then Ok []
        else deletion_emit lookup_df pos (b_Region reg)
                           (region_dels_p self reg pos)
                           (region_dels_q self reg pos).
Proof using Hinit.
  intros Hpos Hreg.
  destruct (region_dels_q_head _ _ Hinit _ _ Hpos Hreg) as (c0 & Hc0 & Hq0).
  exists c0. split; [done|]. split; [done|].
  unfold deletion_region_flags.
  rewrite (py_index_head_Some _ _ Hq0). simpl. unfold terminal.
  by destruct (decide _).
Qed.

(** The loop body succeeds on every overlapping region that is a
    non-empty interval. *)
Lemma deletion_region_flags_total (pos : list Z) (reg : boundary_row) :
  pos ∈ del_groups self → overlaps self reg pos →
  b_Start reg ≤ b_End reg →
  ∃ flags, deletion_region_flags self lookup_df pos reg = Ok flags.
Proof using Hinit.
  intros Hpos Hreg Hse.
  destruct (deletion_region_flags_spec _ _ Hpos Hreg)
    as (c0 & Hc0 & Hq0 & ->).
  case_decide; [by eexists|].
  destruct (nonempty_head_last (region_dels_p self reg pos))
    as (p0 & pl & Hp0 & Hpl).
  { by eapply region_dels_p_nonempty. }
  rewrite (deletion_emit_spec _ _ _ _ _ _ _ _ Hp0 Hpl Hq0). by eexists.
Qed.
End deletion_body.

(** ** Totality of [deletion_flags] (C10) *)

(** C10, as amended: for every deletion run and every row of the boundary
    table that the run overlaps, all the query positions of the run lie in
    the query interval of the row, so [region_dels_q] is not empty and
    [region_dels_q[0]] is in bounds; and [deletion_flags] returns a list
    of flags whenever every row of the table has Start ≤ End. *)
Theorem region_dels_q_in_bounds (sequences : list string) (self : InDelSubs) :
  InDelSubs_init sequences = Ok self →
  (∀ boundary_df pos regs reg,
     pos ∈ del_groups self → regions self boundary_df pos = Ok regs →
     reg ∈ regs →
     region_dels_q self reg pos = query_del self pos
     ∧ region_dels_q self reg pos ≠ []
     ∧ ∃ q0, py_index (region_dels_q self reg pos) 0 = Ok q0)
  ∧ (∀ lookup_df boundary_df,
       (∀ reg, reg ∈ boundary_df → b_Start reg ≤ b_End reg) →
       ∃ flags, deletion_flags self lookup_df boundary_df = Ok flags).
Proof.
  intros Hinit. split.
  - intros boundary_df pos regs reg Hpos Hregs Hreg.
    destruct (regions_spec _ _ Hinit boundary_df pos Hpos)
      as (regs' & Hregs' & Hin).
    rewrite Hregs in Hregs'. injection Hregs' as <-.
    apply Hin in Hreg as [_ Hov].
    destruct (region_dels_q_head _ _ Hinit _ _ Hpos Hov) as (c0 & _ & Hq0).
    split; [by eapply region_dels_q_all|]. split.
    + intros E. by rewrite E in Hq0.
    + eexists. by apply py_index_head_Some.
  - intros lookup_df boundary_df Hse. unfold deletion_flags.
    apply for_each_total. intros pos Hpos. unfold deletion_group_flags.
    destruct (regions_spec _ _ Hinit boundary_df pos Hpos)
      as (regs & -> & Hin). simpl.
    apply for_each_total. intros reg [Hreg Hov]%Hin.
    eapply deletion_region_flags_total; eauto.
Qed.

Lemma region_dels_q_in_bounds_witness :
  ∃ self,
    InDelSubs_init example_alignment = Ok self
    ∧ (∀ boundary_df pos regs reg,
         pos ∈ del_groups self → regions self boundary_df pos = Ok regs →
         reg ∈ regs →
         region_dels_q self reg pos = query_del self pos
         ∧ region_dels_q self reg pos ≠ []
         ∧ ∃ q0, py_index (region_dels_q self reg pos) 0 = Ok q0)
    ∧ (∀ lookup_df boundary_df,
         (∀ reg, reg ∈ boundary_df → b_Start reg ≤ b_End reg) →
         ∃ flags, deletion_flags self lookup_df boundary_df = Ok flags).
Proof.
  eexists. split; [vm_compute; reflexivity|].
  apply (region_dels_q_in_bounds example_alignment). vm_compute. reflexivity.
Defined.

(** [deletion_flags] is not total: on a table whose 5'NCR is empty, a run
    across the end of the 5'CTS passes the overlap test of line 544 for
    the empty row, and [region_dels_p[0]] raises. *)
Lemma deletion_flags_not_total :
  (∃ self, InDelSubs_init example_alignment = Ok self)
  ∧ bind (InDelSubs_init example_alignment)
         (λ self, deletion_flags self [] degenerate_boundaries)
    = Raise IndexError.
Proof. split; [eexists|]; vm_compute; reflexivity. Qed.

(** ** What a region contributes for a run *)

Lemma deletion_emit_nil (lookup_df : list lookup_row) (pos : list Z)
    (region : string) (region_dels_q : list Z) :
  deletion_emit lookup_df pos region [] region_dels_q = Raise IndexError.
Proof. unfold deletion_emit. by case_decide. Qed.

Section deletion_outcome.
Context (sequences : list string) (self : InDelSubs).
Context (lookup_df : list lookup_row).
Hypothesis Hinit : InDelSubs_init sequences = Ok self.

(** The outcome of the loop body for a run and a region in which the
    run has the profile positions [p0] to [pl]. *)
Lemma deletion_region_flags_outcome (pos : list Z) (reg : boundary_row)
    (p0 pl : Z) :
  pos ∈ del_groups self →
  head (region_dels_p self reg pos) = Some p0 →
  last (region_dels_p self reg pos) = Some pl →
  ∃ c0 rest,
    head pos = Some c0
    ∧ region_dels_q self reg pos = col_to_qry (nkdp self) c0 :: rest
    ∧ Forall (λ q, q = col_to_qry (nkdp self) c0) rest
    ∧ deletion_region_flags self lookup_df pos reg
      = Ok (if decide (terminal self (col_to_qry (nkdp self) c0)) then []
            else match deletion_kind (b_Region reg) (len pos) with
                 | None => []
                 | Some kind =>
                   if decide (whitelistable kind
                              ∧ whitelisted lookup_df kind p0 pl)
                   then []
                   else [deletion_candidate
                           pos kind p0 pl (col_to_qry (nkdp self) c0)
                           (len (region_dels_p self reg pos))]
                 end).
Proof using Hinit.
  intros Hpos Hp0 Hpl.
  assert (overlaps self reg pos) as Hov.
  { eapply intersects_overlaps; [done..|]. intros E. by rewrite E in Hp0. }
  destruct (deletion_region_flags_spec _ _ lookup_df Hinit _ _ Hpos Hov)
    as (c0 & Hc0 & Hq0 & ->).
  destruct (del_run_shape _ _ Hinit _ Hpos)
    as (c0' & n & Hn & Hlen & Hseq & Hrun & Hp & Hq & Hq0').
  assert (c0' = c0) as ->.
  { rewrite Hseq, head_seqZ in Hc0 by done. by injection Hc0. }
  pose proof (region_dels_q_all _ _ Hinit _ _ Hpos Hov) as Hall.
  destruct (region_dels_q self reg pos) as [|q rest] eqn:E; [done|].
  injection Hq0 as ->. exists c0, rest. split; [done|]. split; [done|].
  split. { rewrite <- Hall in Hq. by apply Forall_cons in Hq as [_ ?]. }
  case_decide; [done|].
  by rewrite (deletion_emit_spec _ _ _ _ _ p0 pl (col_to_qry (nkdp self) c0)).
Qed.

(** Every flag of the output of [deletion_flags] comes from a run and a
    region that the run intersects, and is the candidate of the table. *)
Lemma deletion_flags_elem (boundary_df : list boundary_row)
    (flags : list flag) (f : flag) :
  deletion_flags self lookup_df boundary_df = Ok flags → f ∈ flags →
  ∃ pos reg p0 pl q0 kind,
    pos ∈ del_groups self ∧ reg ∈ boundary_df
    ∧ head (region_dels_p self reg pos) = Some p0
    ∧ last (region_dels_p self reg pos) = Some pl
    ∧ deletion_kind (b_Region reg) (len pos) = Some kind
    ∧ f = deletion_candidate pos kind p0 pl q0
                             (len (region_dels_p self reg pos))
    ∧ deletion_region_flags self lookup_df pos reg = Ok [f].
Proof using Hinit.
  intros Hflags Hf. unfold deletion_flags in Hflags.
  destruct (for_each_Ok_elem _ _ _ _ Hflags Hf) as (pos & fs & Hpos & Hfs & Hf').
  unfold deletion_group_flags in Hfs.
  destruct (regions_spec _ _ Hinit boundary_df pos Hpos)
    as (regs & Hregs & Hin).
  rewrite Hregs in Hfs. simpl in Hfs.
  destruct (for_each_Ok_elem _ _ _ _ Hfs Hf')
    as (reg & gs & [Hreg Hov]%Hin & Hgs & Hf'').
  destruct (region_dels_p self reg pos) as [|p ps] eqn:E.
  { exfalso.
    destruct (deletion_region_flags_spec _ _ lookup_df Hinit _ _ Hpos Hov)
      as (c0 & _ & _ & Hspec).
    rewrite Hspec, E, deletion_emit_nil in Hgs.
    case_decide; [|done]. injection Hgs as <-. by apply elem_of_nil in Hf''. }
  destruct (nonempty_head_last (p :: ps)) as (p0 & pl & Hp0 & Hpl); [done|].
  rewrite <- E in Hp0, Hpl.
  destruct (deletion_region_flags_outcome pos reg p0 pl Hpos Hp0 Hpl)
    as (c0 & rest & _ & _ & _ & Hout).
  rewrite Hgs in Hout. injection Hout as ->.
  case_decide; [by apply elem_of_nil in Hf''|].
  destruct (deletion_kind (b_Region reg) (len pos)) as [kind|] eqn:Hk;
    [|by apply elem_of_nil in Hf''].
  case_decide; [by apply elem_of_nil in Hf''|].
  apply list_elem_of_singleton in Hf'' as ->.
  exists pos, reg, p0, pl, (col_to_qry (nkdp self) c0), kind.
  rewrite E in *. by repeat split.
Qed.
End deletion_outcome.

Lemma deletion_kind_CDS3X (region : string) (n : Z) :
  deletion_kind region n = Some "CDS-3Xdel" ↔ region = "CDS" ∧ n `mod` 3 = 0.
Proof.
  unfold deletion_kind. repeat case_decide; subst; split; try done;
    intros [? ?]; done.
Qed.

Lemma deletion_kind_CDS (region : string) (n : Z) :
  deletion_kind region n = Some "CDS-del" ↔ region = "CDS" ∧ n `mod` 3 ≠ 0.
Proof.
  unfold deletion_kind. repeat case_decide; subst; split; try done;
    intros [? ?]; done.
Qed.

(** ** Terminal-truncation suppression (C3) *)



(** ** The whitelist (C2) *)




(** ** Frame-sensitive labels (C1) *)

Lemma insertion_emit_elem (pos : list Z) (region : string)
    (profile_pos query_pos ins_muts : string) (f : flag) :
  f ∈ insertion_emit pos region profile_pos query_pos ins_muts →
  Length f = len pos
  ∧ (Flag f = "CDS-3Xins" ↔ region = "CDS" ∧ len pos `mod` 3 = 0)
  ∧ (Flag f = "CDS-ins" ↔ region = "CDS" ∧ len pos `mod` 3 ≠ 0).
Proof.
  unfold insertion_emit.
  repeat case_decide; subst;
    try (intros ->%list_elem_of_singleton; simpl;
         split; [done|]; split; split; (done || (intros [? ?]; done))).
  by intros ?%elem_of_nil.
Qed.

Lemma insertion_group_flags_elem (self : InDelSubs)
    (boundary_df : list boundary_row) (profile_length : Z) (pos : list Z)
    (flags : list flag) (f : flag) :
  insertion_group_flags self boundary_df profile_length pos = Ok flags →
  f ∈ flags →
  Length f = len pos
  ∧ (Flag f = "CDS-3Xins" → len pos `mod` 3 = 0)
  ∧ (Flag f = "CDS-ins" → len pos `mod` 3 ≠ 0).
Proof.
  unfold insertion_group_flags. intros H Hf.
  repeat match type of H with
         | bind _ _ = Ok _ => apply bind_Ok in H as (? & ? & H)
         end.
  repeat case_decide;
    repeat match type of H with
           | bind _ _ = Ok _ => apply bind_Ok in H as (? & ? & H)
           end;
    injection H as <-.
  all: try (apply list_elem_of_singleton in Hf as ->; by simpl).
  all: apply insertion_emit_elem in Hf as (? & Hin3 & Hin1);
    (split; [done|]);
    split; intros Hk; [by apply Hin3 in Hk as [_ ?]|by apply Hin1 in Hk as [_ ?]].
Qed.

(** C1, as amended: a flag of a deletion run for the CDS region is
    CDS-3Xdel if and only if the length of the whole run is a positive
    multiple of 3, and CDS-del otherwise; its Length is the number of
    positions of the run inside the region, between 1 and the length of
    the run and equal to it when the run lies inside the region. A flag of
    an insertion run for the CDS region is CDS-3Xins if and only if the
    length of the run, which is its Length, is a positive multiple of 3,
    and CDS-ins otherwise. *)
Theorem frame_sensitive_labels (sequences : list string) (self : InDelSubs)
    (lookup_df : list lookup_row) (boundary_df : list boundary_row) :
  InDelSubs_init sequences = Ok self →
  (∀ flags f,
     deletion_flags self lookup_df boundary_df = Ok flags → f ∈ flags →
     ∃ pos reg,
       pos ∈ del_groups self ∧ reg ∈ boundary_df
       ∧ deletion_region_flags self lookup_df pos reg = Ok [f]
       ∧ 0 < len pos
       ∧ Length f = len (region_dels_p self reg pos)
       ∧ 0 < Length f ≤ len pos
       ∧ (Forall (λ p, b_Start reg ≤ p ≤ b_End reg) (profile_del self pos) →
          Length f = len pos)
       ∧ (Flag f = "CDS-3Xdel" ↔ b_Region reg = "CDS" ∧ len pos `mod` 3 = 0)
       ∧ (Flag f = "CDS-del" ↔ b_Region reg = "CDS" ∧ len pos `mod` 3 ≠ 0))
  ∧ (∀ flags f,
       insertion_flags self boundary_df = Ok flags → f ∈ flags →
       ∃ pos,
         pos ∈ ins_groups self ∧ Length f = len pos ∧ 0 < Length f
         ∧ (Flag f = "CDS-3Xins" → Length f `mod` 3 = 0)
         ∧ (Flag f = "CDS-ins" → Length f `mod` 3 ≠ 0))
  ∧ (∀ pos profile_pos query_pos ins_muts,
       insertion_emit pos "CDS" profile_pos query_pos ins_muts
       = [mk_flag (if decide (len pos `mod` 3 = 0) then "CDS-3Xins"
                   else "CDS-ins")
                  profile_pos query_pos ins_muts (len pos)]).
Proof.
  intros Hinit. split; [|split].
  - intros flags f Hflags Hf.
    destruct (deletion_flags_elem _ _ lookup_df Hinit _ _ _ Hflags Hf)
      as (pos & reg & p0 & pl & q0 & kind
          & Hpos & Hreg & Hp0 & Hpl & Hkind & -> & Hout).
    exists pos, reg. split; [done|]. split; [done|]. split; [done|].
    destruct (del_group_cols _ _ Hinit _ Hpos) as (Hn & _ & _).
    destruct (region_dels_p_len self pos reg Hpos) as [Hle Hall].
    split; [done|]. simpl. split; [done|]. split; [|split; [done|]].
    + split; [|done]. destruct (region_dels_p self reg pos); [done|].
      rewrite len_cons. pose proof (len_nonneg l). lia.
    + rewrite <- deletion_kind_CDS3X, <- deletion_kind_CDS, Hkind.
      split; split; congruence.
  - intros flags f Hflags Hf. unfold insertion_flags in Hflags.
    apply bind_Ok in Hflags as (profile_length & _ & Hflags).
    destruct (for_each_Ok_elem _ _ _ _ Hflags Hf)
      as (pos & fs & Hpos & Hfs & Hf').
    destruct (insertion_group_flags_elem _ _ _ _ _ _ Hfs Hf')
      as (Hlen & H3 & H1).
    destruct (ins_group_cols _ _ Hinit _ Hpos) as (Hn & _ & _).
    exists pos. rewrite Hlen. by repeat split.
  - intros. unfold insertion_emit. simpl. by case_decide.
Qed.

Lemma frame_sensitive_labels_witness :
  ∃ self,
    InDelSubs_init example_alignment = Ok self
    ∧ (∀ flags f,
         deletion_flags self example_lookup example_boundaries = Ok flags →
         f ∈ flags →
         ∃ pos reg,
           pos ∈ del_groups self ∧ reg ∈ example_boundaries
           ∧ deletion_region_flags self example_lookup pos reg = Ok [f]
           ∧ 0 < len pos
           ∧ Length f = len (region_dels_p self reg pos)
           ∧ 0 < Length f ≤ len pos
           ∧ (Forall (λ p, b_Start reg ≤ p ≤ b_End reg)
                     (profile_del self pos) →
              Length f = len pos)
           ∧ (Flag f = "CDS-3Xdel"
              ↔ b_Region reg = "CDS" ∧ len pos `mod` 3 = 0)
           ∧ (Flag f = "CDS-del"
              ↔ b_Region reg = "CDS" ∧ len pos `mod` 3 ≠ 0))
    ∧ (∀ flags f,
         insertion_flags self example_boundaries = Ok flags → f ∈ flags →
         ∃ pos,
           pos ∈ ins_groups self ∧ Length f = len pos ∧ 0 < Length f
           ∧ (Flag f = "CDS-3Xins" → Length f `mod` 3 = 0)
           ∧ (Flag f = "CDS-ins" → Length f `mod` 3 ≠ 0))
    ∧ (∀ pos profile_pos query_pos ins_muts,
         insertion_emit pos "CDS" profile_pos query_pos ins_muts
         = [mk_flag (if decide (len pos `mod` 3 = 0) then "CDS-3Xins"
                     else "CDS-ins")
                    profile_pos query_pos ins_muts (len pos)]).
Proof.
  eexists. split; [vm_compute; reflexivity|].
  apply (frame_sensitive_labels example_alignment). vm_compute. reflexivity.
Defined.

(** The Length of a CDS-3Xdel flag need not be a multiple of 3: the run
    of three columns of [example_alignment] has two positions in the
    5'NCR and one in the CDS, and its CDS-3Xdel flag has the Length 1. *)
Lemma CDS_3Xdel_length_not_multiple :
  ∃ flags f,
    bind (InDelSubs_init example_alignment)
         (λ self, deletion_flags self [] example_boundaries) = Ok flags
    ∧ f ∈ flags ∧ Flag f = "CDS-3Xdel" ∧ Length f = 1
    ∧ Length f `mod` 3 ≠ 0.
Proof.
  eexists _, (mk_flag "CDS-3Xdel" "7..7" "5..6" "del" 1).
  split; [vm_compute; reflexivity|].
  split; [right; left|]. by repeat split.
Qed.

(** ** The summary flag (C6) *)

Lemma append_String (c : ascii) (s t : string) :
  String c s +:+ t = String c (s +:+ t).
Proof. done. Qed.

Lemma append_empty (t : string) : "" +:+ t = t.
Proof. done. Qed.

Lemma prefix_spec (p s : string) :
  String.prefix p s = true ↔ ∃ rest, s = p +:+ rest.
Proof.
  revert p. induction s as [|b s IH]; intros p.
  - destruct p as [|a p]; simpl.
    + split; [by exists ""|done].
    + split; [done|]. by intros [rest ?].
  - destruct p as [|a p]; simpl.
    + split; [by eexists|done].
    + destruct (ascii_dec a b) as [->|Hab].
      * rewrite IH. split; intros [rest Hr]; exists rest;
          rewrite append_String in *; congruence.
      * split; [done|]. intros [rest Hr]. rewrite append_String in Hr.
        congruence.
Qed.

Lemma contains_spec (sub s : string) :
  contains sub s = true ↔ is_substring sub s.
Proof.
  unfold is_substring. induction s as [|c s IH].
  - cbn [contains]. rewrite orb_false_r, prefix_spec. split.
    + intros [rest ->]. by exists "", rest.
    + intros ([|? ?] & post & H); [by exists post|done].
  - cbn [contains]. rewrite orb_true_iff, IH, prefix_spec. split.
    + intros [[rest ->]|(pre & post & ->)].
      * by exists "", rest.
      * by exists (String c pre), post.
    + intros ([|c' pre] & post & H).
      * left. by exists post.
      * right. rewrite append_String in H. injection H as -> ->.
        by exists pre, post.
Qed.

Lemma any_flag_spec (cond : flag → bool) (flags : list flag) :
  any_flag cond flags = true ↔ ∃ f, f ∈ flags ∧ cond f = true.
Proof.
  unfold any_flag. rewrite bool_decide_eq_true, list_elem_of_fmap. split.
  - intros (f & _ & [? ?]%list_elem_of_filter). by exists f.
  - intros (f & ? & ?). exists f. split; [done|].
    by apply list_elem_of_filter.
Qed.

(** C6: [summary_flag] returns Ambig-Seq when the profile is Unknown or
    the list of ambiguity flags is not empty; else Flag-CDS when the label
    of some mutation flag contains CDS; else Flag-NCR when the label of
    some mutation flag contains NCR or CTS; else Pass. *)
Theorem summary_flag_precedence (self : Curation)
    (ambiguity : list string) (mutations : list flag) :
  (profile self = "Unknown" → Curation_summary_flag self = Ok "Ambig-Seq")
  ∧ (profile self ≠ "Unknown" → ambig_flags self = Some ambiguity →
     mut_flags self = Some mutations →
     let cds := ∃ f, f ∈ mutations ∧ is_substring "CDS" (Flag f) in
     let ncr := ∃ f, f ∈ mutations
                     ∧ (is_substring "NCR" (Flag f)
                        ∨ is_substring "CTS" (Flag f)) in
     (ambiguity ≠ [] → Curation_summary_flag self = Ok "Ambig-Seq")
     ∧ (ambiguity = [] → cds → Curation_summary_flag self = Ok "Flag-CDS")
     ∧ (ambiguity = [] → ¬ cds → ncr →
        Curation_summary_flag self = Ok "Flag-NCR")
     ∧ (ambiguity = [] → ¬ cds → ¬ ncr →
        Curation_summary_flag self = Ok "Pass")).
Proof.
  split.
  - intros Hp. unfold Curation_summary_flag. by rewrite decide_True.
  - intros Hp Ha Hm cds ncr. unfold Curation_summary_flag.
    rewrite decide_False, Ha, Hm by done. simpl.
    assert (any_flag (λ flag, contains "CDS" (Flag flag)) mutations = true
            ↔ cds) as Hcds.
    { rewrite any_flag_spec. unfold cds.
      by setoid_rewrite contains_spec. }
    assert (any_flag (λ flag, contains "NCR" (Flag flag)
                              || contains "CTS" (Flag flag)) mutations = true
            ↔ ncr) as Hncr.
    { rewrite any_flag_spec. unfold ncr.
      setoid_rewrite orb_true_iff. by setoid_rewrite contains_spec. }
    split; [|split; [|split]].
    + intros Hne. by rewrite bool_decide_eq_true_2.
    + intros -> Hc. apply Hcds in Hc. simpl. by rewrite Hc.
    + intros -> Hc Hn. simpl.
      destruct (any_flag _ mutations) eqn:E; [exfalso; by apply Hc, Hcds|].
      apply Hncr in Hn. by rewrite Hn.
    + intros -> Hc Hn. simpl.
      destruct (any_flag (λ flag, contains "CDS" (Flag flag)) mutations)
        eqn:E; [exfalso; by apply Hc, Hcds|].
      destruct (any_flag (λ flag, contains "NCR" (Flag flag)
                                  || contains "CTS" (Flag flag)) mutations)
        eqn:E'; [exfalso; by apply Hn, Hncr|done].
Qed.

Lemma summary_flag_precedence_witness :
  let self := {| profile := "B_1_prof.fasta"; identity := IdentityFloat (9 # 10);
                 strain_name := "B_1"; accession := "AB000001";
                 mut_flags := Some [mk_flag "5'NCR-del" "15" "14..15" "del" 1];
                 del_flags := Some [mk_flag "5'NCR-del" "15" "14..15" "del" 1];
                 ins_flags := Some []; sub_flags := Some [];
                 ambig_flags := Some [] |} in
  profile self ≠ "Unknown"
  ∧ Curation_summary_flag self = Ok "Flag-NCR".
Proof.
  cbv zeta. split; [done|].
  eapply (summary_flag_precedence _ [] _); try done.
  - intros (f & ->%list_elem_of_singleton & Hs).
    apply contains_spec in Hs. by vm_compute in Hs.
  - eexists. split; [left|]. left. by exists "5'", "-del".
Defined.

(** ** The sentinel result (C7) *)

(** C7, as amended: when the classifier returns Unknown the constructor
    returns after the BLAST run, before any reference file is opened and
    before the aligner runs; the four flag accessors return the sentinel
    Unknown, [ambiguity_flags] returns the string Excess-Dist, and
    [summary_flag] returns Ambig-Seq. *)
Theorem unknown_classification (w : World) (query : string)
    (strain : option string)
    (boundary_file lookup_table profile_dir output_dir : string)
    (acc sequence : string) (records : list (list blast_alignment))
    (b : Blast) :
  supplied strain = None →
  get_acc_and_seq w query = Ok (acc, sequence) →
  blast_records w query = Ok records →
  Blast_init records = Ok b →
  blast_profile b = "Unknown" →
  ∃ self,
    Curation_init w query strain boundary_file lookup_table
                  profile_dir output_dir
    = ([ReadQuery query; RunBlast query], Ok self)
    ∧ profile self = "Unknown" ∧ strain_name self = "Unknown"
    ∧ accession self = acc
    ∧ Curation_mutation_flags self = Ok (Sentinel "Unknown")
    ∧ Curation_deletion_flags self = Ok (Sentinel "Unknown")
    ∧ Curation_insertion_flags self = Ok (Sentinel "Unknown")
    ∧ Curation_substitution_flags self = Ok (Sentinel "Unknown")
    ∧ Curation_ambiguity_flags self = Ok (AmbiguityString "Excess-Dist")
    ∧ Curation_summary_flag self = Ok "Ambig-Seq".
Proof.
  intros Hs Hq Hr Hb Hp. eexists. split.
  - unfold Curation_init. rewrite Hs, Hq. simpl. rewrite Hr. simpl.
    rewrite Hb. simpl. rewrite Hp. simpl. reflexivity.
  - by repeat split.
Qed.

Lemma unknown_classification_witness :
  ∃ self,
    Curation_init unknown_world "query.fasta" None "boundaries.txt"
                  "lookup.txt" "profiles" "outputs"
    = ([ReadQuery "query.fasta"; RunBlast "query.fasta"], Ok self)
    ∧ profile self = "Unknown" ∧ strain_name self = "Unknown"
    ∧ accession self = "AB000001"
    ∧ Curation_mutation_flags self = Ok (Sentinel "Unknown")
    ∧ Curation_deletion_flags self = Ok (Sentinel "Unknown")
    ∧ Curation_insertion_flags self = Ok (Sentinel "Unknown")
    ∧ Curation_substitution_flags self = Ok (Sentinel "Unknown")
    ∧ Curation_ambiguity_flags self = Ok (AmbiguityString "Excess-Dist")
    ∧ Curation_summary_flag self = Ok "Ambig-Seq".
Proof.
  apply (unknown_classification unknown_world "query.fasta" None
           "boundaries.txt" "lookup.txt" "profiles" "outputs"
           "AB000001" "ACGTACGT" [[]]
           {| blast_profile := "Unknown"; blast_identity := IdentityUnknown |});
    reflexivity.
Defined.

(** On the sentinel path [ambiguity_flags] does not return a list. *)
Lemma ambiguity_flags_not_a_list :
  ∃ self,
    (Curation_init unknown_world "query.fasta" None "boundaries.txt"
                   "lookup.txt" "profiles" "outputs").2 = Ok self
    ∧ Curation_ambiguity_flags self = Ok (AmbiguityString "Excess-Dist")
    ∧ Curation_ambiguity_flags self ≠ Ok (AmbiguityList ["Excess-Dist"]).
Proof. eexists. split; [vm_compute; reflexivity|]. by split. Qed.

(** ** The boundary file (C8) *)

Lemma select_boundary_first (strain_name boundary : string)
    (before : list string) (line : string) (after : list string) :
  Forall (λ l, startswith l strain_name = false) before →
  startswith line strain_name = true →
  select_boundary strain_name boundary (before ++ line :: after) = line.
Proof.
  induction 1 as [|l before Hl _ IH]; intros Hline; simpl.
  - by rewrite Hline.
  - rewrite Hl. by apply IH.
Qed.

Lemma select_boundary_none (strain_name boundary : string)
    (boundary_types : list string) :
  Forall (λ l, startswith l strain_name = false) boundary_types →
  select_boundary strain_name boundary boundary_types = boundary.
Proof. induction 1 as [|l ls Hl _ IH]; simpl; [done|by rewrite Hl]. Qed.

(** What the loop of [parse_boundary_file] does: it keeps the first line
    that starts with the strain name, a prefix test on the whole line; when
    no line starts with the strain name the empty line is parsed and the
    lookup of START raises. *)
Theorem boundary_line_selection (strain_name : string)
    (boundary_types : list string) :
  (∀ before line after,
     boundary_types = before ++ line :: after →
     Forall (λ l, startswith l strain_name = false) before →
     startswith line strain_name = true →
     select_boundary strain_name "" boundary_types = line
     ∧ boundary_table strain_name boundary_types
       = boundary_table strain_name [line])
  ∧ (Forall (λ l, startswith l strain_name = false) boundary_types →
     boundary_table strain_name boundary_types = Raise (KeyError "START"))
  ∧ (∀ line, startswith line strain_name = true
             ↔ ∃ rest, line = strain_name +:+ rest)
  ∧ (∀ readlines boundary_file,
       readlines boundary_file = Ok boundary_types →
       parse_boundary_file readlines strain_name boundary_file
       = boundary_table strain_name boundary_types).
Proof.
  split; [|split; [|split]].
  - intros before line after -> Hb Hl.
    pose proof (select_boundary_first strain_name "" before line after Hb Hl)
      as Hsel.
    split; [done|]. unfold boundary_table. rewrite Hsel. simpl.
    by rewrite Hl.
  - intros Hall. unfold boundary_table.
    by rewrite select_boundary_none.
  - intros line. apply prefix_spec.
  - intros readlines boundary_file Hr. unfold parse_boundary_file.
    by rewrite Hr.
Qed.

(** A strain whose name is a prefix of another strain's name is given the
    boundaries of that strain: no line of the file has A_4_H1 as its first
    field, and the call succeeds with the line of A_4_H10. *)
Lemma boundary_prefix_match :
  Forall (λ line, first_field line ≠ "A_4_H1") H10_boundary_lines
  ∧ ∃ boundary_df,
      parse_boundary_file (λ _, Ok H10_boundary_lines) "A_4_H1" "boundaries.txt"
      = Ok boundary_df.
Proof.
  split.
  - repeat constructor. by vm_compute.
  - eexists. vm_compute. reflexivity.
Qed.

(** C8: the code at the inputs where it departs from the selection by
    the first field. With the line of A_4_H10 before the line of A_4_H1,
    the strain A_4_H1 is given the table of A_4_H10, though the first
    field of that line is not A_4_H1 and its own line, which gives another
    table, follows; and for a strain that no line names the call raises the
    key error of the lookup of START, where the profile lookup of the
    constructor and [parse_lookup_table] handle the missing strain. *)
Theorem boundary_selection_at_failing_inputs :
  first_field <$> H10_then_H1_lines = ["A_4_H10"; "A_4_H1"]
  ∧ parse_boundary_file (λ _, Ok H10_then_H1_lines) "A_4_H1" "boundaries.txt"
    = Ok [ {| b_Region := "CTS5"; b_Start := 1; b_End := 12 |};
           {| b_Region := "NCR5"; b_Start := 13; b_End := 29 |};
           {| b_Region := "CDS"; b_Start := 30; b_End := 100 |};
           {| b_Region := "NCR3"; b_Start := 101; b_End := 109 |};
           {| b_Region := "CTS3"; b_Start := 110; b_End := 120 |} ]
  ∧ parse_boundary_file (λ _, Ok (drop 1 H10_then_H1_lines)) "A_4_H1"
                        "boundaries.txt"
    = Ok [ {| b_Region := "CTS5"; b_Start := 1; b_End := 20 |};
           {| b_Region := "NCR5"; b_Start := 21; b_End := 32 |};
           {| b_Region := "CDS"; b_Start := 33; b_End := 1733 |};
           {| b_Region := "NCR3"; b_Start := 1734; b_End := 1764 |};
           {| b_Region := "CTS3"; b_Start := 1765; b_End := 1777 |} ]
  ∧ Forall (λ line, first_field line ≠ "B_1") H10_then_H1_lines
  ∧ parse_boundary_file (λ _, Ok H10_then_H1_lines) "B_1" "boundaries.txt"
    = Raise (KeyError "START")
  ∧ parse_lookup_table (λ _, Ok H10_then_H1_lines) "B_1" "lookup.txt"
    = Ok [ {| lk_Flag := "XXX"; lk_Start := -1; lk_End := -1 |} ].
Proof.
  split; [by vm_compute|]. split; [by vm_compute|]. split; [by vm_compute|].
  split; [repeat constructor; by vm_compute|].
  split; by vm_compute.
Qed.

(** ** The supplied-strain path (C9) *)

Lemma chars_nil_iff (s : string) : chars s = [] ↔ s = "".
Proof. destruct s; simpl; split; done. Qed.

(** Without a bound [identity] the ambiguity screen always raises: on the
    division for an empty sequence, else on the read of [identity]. *)
Lemma ambiguity_screen_unbound (accession sequence : string) :
  ambiguity_screen accession sequence None
  = Raise (if decide (strip sequence = "") then ZeroDivisionError
           else UnboundLocalError "identity").
Proof.
  unfold ambiguity_screen, get_n_content, get_ambig_content, truediv,
    get_length, MolSeq_init. simpl.
  destruct (decide (strip sequence = "")) as [E|E].
  - by rewrite decide_True by (by rewrite E).
  - assert (len (chars (strip sequence)) ≠ 0) as Hlen
      by (by rewrite len_nil_iff, chars_nil_iff).
    rewrite decide_False by done. simpl. by rewrite decide_False by done.
Qed.

(** C9, as amended: a call with a supplied strain name never builds a
    curated object and never reaches the aligner or BLAST; when a profile
    other than Unknown is found it raises, and the error is the
    unbound-variable error on [identity] whenever the steps before the
    comparison succeed (both reference files are parsed and the sequence
    is not empty). *)
Theorem supplied_strain_raises (w : World) (query : string)
    (strain : option string) (name : string)
    (boundary_file lookup_table profile_dir output_dir : string) :
  supplied strain = Some name →
  let run := Curation_init w query strain boundary_file lookup_table
                           profile_dir output_dir in
  (∀ self, run.2 = Ok self →
           profile self = "Unknown" ∧ mut_flags self = None
           ∧ ambig_flags self = None)
  ∧ (∀ e, e ∈ run.1 → (∀ cmd, e ≠ RunMuscle cmd) ∧ (∀ q, e ≠ RunBlast q))
  ∧ (∀ acc sequence names p,
       get_acc_and_seq w query = Ok (acc, sequence) →
       listdir w profile_dir = Ok names →
       head (filter (λ filename, startswith filename name = true) names)
       = Some p →
       p ≠ "Unknown" →
       (∃ e, run.2 = Raise e)
       ∧ (∀ boundary_df lookup_df,
            parse_boundary_file (readlines w) name boundary_file
            = Ok boundary_df →
            parse_lookup_table (readlines w) p lookup_table = Ok lookup_df →
            strip sequence ≠ "" →
            run = ([ReadQuery query; ListDir profile_dir;
                    OpenFile boundary_file; OpenFile lookup_table],
                   Raise (UnboundLocalError "identity")))).
Proof.
  intros Hs run. subst run. unfold Curation_init. rewrite Hs.
  split; [|split].
  - intros self.
    destruct (get_acc_and_seq w query) as [[acc sequence]|e]; [|done].
    simpl.
    destruct (listdir w profile_dir) as [names|e]; simpl; [|done].
    destruct (py_index _ 0) as [p|e]; simpl; [|done].
    case_decide; simpl; [by intros [= <-]|].
    destruct (parse_boundary_file _ _ _); simpl; [|done].
    destruct (parse_lookup_table _ _ _); simpl; [|done].
    rewrite ambiguity_screen_unbound. done.
  - intros e.
    destruct (get_acc_and_seq w query) as [[acc sequence]|e']; simpl.
    2:{ intros ->%list_elem_of_singleton. done. }
    assert (∀ l : list event,
              e ∈ l → Forall (λ e, (∀ cmd, e ≠ RunMuscle cmd)
                                   ∧ (∀ q, e ≠ RunBlast q)) l →
              (∀ cmd, e ≠ RunMuscle cmd) ∧ (∀ q, e ≠ RunBlast q)) as Hall.
    { intros l Hin Hl. rewrite Forall_forall in Hl. by apply Hl. }
    destruct (listdir w profile_dir) as [names|e']; simpl.
    2:{ intros Hin. apply (Hall _ Hin). by repeat constructor. }
    destruct (py_index _ 0) as [p|e']; simpl.
    2:{ intros Hin. apply (Hall _ Hin). by repeat constructor. }
    case_decide; simpl.
    { intros Hin. apply (Hall _ Hin). by repeat constructor. }
    destruct (parse_boundary_file _ _ _); simpl.
    2:{ intros Hin. apply (Hall _ Hin). by repeat constructor. }
    destruct (parse_lookup_table _ _ _); simpl.
    2:{ intros Hin. apply (Hall _ Hin). by repeat constructor. }
    rewrite ambiguity_screen_unbound. simpl.
    intros Hin. apply (Hall _ Hin). by repeat constructor.
  - intros acc sequence names p Hq Hl Hp Hne.
    rewrite Hq. simpl. rewrite Hl. simpl.
    rewrite (py_index_head_Some _ _ Hp). simpl.
    rewrite decide_False by done. simpl. split.
    + destruct (parse_boundary_file _ _ _); simpl; [|by eexists].
      destruct (parse_lookup_table _ _ _); simpl; [|by eexists].
      rewrite ambiguity_screen_unbound. simpl. by eexists.
    + intros boundary_df lookup_df -> -> Hseq. simpl.
      rewrite ambiguity_screen_unbound, decide_False by done. done.
Qed.

Lemma supplied_strain_raises_witness :
  supplied (Some "A_4_H1") = Some "A_4_H1"
  ∧ Curation_init strain_world "query.fasta" (Some "A_4_H1") "boundaries.txt"
                  "lookup.txt" "profiles" "outputs"
    = ([ReadQuery "query.fasta"; ListDir "profiles";
        OpenFile "boundaries.txt"; OpenFile "lookup.txt"],
       Raise (UnboundLocalError "identity")).
Proof.
  split; [reflexivity|].
  eapply (supplied_strain_raises strain_world "query.fasta" (Some "A_4_H1")
            "A_4_H1" "boundaries.txt" "lookup.txt" "profiles" "outputs");
    try reflexivity; by vm_compute.
Defined.

(** The error of the supplied-strain path need not be the unbound
    variable: the profile of B_1 is found, the boundary file has no line
    for B_1, and the constructor fails in [parse_boundary_file]. *)
Lemma supplied_strain_other_error :
  supplied (Some "B_1") = Some "B_1"
  ∧ (∃ names,
       listdir strain_world "profiles" = Ok names
       ∧ head (filter (λ filename, startswith filename "B_1" = true) names)
         = Some "B_1_profile.fasta")
  ∧ Curation_init strain_world "query.fasta" (Some "B_1") "boundaries.txt"
                  "lookup.txt" "profiles" "outputs"
    = ([ReadQuery "query.fasta"; ListDir "profiles";
        OpenFile "boundaries.txt"],
       Raise (KeyError "START")).
Proof.
  split; [reflexivity|]. split.
  - eexists. split; [reflexivity|]. by vm_compute.
  - by vm_compute.
Qed.

(** * Further properties of the code *)

(** ** The constructor of [InDelSubs] on short alignments *)

(** X1: [InDelSubs.__init__] needs a query row and at least one profile
    row: on an alignment file with no record or with one record it raises
    an [IndexError] ([sequences[-1]] on the empty list, [profile_seqs[0]]
    on the empty profile), and on every longer one it builds the object
    with the last record as the query. *)
Theorem InDelSubs_init_short (sequences : list string) :
  (length sequences < 2)%nat ↔ InDelSubs_init sequences = Raise IndexError.
Proof.
  split.
  - intros Hlen. destruct sequences as [|s [|s' l]]; [done|done|].
    simpl in Hlen. lia.
  - intros Hraise. destruct sequences as [|s0 l0] using rev_ind; [simpl; lia|].
    destruct l0 as [|first_seq rest]; [simpl; lia|].
    destruct (InDelSubs_init_total first_seq rest s0) as [self Hself].
    rewrite Hself in Hraise. done.
Qed.

(** ** The runs are the maximal intervals of the column set *)

Lemma concat_fmap_snd {A B : Type} (gs : list (list (A * B))) :
  concat ((λ g : list (A * B), snd <$> g) <$> gs)
  = (snd <$> concat gs : list B).
Proof.
  induction gs as [|g gs IH]; [done|].
  rewrite fmap_cons. simpl. by rewrite fmap_app, IH.
Qed.

Lemma consecutive_groups_concat (a : list Z) :
  concat (consecutive_groups a) = a.
Proof.
  unfold consecutive_groups, enumerate.
  rewrite <- (snd_enumerate_from 0 a) at 2.
  rewrite <- (groupby_concat (λ ix : Z * Z, ix.1 - ix.2) (enumerate_from 0 a))
    at 2.
  rewrite <- concat_fmap_snd, <- list_fmap_compose. done.
Qed.

Lemma groupby_Sorted {A K : Type} `{EqDecision K} (key : A → K) (l : list A) :
  Sorted (λ a b : K * list A, a.1 ≠ b.1) (groupby key l).
Proof.
  induction l as [|x l IH]; simpl; [constructor|].
  destruct (groupby key l) as [|[k g] rest].
  - repeat constructor.
  - apply Sorted_inv in IH as [Hrest Hhd]. case_decide.
    + constructor; [done|]. destruct Hhd; constructor. done.
    + constructor; [by constructor|]. by constructor.
Qed.

Lemma Sorted_adjacent {A : Type} (R : A → A → Prop) (l1 l2 : list A) (x y : A) :
  Sorted R (l1 ++ x :: y :: l2) → R x y.
Proof.
  induction l1 as [|z l1 IH]; simpl.
  - intros [_ Hhd]%Sorted_inv. by apply HdRel_inv in Hhd.
  - intros [Hs _]%Sorted_inv. by apply IH.
Qed.

Lemma enumerate_from_split {A : Type} (n : Z) (a : list A)
    (l1 l2 : list (Z * A)) :
  enumerate_from n a = l1 ++ l2 →
  ∃ a1 a2, a = a1 ++ a2 ∧ l1 = enumerate_from n a1
           ∧ l2 = enumerate_from (n + len a1) a2.
Proof.
  intros Heq.
  assert (a = (snd <$> l1) ++ (snd <$> l2)) as Ha.
  { by rewrite <- fmap_app, <- Heq, snd_enumerate_from. }
  exists (snd <$> l1), (snd <$> l2). split; [done|].
  rewrite Ha, enumerate_from_app in Heq.
  apply app_inj_1 in Heq as [H1 H2]; [done|].
  by rewrite length_enumerate_from, length_fmap.
Qed.

Lemma StronglySorted_lt_np_sort (l : list Z) :
  NoDup l → StronglySorted Z.lt (np_sort l).
Proof.
  intros Hnd. apply NoDup_np_sort in Hnd. unfold np_sort in *.
  pose proof (StronglySorted_merge_sort Z.le l) as Hs.
  revert Hnd Hs. generalize (merge_sort Z.le l). clear l.
  intros l Hnd Hs. induction Hs as [|x k Hk IH Hall]; [constructor|].
  apply NoDup_cons in Hnd as [Hx Hnd]. constructor; [by apply IH|].
  rewrite Forall_forall in *. intros y Hy. specialize (Hall y Hy).
  assert (x ≠ y) by (intros ->; done). lia.
Qed.

(** Two neighbouring groups of a strictly increasing array are separated
    by at least one integer that is not in the array. *)
Lemma consecutive_groups_gap (a : list Z) (gs1 : list (list Z))
    (g1 g2 : list Z) (gs2 : list (list Z)) (x y : Z) :
  StronglySorted Z.lt a →
  consecutive_groups a = gs1 ++ g1 :: g2 :: gs2 →
  last g1 = Some x → head g2 = Some y → x + 1 < y.
Proof.
  intros Hsorted Hgs Hx Hy. unfold consecutive_groups, enumerate in Hgs.
  set (key := λ ix : Z * Z, ix.1 - ix.2) in *.
  apply fmap_app_inv in Hgs as (G1 & G' & -> & HG' & HG).
  symmetry in HG'. apply fmap_cons_inv in HG' as (kg1 & G'' & -> & HG'' & ->).
  symmetry in HG''. apply fmap_cons_inv in HG'' as (kg2 & G2 & -> & -> & ->).
  pose proof (groupby_Sorted key (enumerate_from 0 a)) as Hadj.
  rewrite HG in Hadj. apply Sorted_adjacent in Hadj.
  pose proof (groupby_keys key (enumerate_from 0 a)) as Hkeys.
  rewrite HG, Forall_app, !Forall_cons in Hkeys.
  destruct Hkeys as (_ & [_ Hk1] & [_ Hk2] & _).
  pose proof (groupby_concat key (enumerate_from 0 a)) as Hcat.
  rewrite HG, fmap_app, concat_app in Hcat. simpl in Hcat.
  symmetry in Hcat.
  apply enumerate_from_split in Hcat as (a1 & a' & -> & _ & Hcat).
  rewrite app_assoc in Hcat. symmetry in Hcat.
  apply enumerate_from_split in Hcat as (b & a2 & -> & Hcat & _).
  symmetry in Hcat.
  apply enumerate_from_split in Hcat as (b1 & b2 & -> & E1 & E2).
  rewrite E1, snd_enumerate_from in Hx. rewrite E2, snd_enumerate_from in Hy.
  destruct b1 as [|x' b1'] using rev_ind; [done|]. clear IHb1'.
  rewrite last_snoc in Hx. injection Hx as ->.
  destruct b2 as [|y' b2']; [done|]. injection Hy as ->.
  rewrite E1, enumerate_from_app, Forall_app in Hk1.
  destruct Hk1 as [_ Hk1]. simpl in Hk1. apply Forall_cons in Hk1 as [Hk1 _].
  rewrite E2 in Hk2. simpl in Hk2. apply Forall_cons in Hk2 as [Hk2 _].
  unfold key in *. simpl in *. unfold len in *. rewrite length_app in *.
  simpl in *.
  assert (x < y) as Hlt.
  { apply StronglySorted_app_1_r in Hsorted.
    rewrite <- !app_assoc in Hsorted.
    apply StronglySorted_app_1_r in Hsorted. simpl in Hsorted.
    apply StronglySorted_inv in Hsorted as [_ Hall].
    rewrite Forall_forall in Hall. apply Hall. left. }
  lia.
Qed.

(** The integers next to a group of a strictly increasing array are not
    in the array. *)
Lemma consecutive_groups_maximal (a g : list Z) (c0 n : Z) :
  StronglySorted Z.lt a → g ∈ consecutive_groups a →
  g = seqZ c0 n → 0 < n →
  ((c0 - 1) ∉ a) ∧ ((c0 + n) ∉ a).
Proof.
  intros Hsorted Hg Hseq Hn.
  assert (c0 ∈ g) as Hc0 by (rewrite Hseq, elem_of_seqZ; lia).
  assert (last g = Some (c0 + n - 1)) as Hlast
    by (rewrite Hseq; by apply last_seqZ).
  assert (head g = Some c0) as Hhead by (rewrite Hseq; by apply head_seqZ).
  destruct (list_elem_of_split _ _ Hg) as (gs1 & gs2 & Hgs).
  pose proof (consecutive_groups_concat a) as Hcat.
  rewrite Hgs, concat_app in Hcat. simpl in Hcat.
  assert (∀ g', g' ∈ consecutive_groups a → g' ≠ []) as Hne.
  { intros g' Hg'. by apply consecutive_groups_spec in Hg' as [? _]. }
  split; intros Hin; rewrite <- Hcat, !elem_of_app in Hin;
    destruct Hin as [Hin|[Hin|Hin]].
  - (* before the run: the last element of the group before it *)
    destruct gs1 as [|g0 gs1' _] using rev_ind; [by apply elem_of_nil in Hin|].
    assert (g0 ≠ []) as Hg0.
    { apply Hne. rewrite Hgs, !elem_of_app. left. right. left. }
    destruct g0 as [|x g0' _] using rev_ind; [done|].
    rewrite <- app_assoc in Hgs. simpl in Hgs.
    pose proof (consecutive_groups_gap a gs1' (g0' ++ [x]) g gs2 x c0
                  Hsorted Hgs (last_snoc _ _) Hhead) as Hgap.
    rewrite concat_app in Hin. simpl in Hin.
    rewrite app_nil_r, app_assoc in Hin. rewrite <- Hcat in Hsorted.
    rewrite concat_app in Hsorted. simpl in Hsorted.
    rewrite app_nil_r, (app_assoc (concat gs1')) in Hsorted.
    apply StronglySorted_app_1_l in Hsorted.
    apply elem_of_app in Hin as [Hin|Hin%list_elem_of_singleton]; [|lia].
    pose proof (StronglySorted_app_1_elem_of _ _ _ _ _ Hsorted Hin
                  (list_elem_of_here x [])). lia.
  - rewrite Hseq, elem_of_seqZ in Hin. lia.
  - rewrite <- Hcat in Hsorted. apply StronglySorted_app_1_r in Hsorted.
    pose proof (StronglySorted_app_1_elem_of _ _ _ _ _ Hsorted Hc0 Hin). lia.
  - rewrite <- Hcat in Hsorted.
    pose proof (StronglySorted_app_1_elem_of _ _ _ _ _ Hsorted Hin
                  (proj2 (elem_of_app _ _ _) (or_introl Hc0))). lia.
  - rewrite Hseq, elem_of_seqZ in Hin. lia.
  - (* after the run: the first element of the group after it *)
    destruct gs2 as [|g2 gs2']; [by apply elem_of_nil in Hin|].
    assert (g2 ≠ []) as Hg2.
    { apply Hne. rewrite Hgs, elem_of_app. right. right. left. }
    destruct g2 as [|y g2']; [done|].
    pose proof (consecutive_groups_gap a gs1 g (y :: g2') gs2' _ y
                  Hsorted Hgs Hlast eq_refl) as Hgap.
    simpl in Hin. apply elem_of_cons in Hin as [Heq|Hin]; [lia|].
    rewrite <- Hcat in Hsorted. do 2 apply StronglySorted_app_1_r in Hsorted.
    simpl in Hsorted. apply StronglySorted_inv in Hsorted as [_ Hall].
    rewrite Forall_forall in Hall. specialize (Hall _ Hin). lia.
Qed.

(** The two arrays that are grouped, and their order. *)
Lemma runs_partition_aux (sequences : list string) (self : InDelSubs) :
  InDelSubs_init sequences = Ok self →
  del_groups self
  = consecutive_groups (np_sort (elements (nkdp self ∖ nkadp self)))
  ∧ StronglySorted Z.lt (np_sort (elements (nkdp self ∖ nkadp self)))
  ∧ ins_groups self = consecutive_groups (nkip self)
  ∧ StronglySorted Z.lt (nkip self).
Proof.
  intros Hinit.
  destruct (InDelSubs_init_inv _ _ Hinit)
    as (f & r & _ & _ & _ & Hi & _ & Hd & Hg).
  split; [done|]. split; [apply StronglySorted_lt_np_sort, NoDup_elements|].
  split; [done|]. cbv zeta in Hi. rewrite Hi.
  apply StronglySorted_lt_np_sort, NoDup_elements.
Qed.

(** X2: the deletion runs, put end to end, are the columns of D \ A in
    increasing order, each column once; the insertion runs, put end to
    end, are the array [nkip]; every run is a non-empty interval of
    consecutive columns. *)
Theorem runs_partition (sequences : list string) (self : InDelSubs) :
  InDelSubs_init sequences = Ok self →
  concat (del_groups self) = np_sort (elements (nkdp self ∖ nkadp self))
  ∧ StronglySorted Z.lt (concat (del_groups self))
  ∧ (∀ c, c ∈ concat (del_groups self) ↔ c ∈ nkdp self ∧ c ∉ nkadp self)
  ∧ concat (ins_groups self) = nkip self
  ∧ StronglySorted Z.lt (nkip self)
  ∧ Forall (λ g, 0 < len g ∧ ∃ c0, g = seqZ c0 (len g))
           (del_groups self ++ ins_groups self).
Proof.
  intros Hinit.
  destruct (InDelSubs_init_inv _ _ Hinit)
    as (f & r & _ & _ & _ & Hi & _ & Hd & Hg).
  rewrite Hd, Hg, !consecutive_groups_concat.
  split; [done|]. split; [apply StronglySorted_lt_np_sort, NoDup_elements|].
  split; [|split; [done|split]].
  - intros c. by rewrite elem_of_np_sort, elem_of_elements, elem_of_difference.
  - cbv zeta in Hi. rewrite Hi.
    apply StronglySorted_lt_np_sort, NoDup_elements.
  - rewrite <- Hd, <- Hg. apply Forall_app. split; apply Forall_forall.
    + intros g (? & ? & _)%(del_group_cols _ _ Hinit). done.
    + intros g (? & ? & _)%(ins_group_cols _ _ Hinit). done.
Qed.

Lemma runs_partition_witness :
  ∃ self,
    InDelSubs_init example_alignment = Ok self
    ∧ concat (del_groups self) = [5; 6; 7; 21]
    ∧ concat (ins_groups self) = nkip self.
Proof.
  eexists. split; [vm_compute; reflexivity|].
  destruct (runs_partition example_alignment _ eq_refl)
    as (Hdel & _ & _ & Hins & _).
  split; [by vm_compute|exact Hins].
Defined.

(** X3: the runs are maximal: the column before the first column of a
    deletion run and the column after its last column are not deletion
    columns of D \ A, and the columns next to an insertion run are not
    insertion columns. *)
Theorem runs_maximal (sequences : list string) (self : InDelSubs)
    (g : list Z) (c0 n : Z) :
  InDelSubs_init sequences = Ok self →
  g = seqZ c0 n → 0 < n →
  (g ∈ del_groups self →
   ¬ ((c0 - 1) ∈ nkdp self ∧ (c0 - 1) ∉ nkadp self)
   ∧ ¬ ((c0 + n) ∈ nkdp self ∧ (c0 + n) ∉ nkadp self))
  ∧ (g ∈ ins_groups self →
     ((c0 - 1) ∉ nkip self) ∧ ((c0 + n) ∉ nkip self)).
Proof.
  intros Hinit Hseq Hn.
  destruct (runs_partition_aux sequences self Hinit) as (Hd & Hsd & Hi & Hsi).
  split; intros Hg.
  - rewrite Hd in Hg.
    destruct (consecutive_groups_maximal _ _ _ _ Hsd Hg Hseq Hn) as [H1 H2].
    rewrite elem_of_np_sort, elem_of_elements, elem_of_difference in H1, H2.
    done.
  - rewrite Hi in Hg.
    by destruct (consecutive_groups_maximal _ _ _ _ Hsi Hg Hseq Hn).
Qed.

Lemma runs_maximal_witness :
  ∃ self,
    InDelSubs_init example_alignment = Ok self
    ∧ [5; 6; 7] = seqZ 5 3 ∧ 0 < 3
    ∧ ([5; 6; 7] ∈ del_groups self →
       ¬ ((5 - 1) ∈ nkdp self ∧ (5 - 1) ∉ nkadp self)
       ∧ ¬ ((5 + 3) ∈ nkdp self ∧ (5 + 3) ∉ nkadp self))
    ∧ ([5; 6; 7] ∈ ins_groups self →
       ((5 - 1) ∉ nkip self) ∧ ((5 + 3) ∉ nkip self)).
Proof.
  eexists. split; [vm_compute; reflexivity|]. split; [reflexivity|].
  split; [lia|].
  apply (runs_maximal example_alignment); [by vm_compute|reflexivity|lia].
Defined.

(** ** What the terminal test means *)

Lemma len_filter_complement (l : list Z) (p : Z) :
  len l = len (filter (λ j, j ≤ p) l) + len (filter (λ j, p < j) l).
Proof.
  induction l as [|x l IH]; [done|]. rewrite !filter_cons, len_cons.
  destruct (decide (x ≤ p)), (decide (p < x)); rewrite ?len_cons; lia.
Qed.

(** A duplicate-free list of integers of an interval fills the interval
    exactly when it is as long as the interval. *)
Lemma len_NoDup_interval_full (l : list Z) (p p' : Z) :
  p ≤ p' → NoDup l → (∀ x, x ∈ l → p < x ≤ p') →
  (len l = p' - p ↔ ∀ x, p < x ≤ p' → x ∈ l).
Proof.
  intros Hp Hnd Hin.
  assert (l ⊆+ seqZ (p + 1) (p' - p)) as Hsub.
  { apply NoDup_submseteq; [done|]. intros x Hx. apply elem_of_seqZ.
    specialize (Hin x Hx). lia. }
  split.
  - intros Hlen x Hx.
    assert (l ≡ₚ seqZ (p + 1) (p' - p)) as Hperm.
    { apply submseteq_length_Permutation; [done|].
      rewrite length_seqZ. unfold len in Hlen. lia. }
    rewrite Hperm, elem_of_seqZ. lia.
  - intros Hall.
    assert (seqZ (p + 1) (p' - p) ⊆+ l) as Hsup.
    { apply NoDup_submseteq; [apply NoDup_seqZ|].
      intros x Hx%elem_of_seqZ. apply Hall. lia. }
    apply submseteq_length in Hsub, Hsup. rewrite length_seqZ in *.
    unfold len. lia.
Qed.

(** X4: the query position that a deletion run follows lies between 0 and
    L - |D|, the length of the query without its gaps; it is 0 exactly
    when every column before the run is a gap of the query, and it is
    L - |D| exactly when every column from the run to the end is a gap of
    the query. So the terminal test suppresses the runs that have no query
    base before them or none after them. *)
Theorem terminal_test_meaning (sequences : list string) (self : InDelSubs)
    (pos : list Z) (c0 : Z) :
  InDelSubs_init sequences = Ok self →
  pos ∈ del_groups self → head pos = Some c0 →
  let q0 := col_to_qry (nkdp self) c0 in
  let L := len (chars (query_seq self)) in
  0 ≤ q0 ≤ L - Z.of_nat (size (nkdp self))
  ∧ (q0 = 0 ↔ ∀ c, 0 ≤ c < c0 → c ∈ nkdp self)
  ∧ (q0 = L - Z.of_nat (size (nkdp self)) ↔ ∀ c, c0 ≤ c < L → c ∈ nkdp self).
Proof.
  intros Hinit Hpos Hc0 q0 L. subst q0.
  destruct (del_run_shape _ _ Hinit _ Hpos)
    as (c0' & n & Hn & _ & Hseq & Hrun & _).
  assert (c0' = c0) as ->.
  { rewrite Hseq, head_seqZ in Hc0 by done. by injection Hc0. }
  assert (c0 ∈ nkdp self) as HcD by (apply Hrun; lia).
  assert (∀ c, c ∈ nkdp self → 0 ≤ c < L) as Hrange.
  { intros c [? Hc]%(elem_of_nkdp _ _ Hinit).
    apply lookup_lt_Some in Hc. unfold L, len. lia. }
  pose proof (Hrange _ HcD) as Hc0L.
  set (S := elements (nkdp self)).
  pose proof (NoDup_elements (nkdp self)) as HS. fold S in HS.
  assert (Z.of_nat (size (nkdp self)) = len S) as -> by done.
  pose proof (len_filter_complement S c0) as Hsplit.
  assert (∀ x, x ∈ filter (λ j, j ≤ c0) S → -1 < x ≤ c0) as Hlow.
  { intros x [? Hx%elem_of_elements%Hrange]%list_elem_of_filter. lia. }
  assert (∀ x, x ∈ filter (λ j, c0 < j) S → c0 < x ≤ L - 1) as Hhigh.
  { intros x [? Hx%elem_of_elements%Hrange]%list_elem_of_filter. lia. }
  pose proof (len_NoDup_interval _ (-1) c0 ltac:(lia)
                (NoDup_filter _ _ HS) Hlow) as Hle1.
  pose proof (len_NoDup_interval _ c0 (L - 1) ltac:(lia)
                (NoDup_filter _ _ HS) Hhigh) as Hle2.
  pose proof (len_NoDup_interval_full _ (-1) c0 ltac:(lia)
                (NoDup_filter _ _ HS) Hlow) as Hfull1.
  pose proof (len_NoDup_interval_full _ c0 (L - 1) ltac:(lia)
                (NoDup_filter _ _ HS) Hhigh) as Hfull2.
  unfold col_to_qry. fold S. split; [lia|]. split.
  - split.
    + intros Hq c Hc. assert (len (filter (λ j, j ≤ c0) S) = c0 - -1) as Hf
        by lia.
      pose proof (proj1 Hfull1 Hf c ltac:(lia)) as Hf'. clear Hf.
      rename Hf' into Hf.
      apply list_elem_of_filter in Hf as [_ Hf]. by apply elem_of_elements.
    + intros Hall.
      assert (len (filter (λ j, j ≤ c0) S) = c0 - -1) as Hf; [|lia].
      apply Hfull1. intros x Hx. apply list_elem_of_filter.
      split; [lia|]. apply elem_of_elements.
      destruct (decide (x = c0)) as [->|]; [done|]. apply Hall. lia.
  - split.
    + intros Hq c Hc. destruct (decide (c = c0)) as [->|]; [done|].
      assert (len (filter (λ j, c0 < j) S) = L - 1 - c0) as Hf by lia.
      pose proof (proj1 Hfull2 Hf c ltac:(lia)) as Hf'. clear Hf.
      rename Hf' into Hf.
      apply list_elem_of_filter in Hf as [_ Hf]. by apply elem_of_elements.
    + intros Hall.
      assert (len (filter (λ j, c0 < j) S) = L - 1 - c0) as Hf; [|lia].
      apply Hfull2. intros x Hx. apply list_elem_of_filter.
      split; [lia|]. apply elem_of_elements. apply Hall. lia.
Qed.

Lemma terminal_test_meaning_witness :
  ∃ self,
    InDelSubs_init example_alignment = Ok self
    ∧ [21] ∈ del_groups self ∧ head [21] = Some 21
    ∧ 0 ≤ col_to_qry (nkdp self) 21
        ≤ len (chars (query_seq self)) - Z.of_nat (size (nkdp self))
    ∧ (col_to_qry (nkdp self) 21 = 0 ↔ ∀ c, 0 ≤ c < 21 → c ∈ nkdp self)
    ∧ (col_to_qry (nkdp self) 21
       = len (chars (query_seq self)) - Z.of_nat (size (nkdp self))
       ↔ ∀ c, 21 ≤ c < len (chars (query_seq self)) → c ∈ nkdp self).
Proof.
  eexists. split; [vm_compute; reflexivity|]. split; [right; left|].
  split; [reflexivity|].
  apply (terminal_test_meaning example_alignment _ [21] 21);
    [by vm_compute|right; left|reflexivity].
Defined.

(** ** The whitelist *)

Lemma fewer_flags_refl {B : Type} (r : result (list B)) : fewer_flags r r.
Proof. destruct r; simpl; [reflexivity|done]. Qed.

Lemma fewer_flags_bind {A B : Type} (m : result A)
    (f g : A → result (list B)) :
  (∀ a, m = Ok a → fewer_flags (f a) (g a)) →
  fewer_flags (bind m f) (bind m g).
Proof. destruct m; simpl; [auto|done]. Qed.

Lemma for_each_fewer_flags {A B : Type} (f g : A → result (list B))
    (l : list A) :
  (∀ x, x ∈ l → fewer_flags (f x) (g x)) →
  fewer_flags (for_each f l) (for_each g l).
Proof.
  induction l as [|x l IH]; intros H; [apply fewer_flags_refl|].
  assert (fewer_flags (f x) (g x)) as Hx by (apply (H x); left).
  assert (fewer_flags (for_each f l) (for_each g l)) as IH'.
  { apply IH. intros y Hy. apply (H y). by right. }
  clear IH H.
  simpl. unfold fewer_flags in *.
  destruct (f x), (g x); simpl in *; try done.
  destruct (for_each f l), (for_each g l); simpl in *; try done.
  by apply sublist_app.
Qed.

Lemma check_lookup_app (lookup_df extra : list lookup_row) (kind : string)
    (p0 pl : Z) :
  check_lookup (lookup_df ++ extra) kind p0 pl = "FAIL" →
  check_lookup lookup_df kind p0 pl = "FAIL".
Proof.
  intros Hfail.
  destruct (check_lookup_cases lookup_df kind p0 pl) as [Hpass|]; [|done].
  apply check_lookup_PASS in Hpass as (row & Hrow & Hrest).
  assert (check_lookup (lookup_df ++ extra) kind p0 pl = "PASS") as Hp.
  { apply check_lookup_PASS. exists row. split; [|done].
    apply elem_of_app. by left. }
  congruence.
Qed.

Lemma deletion_emit_fewer_flags (lookup_df extra : list lookup_row)
    (pos : list Z) (region : string) (region_dels_p region_dels_q : list Z) :
  fewer_flags
    (deletion_emit lookup_df pos region region_dels_p region_dels_q)
    (deletion_emit (lookup_df ++ extra) pos region region_dels_p
                   region_dels_q).
Proof.
  unfold deletion_emit.
  apply fewer_flags_bind; intros profile_pos _.
  apply fewer_flags_bind; intros q0 _. cbv zeta.
  assert (∀ (kind : string) (cand : flag),
    fewer_flags
      (let* p0 := py_index region_dels_p 0 in
       let* pl := py_index region_dels_p (len region_dels_p - 1) in
       if decide (check_lookup lookup_df kind p0 pl = "FAIL")
       then Ok [cand] else Ok [])
      (let* p0 := py_index region_dels_p 0 in
       let* pl := py_index region_dels_p (len region_dels_p - 1) in
       if decide (check_lookup (lookup_df ++ extra) kind p0 pl = "FAIL")
       then Ok [cand] else Ok [])) as Hchecked.
  { intros kind cand.
    apply fewer_flags_bind; intros p0 _.
    apply fewer_flags_bind; intros pl _.
    destruct (decide (check_lookup (lookup_df ++ extra) kind p0 pl = "FAIL"))
      as [Hfail|].
    - rewrite decide_True by by eapply check_lookup_app.
      apply fewer_flags_refl.
    - case_decide; simpl; [apply sublist_nil_l|reflexivity]. }
  repeat case_decide; try apply fewer_flags_refl; apply Hchecked.
Qed.

(** X5: rows added to the whitelist only remove deletion flags: with the
    longer whitelist [deletion_flags] raises the same exception, or returns
    a sub-list of the flags it returned before, in the same order. *)
Theorem whitelist_monotone (self : InDelSubs)
    (lookup_df extra : list lookup_row) (boundary_df : list boundary_row) :
  fewer_flags (deletion_flags self lookup_df boundary_df)
              (deletion_flags self (lookup_df ++ extra) boundary_df).
Proof.
  unfold deletion_flags. apply for_each_fewer_flags. intros pos _.
  unfold deletion_group_flags. apply fewer_flags_bind. intros regs _.
  apply for_each_fewer_flags. intros reg _.
  unfold deletion_region_flags. apply fewer_flags_bind. intros q0 _.
  case_decide; [apply fewer_flags_refl|]. apply deletion_emit_fewer_flags.
Qed.

Lemma check_lookup_default (kind : string) (p0 pl : Z) :
  kind ≠ "XXX" →
  check_lookup [ {| lk_Flag := "XXX"; lk_Start := -1; lk_End := -1 |} ] kind p0 pl
  = check_lookup [] kind p0 pl.
Proof.
  intros Hk. unfold check_lookup. cbv zeta.
  rewrite filter_cons.
  destruct (decide (lk_Flag _ = kind ∧ _)) as [[H _]|];
    [simpl in H; congruence|done].
Qed.

Lemma for_each_ext {A B : Type} (f g : A → result (list B)) (l : list A) :
  (∀ x, x ∈ l → f x = g x) → for_each f l = for_each g l.
Proof.
  induction l as [|x l IH]; intros H; [done|]. simpl.
  rewrite (H x) by left. rewrite IH; [done|]. intros y Hy. apply H. by right.
Qed.

Lemma bind_ext {A B : Type} (m : result A) (f g : A → result B) :
  (∀ a, f a = g a) → bind m f = bind m g.
Proof. intros H. destruct m; simpl; [apply H|done]. Qed.

(** X6: when no line of the lookup file starts with the profile name,
    [parse_lookup_table] returns a table under which [deletion_flags]
    behaves as under the empty whitelist: the placeholder row XXX
    suppresses nothing. *)
Theorem default_lookup_suppresses_nothing
    (readlines : string → result (list string))
    (profile lookup_table : string) (lines : list string) :
  readlines lookup_table = Ok lines →
  Forall (λ line, startswith line profile = false) lines →
  ∃ lookup_df,
    parse_lookup_table readlines profile lookup_table = Ok lookup_df
    ∧ ∀ self boundary_df,
        deletion_flags self lookup_df boundary_df
        = deletion_flags self [] boundary_df.
Proof.
  intros Hread Hnone. rewrite Forall_forall in Hnone.
  unfold parse_lookup_table. rewrite Hread.
  assert (filter (λ line, startswith line profile = true) lines = []) as ->.
  { clear Hread. induction lines as [|line lines IH]; [done|].
    rewrite filter_cons. rewrite decide_False.
    - apply IH. intros l Hl. apply Hnone. by right.
    - rewrite (Hnone line) by left. done. }
  simpl. eexists. split; [reflexivity|]. intros self boundary_df.
  unfold deletion_flags. apply for_each_ext. intros pos _.
  unfold deletion_group_flags. apply bind_ext. intros regs.
  apply for_each_ext. intros reg _.
  unfold deletion_region_flags. apply bind_ext. intros q0.
  case_decide; [done|]. unfold deletion_emit.
  apply bind_ext. intros profile_pos. apply bind_ext. intros q. cbv zeta.
  repeat case_decide; try done;
    apply bind_ext; intros p0; apply bind_ext; intros pl;
    by rewrite check_lookup_default.
Qed.

Lemma default_lookup_suppresses_nothing_witness :
  ∃ lookup_df,
    parse_lookup_table (λ _, Ok ["B_1_profile.fasta CDS-del 7..8"])
                       "A_4_H1_profile.fasta" "lookup_table.txt"
    = Ok lookup_df
    ∧ ∀ self boundary_df,
        deletion_flags self lookup_df boundary_df
        = deletion_flags self [] boundary_df.
Proof.
  apply (default_lookup_suppresses_nothing
           _ _ _ ["B_1_profile.fasta CDS-del 7..8"]);
    [reflexivity|repeat constructor].
Defined.

(** ** The boundary table *)

(** X7: the table that [parse_boundary_file] builds has the five rows
    CTS5, NCR5, CDS, NCR3, CTS3 in this order; each row starts one position
    after the end of the row before it; every position from the start of
    the first row to the end of the last row lies in some row; and the
    label 4 that [insertion_flags] reads is the end of the last row. *)
Theorem boundary_table_tiles (readlines : string → result (list string))
    (strain boundary_file : string) (boundary_df : list boundary_row) :
  parse_boundary_file readlines strain boundary_file = Ok boundary_df →
  b_Region <$> boundary_df = ["CTS5"; "NCR5"; "CDS"; "NCR3"; "CTS3"]
  ∧ (∀ (i : nat) r r',
       boundary_df !! i = Some r → boundary_df !! S i = Some r' →
       b_Start r' = b_End r + 1)
  ∧ (∃ first_row last_row,
       head boundary_df = Some first_row ∧ last boundary_df = Some last_row
       ∧ (b_End <$> boundary_df) !! 4%nat = Some (b_End last_row)
       ∧ ∀ p, b_Start first_row ≤ p ≤ b_End last_row →
              ∃ r, r ∈ boundary_df ∧ b_Start r ≤ p ≤ b_End r).
Proof.
  unfold parse_boundary_file.
  destruct (readlines boundary_file) as [lines|]; [|done].
  unfold boundary_table. cbv zeta. intros H.
  repeat (apply bind_Ok in H as (? & ? & H)). injection H as <-.
  repeat match goal with
         | H1 : getitem ?m ?k = Ok ?a, H2 : getitem ?m ?k = Ok ?b |- _ =>
           assert (a = b) as -> by congruence; clear H1
         end.
  split; [done|]. split.
  - intros i r r' Hr Hr'.
    do 5 (destruct i as [|i]; [simplify_eq/=; lia|]).
    simplify_eq/=.
  - eexists _, _. split; [reflexivity|]. split; [reflexivity|].
    split; [reflexivity|]. simpl. intros p Hp.
    match goal with
    | |- ∃ r, r ∈ [?r1; ?r2; ?r3; ?r4; ?r5] ∧ _ =>
      destruct (decide (p ≤ b_End r1));
        [exists r1|destruct (decide (p ≤ b_End r2));
          [exists r2|destruct (decide (p ≤ b_End r3));
            [exists r3|destruct (decide (p ≤ b_End r4));
              [exists r4|exists r5]]]]
    end; simpl in *; (split; [repeat constructor|lia]).
Qed.

Lemma boundary_table_tiles_witness :
  ∃ boundary_df,
    parse_boundary_file (λ _, Ok H10_boundary_lines) "A_4_H10" "boundaries.txt"
    = Ok boundary_df
    ∧ b_Region <$> boundary_df = ["CTS5"; "NCR5"; "CDS"; "NCR3"; "CTS3"]
    ∧ (b_End <$> boundary_df) !! 4%nat = Some 120.
Proof.
  eexists. split; [vm_compute; reflexivity|].
  destruct (boundary_table_tiles (λ _, Ok H10_boundary_lines) "A_4_H10"
                                 "boundaries.txt" _ eq_refl)
    as (Hreg & _ & _).
  split; [exact Hreg|reflexivity].
Defined.

(** ** The ambiguity screen *)

(** X8: the numerator of the ambiguity content, the length less the
    counted symbols, is the number of characters of the sequence other
    than a, c, g, t, n in either case; so it lies between 0 and the
    length. *)
Theorem ambiguous_symbol_count (m : MolSeq) :
  get_length m - (count_regular_nucs m + count_indeterminate_nucs m)
  = len (filter (λ c, c ∉ chars "acgtnACGTN") (chars (get_seq m)))
  ∧ 0 ≤ get_length m - (count_regular_nucs m + count_indeterminate_nucs m)
      ≤ get_length m.
Proof.
  assert (get_length m - (count_regular_nucs m + count_indeterminate_nucs m)
          = len (filter (λ c, c ∉ chars "acgtnACGTN") (chars (get_seq m))))
    as Heq.
  { unfold get_length, count_regular_nucs, count_indeterminate_nucs,
      count_char, get_seq. cbv zeta.
    induction (chars (seq m)) as [|x l IH]; [done|].
    rewrite !filter_cons, len_cons.
    destruct (decide (x ∉ chars "acgtnACGTN")) as [Hx|Hx].
    - repeat (rewrite decide_False;
              [|intros ->; apply Hx; unfold chars;
                cbn [String.list_ascii_of_string]; set_solver]).
      rewrite len_cons. lia.
    - set (rest := len (filter (λ c, c ∉ chars "acgtnACGTN") l)) in *.
      apply dec_stable in Hx.
      unfold chars in Hx. cbn [String.list_ascii_of_string] in Hx.
      repeat (apply elem_of_cons in Hx as [Heq|Hx];
              [subst x; simpl; rewrite ?len_cons; lia|]).
      by apply elem_of_nil in Hx. }
  split; [done|]. rewrite Heq. split; [apply len_nonneg|].
  unfold get_length, get_seq, len.
  pose proof (length_filter (λ c, c ∉ chars "acgtnACGTN") (chars (seq m))).
  lia.
Qed.

Lemma Qltb_div (a : Z) (b : positive) (n L : Z) :
  0 < L →
  Qltb (a # b) (inject_Z n / inject_Z L) = true ↔ a * L < n * Z.pos b.
Proof.
  intros HL. unfold Qltb.
  assert ((0 < inject_Z L)%Q) as HLq by (unfold Qlt; simpl; lia).
  assert (((a # b) * inject_Z L < inject_Z n)%Q ↔ a * L < n * Z.pos b) as Hz.
  { unfold Qlt. simpl. lia. }
  destruct (Qlt_le_dec _ _) as [Hlt|Hle].
  - split; [intros _|done].
    destruct (decide (a * L < n * Z.pos b)) as [|Hge]; [done|]. exfalso.
    assert (inject_Z n <= (a # b) * inject_Z L)%Q as Hle
        by (unfold Qle; simpl; lia).
    apply Qle_shift_div_r in Hle; [|done].
    by apply Qle_not_lt in Hle.
  - split; [done|]. intros H%Hz. exfalso.
    apply Qlt_shift_div_l in H; [|done].
    by apply Qle_not_lt in Hle.
Qed.

(** X9: the ambiguity screen raises [ZeroDivisionError] on a sequence that
    is empty once stripped, whatever the identity; on any other sequence
    and a numeric identity it returns a sub-list of Excess-N, Excess-Ambig,
    Excess-Dist in this order, with Excess-N exactly when more than 5 in
    1000 characters are n or N, Excess-Ambig exactly when more than 5 in
    1000 are neither a, c, g, t nor n, and Excess-Dist exactly when the
    identity is below 0.80. *)
Theorem ambiguity_screen_flags (accession sequence : string)
    (identity : option identity_value) (q : Q) :
  let m := MolSeq_init accession sequence in
  (get_length m = 0 →
   ambiguity_screen accession sequence identity = Raise ZeroDivisionError)
  ∧ (get_length m ≠ 0 → identity = Some (IdentityFloat q) →
     ∃ flags,
       ambiguity_screen accession sequence identity = Ok flags
       ∧ sublist flags ["Excess-N"; "Excess-Ambig"; "Excess-Dist"]
       ∧ ("Excess-N" ∈ flags
          ↔ 5 * get_length m < 1000 * count_indeterminate_nucs m)
       ∧ ("Excess-Ambig" ∈ flags
          ↔ 5 * get_length m
            < 1000 * (get_length m - (count_regular_nucs m
                                      + count_indeterminate_nucs m)))
       ∧ ("Excess-Dist" ∈ flags ↔ (q < 80 # 100)%Q)).
Proof.
  intros m. unfold ambiguity_screen. fold m.
  unfold get_n_content, get_ambig_content, truediv. split.
  - intros ->. done.
  - intros HL ->. pose proof (len_nonneg (chars (seq m))) as H0.
    assert (0 < get_length m) as Hpos by (unfold get_length in *; lia).
    rewrite !decide_False by done. simpl.
    pose proof (Qltb_div 5 1000 (count_indeterminate_nucs m) _ Hpos) as HN.
    pose proof (Qltb_div 5 1000
                  (get_length m - (count_regular_nucs m
                                   + count_indeterminate_nucs m)) _ Hpos)
      as HA.
    assert (Qltb q (80 # 100) = true ↔ (q < 80 # 100)%Q) as HD.
    { unfold Qltb. destruct (Qlt_le_dec _ _) as [|Hle]; [done|].
      split; [done|]. intros Hlt. by apply Qle_not_lt in Hle. }
    destruct (Qltb (5 # 1000) (inject_Z (count_indeterminate_nucs m) / _));
      destruct (Qltb (5 # 1000) (inject_Z (get_length m - _) / _));
      destruct (Qltb q (80 # 100)); simpl;
      (eexists; split; [reflexivity|]);
      (split; [repeat first [apply sublist_nil | apply sublist_skip
                             | apply sublist_cons]|]);
      rewrite ?elem_of_cons, ?elem_of_nil;
      intuition (first [discriminate | lia | done]).
Qed.

Lemma ambiguity_screen_flags_witness :
  get_length (MolSeq_init "AB000001" "ACGTNNRYAC") ≠ 0
  ∧ ∃ flags,
      ambiguity_screen "AB000001" "ACGTNNRYAC"
                       (Some (IdentityFloat (75 # 100))) = Ok flags
      ∧ "Excess-Dist" ∈ flags.
Proof.
  split; [by vm_compute|].
  destruct (ambiguity_screen_flags "AB000001" "ACGTNNRYAC"
              (Some (IdentityFloat (75 # 100))) (75 # 100)) as [_ H].
  destruct (H ltac:(by vm_compute) eq_refl)
    as (flags & Hflags & _ & _ & _ & HD).
  exists flags. split; [exact Hflags|]. apply HD. by vm_compute.
Defined.

(** ** The labels of the flags *)

Lemma py_index_Ok_pos {A : Type} (l : list A) (i : Z) (x : A) :
  py_index l i = Ok x → 1 ≤ len l.
Proof.
  intros H%py_index_Ok_elem. destruct l; [by apply elem_of_nil in H|].
  rewrite len_cons. pose proof (len_nonneg l). lia.
Qed.

Lemma deletion_emit_label (lookup_df : list lookup_row) (pos : list Z)
    (region : string) (region_dels_p region_dels_q : list Z)
    (flags : list flag) (f : flag) :
  deletion_emit lookup_df pos region region_dels_p region_dels_q = Ok flags →
  f ∈ flags →
  Flag f ∈ deletion_labels ∧ Variant f = "del" ∧ 1 ≤ Length f.
Proof.
  unfold deletion_emit. cbv zeta. intros H Hf.
  apply bind_Ok in H as (profile_pos & Hp & H).
  assert (1 ≤ len region_dels_p) as Hlen.
  { destruct (decide (len pos > 1));
      apply bind_Ok in Hp as (p0 & Hp0 & _);
      by apply py_index_Ok_pos in Hp0. }
  apply bind_Ok in H as (q0 & _ & H).
  assert (∀ kind,
    kind ∈ deletion_labels →
    (let* p0 := py_index region_dels_p 0 in
     let* pl := py_index region_dels_p (len region_dels_p - 1) in
     if decide (check_lookup lookup_df kind p0 pl = "FAIL")
     then Ok [mk_flag kind profile_pos (str q0 +:+ ".." +:+ str (q0 + 1))
                      "del" (len region_dels_p)]
     else Ok []) = Ok flags →
    Flag f ∈ deletion_labels ∧ Variant f = "del" ∧ 1 ≤ Length f) as Hchecked.
  { intros kind Hk Hc. apply bind_Ok in Hc as (p0 & _ & Hc).
    apply bind_Ok in Hc as (pl & _ & Hc).
    case_decide; injection Hc as <-; [|by apply elem_of_nil in Hf].
    by apply list_elem_of_singleton in Hf as ->. }
  unfold deletion_labels in *.
  repeat case_decide;
    try (eapply Hchecked; [|exact H]; by repeat constructor);
    injection H as <-;
    try (by apply elem_of_nil in Hf);
    apply list_elem_of_singleton in Hf as ->; simpl;
    (split; [by repeat constructor|done]).
Qed.

Lemma deletion_flags_label (self : InDelSubs) (lookup_df : list lookup_row)
    (boundary_df : list boundary_row) (flags : list flag) (f : flag) :
  deletion_flags self lookup_df boundary_df = Ok flags → f ∈ flags →
  Flag f ∈ deletion_labels ∧ Variant f = "del" ∧ 1 ≤ Length f.
Proof.
  intros H Hf.
  destruct (for_each_Ok_elem _ _ _ _ H Hf) as (pos & zs & _ & Hg & Hz).
  unfold deletion_group_flags in Hg.
  apply bind_Ok in Hg as (regs & _ & Hg).
  destruct (for_each_Ok_elem _ _ _ _ Hg Hz) as (reg & zs' & _ & Hr & Hz').
  unfold deletion_region_flags in Hr.
  apply bind_Ok in Hr as (q0 & _ & Hr).
  case_decide; [injection Hr as <-; by apply elem_of_nil in Hz'|].
  by eapply deletion_emit_label.
Qed.

Lemma insertion_flags_label (self : InDelSubs)
    (boundary_df : list boundary_row) (flags : list flag) (f : flag) :
  insertion_flags self boundary_df = Ok flags → f ∈ flags →
  Flag f ∈ insertion_labels ∧ 1 ≤ Length f.
Proof.
  unfold insertion_flags. intros H Hf.
  apply bind_Ok in H as (profile_length & _ & H).
  destruct (for_each_Ok_elem _ _ _ _ H Hf) as (pos & zs & _ & Hg & Hz).
  unfold insertion_group_flags in Hg. cbv zeta in Hg.
  apply bind_Ok in Hg as (c_first & Hc%py_index_Ok_pos & Hg).
  apply bind_Ok in Hg as (c_last & _ & Hg).
  apply bind_Ok in Hg as (query_pos & _ & Hg).
  apply bind_Ok in Hg as (p0 & _ & Hg).
  unfold insertion_labels.
  case_decide; [|case_decide].
  - injection Hg as <-. apply list_elem_of_singleton in Hz as ->.
    simpl. split; [by repeat constructor|done].
  - injection Hg as <-. apply list_elem_of_singleton in Hz as ->.
    simpl. split; [by repeat constructor|done].
  - apply bind_Ok in Hg as (pl & _ & Hg).
    apply bind_Ok in Hg as (region & _ & Hg).
    injection Hg as <-. unfold insertion_emit in Hz. cbv zeta in Hz.
    repeat case_decide;
      try (by apply elem_of_nil in Hz);
      apply list_elem_of_singleton in Hz as ->; simpl;
      (split; [by repeat constructor|done]).
Qed.

Lemma substitution_group_flags_label (self : InDelSubs) (kind : string)
    (pos : list Z) (flags : list flag) (f : flag) :
  substitution_group_flags self kind pos = Ok flags → f ∈ flags →
  Flag f = kind ∧ 1 ≤ Length f.
Proof.
  unfold substitution_group_flags. cbv zeta. intros H Hf.
  apply bind_Ok in H as (c_first & Hc%py_index_Ok_pos & H).
  apply bind_Ok in H as (c_last & _ & H).
  case_decide; [injection H as <-; by apply elem_of_nil in Hf|].
  apply bind_Ok in H as (p0 & _ & H).
  apply bind_Ok in H as (positions & _ & H).
  injection H as <-. by apply list_elem_of_singleton in Hf as ->.
Qed.

Lemma substitution_flags_label (self : InDelSubs)
    (boundary_df : list boundary_row) (flags : list flag) (f : flag) :
  substitution_flags self boundary_df = Ok flags → f ∈ flags →
  Flag f ∈ substitution_labels ∧ 1 ≤ Length f.
Proof.
  unfold substitution_flags. cbv zeta. intros H Hf.
  do 9 (apply bind_Ok in H as (? & _ & H)).
  apply bind_Ok in H as (flags5 & H5 & H).
  apply bind_Ok in H as (flags3 & H3 & H).
  injection H as <-. unfold substitution_labels.
  apply elem_of_app in Hf as [Hf|Hf].
  - destruct (for_each_Ok_elem _ _ _ _ H5 Hf) as (pos & zs & _ & Hg & Hz).
    destruct (substitution_group_flags_label _ _ _ _ _ Hg Hz) as [-> ?].
    split; [by repeat constructor|done].
  - destruct (for_each_Ok_elem _ _ _ _ H3 Hf) as (pos & zs & _ & Hg & Hz).
    destruct (substitution_group_flags_label _ _ _ _ _ Hg Hz) as [-> ?].
    split; [by repeat constructor|done].
Qed.

(** X10: every flag that [deletion_flags] returns carries one of the six
    deletion labels and the variant del; every flag of [insertion_flags]
    one of the eight insertion labels; every flag of [substitution_flags]
    5'CTS-mut or 3'CTS-mut, the 5' flags before the 3' flags; and the
    length of every flag is at least 1. *)
Theorem engine_labels (self : InDelSubs) (lookup_df : list lookup_row)
    (boundary_df : list boundary_row) :
  (∀ flags, deletion_flags self lookup_df boundary_df = Ok flags →
            Forall (λ f, Flag f ∈ deletion_labels ∧ Variant f = "del"
                         ∧ 1 ≤ Length f) flags)
  ∧ (∀ flags, insertion_flags self boundary_df = Ok flags →
              Forall (λ f, Flag f ∈ insertion_labels ∧ 1 ≤ Length f) flags)
  ∧ (∀ flags, substitution_flags self boundary_df = Ok flags →
              Forall (λ f, Flag f ∈ substitution_labels ∧ 1 ≤ Length f) flags
              ∧ ∃ flags5 flags3,
                  flags = flags5 ++ flags3
                  ∧ Forall (λ f, Flag f = "5'CTS-mut") flags5
                  ∧ Forall (λ f, Flag f = "3'CTS-mut") flags3).
Proof.
  split; [|split].
  - intros flags H. apply Forall_forall. intros f Hf.
    by eapply deletion_flags_label.
  - intros flags H. apply Forall_forall. intros f Hf.
    by eapply insertion_flags_label.
  - intros flags H. split.
    + apply Forall_forall. intros f Hf. by eapply substitution_flags_label.
    + unfold substitution_flags in H. cbv zeta in H.
      do 9 (apply bind_Ok in H as (? & _ & H)).
      apply bind_Ok in H as (flags5 & H5 & H).
      apply bind_Ok in H as (flags3 & H3 & H).
      injection H as <-. exists flags5, flags3. split; [done|].
      split; apply Forall_forall; intros f Hf.
      * destruct (for_each_Ok_elem _ _ _ _ H5 Hf) as (pos & zs & _ & Hg & Hz).
        by destruct (substitution_group_flags_label _ _ _ _ _ Hg Hz).
      * destruct (for_each_Ok_elem _ _ _ _ H3 Hf) as (pos & zs & _ & Hg & Hz).
        by destruct (substitution_group_flags_label _ _ _ _ _ Hg Hz).
Qed.

(** ** The constructor, on the path that classifies the query *)

Lemma Curation_init_Ok (w : World) (query : string) (strain : option string)
    (boundary_file lookup_table profile_dir output_dir : string)
    (log : list event) (self : Curation) :
  Curation_init w query strain boundary_file lookup_table profile_dir
                output_dir = (log, Ok self) →
  profile self ≠ "Unknown" →
  ∃ acc sequence records b q boundary_df lookup_df ambig sequences muts
    dels inss subs,
    supplied strain = None
    ∧ get_acc_and_seq w query = Ok (acc, sequence)
    ∧ blast_records w query = Ok records ∧ Blast_init records = Ok b
    ∧ blast_identity b = IdentityFloat q
    ∧ parse_boundary_file (readlines w) (get_strain b) boundary_file
      = Ok boundary_df
    ∧ parse_lookup_table (readlines w) (blast_profile b) lookup_table
      = Ok lookup_df
    ∧ ambiguity_screen acc sequence (Some (blast_identity b)) = Ok ambig
    ∧ muscle w (muscle_command profile_dir (blast_profile b) query)
      = Ok sequences
    ∧ InDelSubs_init sequences = Ok muts
    ∧ deletion_flags muts lookup_df boundary_df = Ok dels
    ∧ insertion_flags muts boundary_df = Ok inss
    ∧ substitution_flags muts boundary_df = Ok subs
    ∧ self = {| profile := blast_profile b; identity := blast_identity b;
                strain_name := get_strain b; accession := acc;
                mut_flags := Some (dels ++ inss ++ subs);
                del_flags := Some dels; ins_flags := Some inss;
                sub_flags := Some subs; ambig_flags := Some ambig |}
    ∧ log = [ReadQuery query; RunBlast query; OpenFile boundary_file;
             OpenFile lookup_table;
             RunMuscle (muscle_command profile_dir (blast_profile b) query);
             ReadAlignment (profile_dir +:+ "/precomputed_alignment.fasta")]
            ++ (if decide (inss = [])
                then [SaveAlignment (output_dir +:+ "/" +:+ acc
                                                +:+ "_aligned.fasta")]
                else []).
Proof.
  unfold Curation_init, perform, pure, io_bind, muscle_command.
  destruct (get_acc_and_seq w query) as [[acc sequence]|e]; [|done].
  simpl. destruct (supplied strain) as [name|] eqn:Hs.
  - destruct (listdir w profile_dir) as [names|e]; simpl; [|done].
    destruct (py_index _ 0) as [p|e]; simpl; [|done].
    case_decide; simpl; [by intros [= <- <-]|].
    destruct (parse_boundary_file _ _ _); simpl; [|done].
    destruct (parse_lookup_table _ _ _); simpl; [|done].
    rewrite ambiguity_screen_unbound. done.
  - destruct (blast_records w query) as [records|e]; simpl; [|done].
    destruct (Blast_init records) as [b|e] eqn:Hb; simpl; [|done].
    case_decide; simpl; [by intros [= <- <-]|].
    destruct (parse_boundary_file _ _ _) as [boundary_df|] eqn:Hbd;
      simpl; [|done].
    destruct (parse_lookup_table _ _ _) as [lookup_df|] eqn:Hlk;
      simpl; [|done].
    destruct (ambiguity_screen _ _ _) as [ambig|] eqn:Ha; simpl; [|done].
    destruct (muscle w _) as [sequences|] eqn:Hm; simpl; [|done].
    destruct (InDelSubs_init sequences) as [muts|] eqn:Hi; simpl; [|done].
    destruct (deletion_flags _ _ _) as [dels|] eqn:Hd; simpl; [|done].
    destruct (insertion_flags _ _) as [inss|] eqn:Hins; simpl; [|done].
    destruct (substitution_flags _ _) as [subs|] eqn:Hsub; simpl; [|done].
    assert (∃ q, blast_identity b = IdentityFloat q) as [q Hq].
    { unfold ambiguity_screen in Ha. cbv zeta in Ha.
      apply bind_Ok in Ha as (? & _ & Ha). apply bind_Ok in Ha as (? & _ & Ha).
      simpl in Ha. destruct (blast_identity b); [done|by eexists]. }
    intros Hrun _. exists acc, sequence, records, b, q, boundary_df, lookup_df,
      ambig, sequences, muts, dels, inss, subs.
    do 13 (split; [done|]).
    destruct (decide (len inss = 0)) as [Hn|Hn].
    + apply len_nil_iff in Hn as ->. simpl in Hrun.
      destruct (write w _); simpl in Hrun; [|done].
      injection Hrun as <- <-. done.
    + rewrite decide_False by (by intros ->). simpl in Hrun.
      injection Hrun as <- <-. done.
Qed.

(** X11: a constructor that returns a classified object was given no
    strain name; it read the query, ran BLAST, opened the boundary file
    and the lookup table, ran MUSCLE and read the alignment, in this
    order, and then wrote the alignment exactly when there is no insertion
    flag; nothing else was touched. *)
Theorem constructor_effects (w : World) (query : string)
    (strain : option string)
    (boundary_file lookup_table profile_dir output_dir : string)
    (log : list event) (self : Curation) :
  Curation_init w query strain boundary_file lookup_table profile_dir
                output_dir = (log, Ok self) →
  profile self ≠ "Unknown" →
  supplied strain = None
  ∧ log = [ReadQuery query; RunBlast query; OpenFile boundary_file;
           OpenFile lookup_table;
           RunMuscle (muscle_command profile_dir (profile self) query);
           ReadAlignment (profile_dir +:+ "/precomputed_alignment.fasta")]
          ++ (if decide (ins_flags self = Some [])
              then [SaveAlignment (output_dir +:+ "/" +:+ accession self
                                              +:+ "_aligned.fasta")]
              else []).
Proof.
  intros Hrun Hp.
  destruct (Curation_init_Ok _ _ _ _ _ _ _ _ _ Hrun Hp)
    as (acc & sequence & records & b & q & boundary_df & lookup_df & ambig
        & sequences & muts & dels & inss & subs & Hs & _ & _ & _ & _ & _ & _
        & _ & _ & _ & _ & _ & _ & -> & ->).
  split; [done|]. simpl. f_equal.
  destruct (decide (inss = [])) as [->|Hne].
  - by rewrite decide_True.
  - rewrite decide_False; [done|]. by intros [= ->].
Qed.

Lemma constructor_effects_witness :
  ∃ log self,
    Curation_init (pipeline_world identical_alignment) "query.fasta" None
                  "boundaries.txt" "lookup.txt" "profiles" "outputs"
    = (log, Ok self)
    ∧ profile self ≠ "Unknown"
    ∧ last log = Some (SaveAlignment "outputs/AB000001_aligned.fasta").
Proof.
  eexists _, _. split; [vm_compute; reflexivity|]. split; [by vm_compute|].
  match goal with
  | |- last ?l = _ =>
    destruct (constructor_effects
                (pipeline_world identical_alignment) "query.fasta" None
                "boundaries.txt" "lookup.txt" "profiles" "outputs" l _
                eq_refl ltac:(by vm_compute)) as [_ Hlog]
  end.
  rewrite Hlog. reflexivity.
Defined.

(** X12: in a classified object the mutation flags are the deletion
    flags, then the insertion flags, then the substitution flags; the
    identity is a number; and no accessor raises: each flag accessor
    returns the sentinel Pass when its list is empty and the list
    otherwise. *)
Theorem constructed_object_flags (w : World) (query : string)
    (strain : option string)
    (boundary_file lookup_table profile_dir output_dir : string)
    (log : list event) (self : Curation) :
  Curation_init w query strain boundary_file lookup_table profile_dir
                output_dir = (log, Ok self) →
  profile self ≠ "Unknown" →
  ∃ dels inss subs ambig q,
    del_flags self = Some dels ∧ ins_flags self = Some inss
    ∧ sub_flags self = Some subs ∧ ambig_flags self = Some ambig
    ∧ mut_flags self = Some (dels ++ inss ++ subs)
    ∧ identity self = IdentityFloat q
    ∧ Curation_mutation_flags self
      = Ok (if decide (dels ++ inss ++ subs = []) then Sentinel "Pass"
            else Table (dels ++ inss ++ subs))
    ∧ Curation_deletion_flags self
      = Ok (if decide (dels = []) then Sentinel "Pass" else Table dels)
    ∧ Curation_insertion_flags self
      = Ok (if decide (inss = []) then Sentinel "Pass" else Table inss)
    ∧ Curation_substitution_flags self
      = Ok (if decide (subs = []) then Sentinel "Pass" else Table subs)
    ∧ Curation_ambiguity_flags self
      = Ok (if decide (ambig = []) then AmbiguityString "Pass"
            else AmbiguityList ambig).
Proof.
  intros Hrun Hp.
  destruct (Curation_init_Ok _ _ _ _ _ _ _ _ _ Hrun Hp)
    as (acc & sequence & records & b & q & boundary_df & lookup_df & ambig
        & sequences & muts & dels & inss & subs & Hs & _ & _ & _ & Hq & _ & _
        & _ & _ & _ & _ & _ & _ & -> & _).
  simpl in Hp. exists dels, inss, subs, ambig, q.
  unfold Curation_mutation_flags, Curation_deletion_flags,
    Curation_insertion_flags, Curation_substitution_flags,
    Curation_ambiguity_flags, flags_report. simpl.
  repeat split; try done; by repeat case_decide.
Qed.

Lemma constructed_object_flags_witness :
  ∃ log self,
    Curation_init (pipeline_world example_alignment) "query.fasta" None
                  "boundaries.txt" "lookup.txt" "profiles" "outputs"
    = (log, Ok self)
    ∧ profile self ≠ "Unknown"
    ∧ ∃ dels inss subs ambig q,
        del_flags self = Some dels ∧ ins_flags self = Some inss
        ∧ sub_flags self = Some subs ∧ ambig_flags self = Some ambig
        ∧ mut_flags self = Some (dels ++ inss ++ subs)
        ∧ identity self = IdentityFloat q
        ∧ Curation_mutation_flags self
          = Ok (if decide (dels ++ inss ++ subs = []) then Sentinel "Pass"
                else Table (dels ++ inss ++ subs))
        ∧ Curation_deletion_flags self
          = Ok (if decide (dels = []) then Sentinel "Pass" else Table dels)
        ∧ Curation_insertion_flags self
          = Ok (if decide (inss = []) then Sentinel "Pass" else Table inss)
        ∧ Curation_substitution_flags self
          = Ok (if decide (subs = []) then Sentinel "Pass" else Table subs)
        ∧ Curation_ambiguity_flags self
          = Ok (if decide (ambig = []) then AmbiguityString "Pass"
                else AmbiguityList ambig).
Proof.
  eexists _, _. split; [vm_compute; reflexivity|]. split; [by vm_compute|].
  apply (constructed_object_flags
           (pipeline_world example_alignment) "query.fasta" None
           "boundaries.txt" "lookup.txt" "profiles" "outputs" _ _ eq_refl).
  by vm_compute.
Defined.

Lemma label_summarised (kind : string) :
  kind ∈ deletion_labels ++ insertion_labels ++ substitution_labels →
  contains "CDS" kind = true
  ∨ contains "NCR" kind || contains "CTS" kind = true.
Proof.
  unfold deletion_labels, insertion_labels, substitution_labels. simpl.
  intros H.
  repeat (apply elem_of_cons in H as [Heq|H];
          [subst kind; vm_compute; tauto|]).
  by apply elem_of_nil in H.
Qed.

(** X13: the summary of a constructed object is Pass exactly when both
    the mutation flags and the ambiguity flags report Pass: every label
    that the flag engine can emit contains CDS, NCR or CTS, so no flag
    escapes the tests of [summary_flag]; and the summary never raises. *)
Theorem summary_pass_iff_no_flags (w : World) (query : string)
    (strain : option string)
    (boundary_file lookup_table profile_dir output_dir : string)
    (log : list event) (self : Curation) :
  Curation_init w query strain boundary_file lookup_table profile_dir
                output_dir = (log, Ok self) →
  (∃ s, Curation_summary_flag self = Ok s)
  ∧ (Curation_summary_flag self = Ok "Pass"
     ↔ Curation_mutation_flags self = Ok (Sentinel "Pass")
       ∧ Curation_ambiguity_flags self = Ok (AmbiguityString "Pass")).
Proof.
  intros Hrun.
  destruct (decide (profile self = "Unknown")) as [Hu|Hp].
  { unfold Curation_summary_flag, Curation_mutation_flags,
      Curation_ambiguity_flags, flags_report.
    rewrite !decide_True by done. simpl. split; [by eexists|].
    split; [done|]. by intros [[=] _]. }
  destruct (Curation_init_Ok _ _ _ _ _ _ _ _ _ Hrun Hp)
    as (acc & sequence & records & b & q & boundary_df & lookup_df & ambig
        & sequences & muts & dels & inss & subs & Hs & _ & _ & _ & Hq & _ & _
        & _ & _ & _ & Hd & Hi & Hsub & -> & _).
  simpl in Hp.
  unfold Curation_summary_flag, Curation_mutation_flags,
    Curation_ambiguity_flags, flags_report. simpl.
  destruct (decide (blast_profile b = "Unknown")) as [|_]; [done|]. simpl.
  destruct (decide (ambig = [])) as [->|Ha].
  2:{ rewrite bool_decide_true by done. split; [by eexists|].
      split; [done|]. by intros [_ [=]]. }
  rewrite bool_decide_false by (by intros H; apply H).
  assert (∀ f, f ∈ dels ++ inss ++ subs →
               contains "CDS" (Flag f) = true
               ∨ contains "NCR" (Flag f) || contains "CTS" (Flag f) = true)
    as Hlabel.
  { intros f Hf. apply label_summarised.
    rewrite !elem_of_app in Hf. rewrite !elem_of_app.
    destruct Hf as [Hf|[Hf|Hf]].
    - left. by eapply deletion_flags_label.
    - right; left. by eapply insertion_flags_label.
    - right; right. by eapply substitution_flags_label. }
  destruct (any_flag (λ flag, contains "CDS" (Flag flag)) _) eqn:Hcds.
  { split; [by eexists|]. split; [done|]. intros [Hm _].
    apply any_flag_spec in Hcds as (f & Hf & _).
    case_decide as Hnil; [|done]. rewrite Hnil in Hf.
    by apply elem_of_nil in Hf. }
  destruct (any_flag (λ flag, contains "NCR" (Flag flag)
                              || contains "CTS" (Flag flag)) _) eqn:Hncr.
  { split; [by eexists|]. split; [done|]. intros [Hm _].
    apply any_flag_spec in Hncr as (f & Hf & _).
    case_decide as Hnil; [|done]. rewrite Hnil in Hf.
    by apply elem_of_nil in Hf. }
  split; [by eexists|]. split; [|done]. intros _. split; [|done].
  destruct (dels ++ inss ++ subs) as [|f rest] eqn:Hall; [done|]. exfalso.
  destruct (Hlabel f ltac:(left)) as [Hc|Hc].
  - assert (any_flag (λ flag, contains "CDS" (Flag flag)) (f :: rest) = true)
      as Ht by (apply any_flag_spec; exists f; split; [left|done]).
    congruence.
  - assert (any_flag (λ flag, contains "NCR" (Flag flag)
                              || contains "CTS" (Flag flag)) (f :: rest)
            = true)
      as Ht by (apply any_flag_spec; exists f; split; [left|done]).
    congruence.
Qed.

Lemma summary_pass_iff_no_flags_witness :
  ∃ log self,
    Curation_init (pipeline_world identical_alignment) "query.fasta" None
                  "boundaries.txt" "lookup.txt" "profiles" "outputs"
    = (log, Ok self)
    ∧ Curation_summary_flag self = Ok "Pass"
    ∧ Curation_mutation_flags self = Ok (Sentinel "Pass").
Proof.
  eexists _, _. split; [vm_compute; reflexivity|].
  destruct (summary_pass_iff_no_flags
              (pipeline_world identical_alignment) "query.fasta" None
              "boundaries.txt" "lookup.txt" "profiles" "outputs" _ _ eq_refl)
    as [_ [Hpass _]].
  split; [by vm_compute|]. apply Hpass. by vm_compute.
Defined.

(** ** Insertion runs *)

Section rank_runs.
Context (S : list Z).
Hypothesis HS : NoDup S.



End rank_runs.





(** ** Splitting and joining on one character *)

Lemma append_nil_r (s : string) : s +:+ "" = s.
Proof. induction s as [|c s IH]; [done|]. by rewrite append_String, IH. Qed.

Lemma append_assoc (s t u : string) : (s +:+ t) +:+ u = s +:+ (t +:+ u).
Proof.
  induction s as [|c s IH]; [done|]. by rewrite !append_String, IH.
Qed.

Lemma chars_append (s t : string) : chars (s +:+ t) = chars s ++ chars t.
Proof.
  induction s as [|c s IH]; [done|]. rewrite append_String. simpl.
  by rewrite <- IH.
Qed.

Lemma string_of_list_ascii_app (l k : list ascii) :
  String.string_of_list_ascii (l ++ k)
  = String.string_of_list_ascii l +:+ String.string_of_list_ascii k.
Proof.
  induction l as [|c l IH]; [done|]. simpl. by rewrite append_String, IH.
Qed.

Lemma string_of_reverse_cons (x : ascii) (cur : list ascii) (s : string) :
  String.string_of_list_ascii (reverse (x :: cur)) +:+ s
  = String.string_of_list_ascii (reverse cur) +:+ String x s.
Proof.
  rewrite reverse_cons, string_of_list_ascii_app, append_assoc. done.
Qed.

Lemma split_aux_nonempty (sep : string) (skip : nat) (cur : list ascii)
    (s : string) :
  split_aux sep skip cur s ≠ [].
Proof.
  revert skip cur. induction s as [|x s IH]; intros skip cur; [done|].
  cbn [split_aux]. destruct skip; [|apply IH].
  destruct (String.prefix sep (String x s)); [done|]. apply IH.
Qed.

Section one_character.
Context (c : ascii).
Let sep : string := String c "".

Lemma split_aux_step (cur : list ascii) (x : ascii) (s : string) :
  split_aux sep 0 cur (String x s)
  = if decide (c = x)
    then String.string_of_list_ascii (reverse cur) :: split_aux sep 0 [] s
    else split_aux sep 0 (x :: cur) s.
Proof.
  unfold sep. simpl. destruct (ascii_dec c x) as [->|Hne].
  - rewrite decide_True by done. by destruct s.
  - by rewrite decide_False.
Qed.

(** A string without the separator is one field. *)
Lemma split_aux_no_separator (cur : list ascii) (t : string) :
  c ∉ chars t →
  split_aux sep 0 cur t = [String.string_of_list_ascii (reverse cur) +:+ t].
Proof.
  revert cur. induction t as [|x t IH]; intros cur Hc.
  - simpl. by rewrite append_nil_r.
  - rewrite split_aux_step. simpl in Hc. apply not_elem_of_cons in Hc as [? ?].
    rewrite decide_False by done. rewrite IH by done.
    by rewrite string_of_reverse_cons.
Qed.

(** The fields of [s], then the last field [t]. *)
Lemma split_aux_last_field (cur : list ascii) (s t : string) :
  c ∉ chars t →
  split_aux sep 0 cur (s +:+ sep +:+ t) = split_aux sep 0 cur s ++ [t].
Proof.
  intros Hc. revert cur. induction s as [|x s IH]; intros cur.
  - rewrite append_empty. unfold sep at 2. rewrite append_String, append_empty.
    rewrite split_aux_step, decide_True by done.
    by rewrite split_aux_no_separator.
  - rewrite append_String, !split_aux_step. case_decide; [|apply IH].
    by rewrite IH.
Qed.

(** Joining the fields gives the string back. *)
Lemma join_split_aux (cur : list ascii) (s : string) :
  join sep (split_aux sep 0 cur s)
  = String.string_of_list_ascii (reverse cur) +:+ s.
Proof.
  revert cur. induction s as [|x s IH]; intros cur.
  - simpl. by rewrite append_nil_r.
  - rewrite split_aux_step. case_decide as Hx.
    + subst x. pose proof (split_aux_nonempty sep 0 [] s) as Hne.
      specialize (IH []). destruct (split_aux sep 0 [] s) as [|y ys]; [done|].
      change (join sep (?a :: y :: ys)) with (a +:+ sep +:+ join sep (y :: ys)).
      rewrite IH. done.
    + rewrite IH. by rewrite string_of_reverse_cons.
Qed.
End one_character.

Lemma py_slice_init {A : Type} (l : list A) (x : A) :
  py_slice (l ++ [x]) 0 (len (l ++ [x]) - 1) = l.
Proof.
  unfold py_slice, slice_bound. cbv zeta.
  assert (len (l ++ [x]) = len l + 1) as ->
      by (unfold len; rewrite length_app; simpl; lia).
  pose proof (len_nonneg l).
  rewrite !decide_False by lia.
  replace (Z.min (len l + 1 - 1) (len l + 1) - Z.min 0 (len l + 1))
    with (len l) by lia.
  replace (Z.to_nat (Z.min 0 (len l + 1))) with 0%nat by lia.
  unfold len. rewrite Nat2Z.id, drop_0. by rewrite take_app_length.
Qed.

(** X15: [Blast.get_strain] drops the last field of the profile name: for
    a profile [s_t] whose part [t] has no underscore the strain is [s],
    whatever underscores [s] has; for a profile without any underscore
    (other than the sentinel Unknown) the strain is the empty string. So
    splitting on the underscore and joining the fields but the last
    restores the text before the last underscore. *)
Theorem get_strain_drops_last_field (b : Blast) :
  (∀ s t, blast_profile b = s +:+ "_" +:+ t → "_"%char ∉ chars t →
          get_strain b = s)
  ∧ ("_"%char ∉ chars (blast_profile b) → blast_profile b ≠ "Unknown" →
     get_strain b = "").
Proof.
  split.
  - intros s t Hp Ht. unfold get_strain.
    rewrite decide_False.
    2:{ intros Hu. assert ("_"%char ∈ chars (blast_profile b)) as Hin.
        { rewrite Hp, !chars_append. simpl. set_solver. }
        rewrite Hu in Hin. vm_compute in Hin.
        repeat (inversion Hin as [|? ? ? Hin']; subst; clear Hin;
                rename Hin' into Hin). }
    cbv zeta. unfold split. rewrite Hp.
    rewrite (split_aux_last_field "_" [] s t Ht).
    rewrite py_slice_init. by rewrite (join_split_aux "_" [] s).
  - intros Hno Hne. unfold get_strain. rewrite decide_False by done.
    cbv zeta. unfold split.
    rewrite (split_aux_no_separator "_" [] _ Hno). done.
Qed.

Lemma get_strain_drops_last_field_witness :
  get_strain {| blast_profile := "A_4_H1" +:+ "_" +:+ "profile.fasta";
                blast_identity := IdentityUnknown |} = "A_4_H1".
Proof.
  apply (proj1 (get_strain_drops_last_field _) "A_4_H1" "profile.fasta");
    [reflexivity|].
  apply (bool_decide_unpack _). by vm_compute.
Defined.

(** ** Reading back a printed integer *)

Lemma pretty_N_char_digit (d : N) :
  (d < 10)%N →
  is_digit (pretty_N_char d)
  ∧ Z.of_nat (nat_of_ascii (pretty_N_char d)) - 48 = Z.of_N d.
Proof.
  intros Hd.
  assert (d = 0 ∨ d = 1 ∨ d = 2 ∨ d = 3 ∨ d = 4 ∨ d = 5 ∨ d = 6 ∨ d = 7
          ∨ d = 8 ∨ d = 9)%N as Hcases by lia.
  unfold is_digit.
  repeat (destruct Hcases as [->|Hcases];
          [split; [vm_compute; lia|reflexivity]|]).
  subst d. split; [vm_compute; lia|reflexivity].
Qed.

Lemma digits_value_pretty_N_go (x : N) (s : string) (after_digit : bool) :
  (0 < x)%N →
  digits_value 0 after_digit (chars (pretty_N_go x s))
  = digits_value (Z.of_N x) true (chars s).
Proof.
  revert s after_digit.
  induction (N.lt_wf_0 x) as [x _ IH]; intros s after_digit Hx.
  rewrite pretty_N_go_step by done.
  destruct (pretty_N_char_digit (x `mod` 10)%N) as [Hdigit Hval].
  { by apply N.mod_lt. }
  pose proof (N.div_mod x 10 ltac:(done)) as Hdm.
  assert (x `div` 10 < x)%N as Hlt by by apply N.div_lt.
  revert Hdigit Hval Hdm Hlt.
  generalize (x `mod` 10)%N as m. generalize (x `div` 10)%N as q.
  intros q m Hdigit Hval Hdm Hlt.
  destruct (decide (q = 0)%N) as [H0|H0].
  - rewrite H0, pretty_N_go_0. simpl.
    rewrite decide_True by done. f_equal. rewrite Hval. lia.
  - rewrite IH; [|done|by apply N.neq_0_lt_0]. simpl.
    rewrite decide_True by done. f_equal. rewrite Hval. lia.
Qed.

Lemma pretty_N_go_chars (P : ascii → Prop) (x : N) (s : string) :
  (∀ d, (d < 10)%N → P (pretty_N_char d)) →
  Forall P (chars s) → Forall P (chars (pretty_N_go x s)).
Proof.
  intros HP. revert s. induction (N.lt_wf_0 x) as [x _ IH]; intros s Hs.
  destruct (decide (x = 0)%N) as [->|Hx]; [by rewrite pretty_N_go_0|].
  rewrite pretty_N_go_step by lia. apply IH; [apply N.div_lt; lia|].
  simpl. constructor; [|done]. apply HP. by apply N.mod_lt.
Qed.

Lemma pretty_N_go_nonempty (x : N) (s : string) :
  (0 < x)%N → chars (pretty_N_go x s) ≠ [].
Proof.
  revert s. induction (N.lt_wf_0 x) as [x _ IH]; intros s Hx.
  rewrite pretty_N_go_step by done.
  destruct (decide (x `div` 10 = 0)%N) as [H0|H0].
  - by rewrite H0, pretty_N_go_0.
  - apply IH; [by apply N.div_lt|by apply N.neq_0_lt_0].
Qed.

(** The characters of a printed integer: digits, after a dash for a
    negative one. *)
Lemma str_chars (n : Z) :
  ∃ digits,
    digits ≠ [] ∧ Forall is_digit digits
    ∧ chars (str n) = (if decide (n < 0) then ["-"%char] else []) ++ digits
    ∧ digits_value 0 false digits = Some (Z.abs n).
Proof.
  assert (∀ d, (d < 10)%N → is_digit (pretty_N_char d)) as Hd
      by (intros d Hd; by apply pretty_N_char_digit).
  unfold str, pretty, pretty_Z. destruct n as [|p|p].
  - exists ["0"%char]. split; [done|]. split; [|done].
    repeat constructor; unfold is_digit; simpl; lia.
  - exists (chars (pretty_N_go (N.pos p) "")).
    unfold pretty, pretty_positive, pretty, pretty_N.
    rewrite decide_False by done.
    split; [by apply pretty_N_go_nonempty|].
    split; [by apply pretty_N_go_chars|]. split; [done|].
    by rewrite digits_value_pretty_N_go.
  - exists (chars (pretty_N_go (N.pos p) "")).
    unfold pretty, pretty_positive, pretty, pretty_N.
    rewrite decide_False by done.
    split; [by apply pretty_N_go_nonempty|].
    split; [by apply pretty_N_go_chars|]. split; [done|].
    by rewrite digits_value_pretty_N_go.
Qed.

Lemma digit_not_space (c : ascii) : is_digit c → ¬ is_space c.
Proof. unfold is_digit, is_space. cbv zeta. lia. Qed.

Lemma lstrip_head (c : ascii) (l : list ascii) :
  ¬ is_space c → lstrip (c :: l) = c :: l.
Proof. intros Hc. simpl. by rewrite decide_False. Qed.

Lemma lstrip_spaces (sp l : list ascii) :
  Forall is_space sp → lstrip (sp ++ l) = lstrip l.
Proof.
  induction 1 as [|c sp Hc _ IH]; [done|]. simpl. by rewrite decide_True.
Qed.

Lemma chars_string_of_list_ascii (l : list ascii) :
  chars (String.string_of_list_ascii l) = l.
Proof. apply String.list_ascii_of_string_of_list_ascii. Qed.

(** Stripping a text that starts and ends with characters other than
    white space, followed by white space. *)
Lemma strip_trailing (body sp : list ascii) (first final : ascii) :
  head body = Some first → last body = Some final →
  ¬ is_space first → ¬ is_space final → Forall is_space sp →
  chars (strip (String.string_of_list_ascii (body ++ sp))) = body.
Proof.
  intros Hfirst Hlast Hf Hl Hsp. unfold strip.
  rewrite !chars_string_of_list_ascii.
  destruct body as [|c body]; [done|]. injection Hfirst as ->.
  rewrite <- app_comm_cons, lstrip_head by done.
  rewrite app_comm_cons, reverse_app.
  rewrite lstrip_spaces by by apply Forall_reverse.
  destruct (reverse (first :: body)) as [|c' rbody] eqn:Hrev.
  { apply (f_equal reverse) in Hrev. by rewrite reverse_involutive in Hrev. }
  assert (c' = final) as ->.
  { apply (f_equal reverse) in Hrev. rewrite reverse_involutive in Hrev.
    rewrite Hrev, reverse_cons, last_snoc in Hlast. by injection Hlast. }
  rewrite lstrip_head by done. rewrite <- Hrev. by rewrite reverse_involutive.
Qed.

Lemma int_unsigned (l : list ascii) (c : ascii) :
  head l = Some c → is_digit c →
  match l with
  | "-"%char :: ds => Z.opp <$> digits_value 0 false ds
  | "+"%char :: ds => digits_value 0 false ds
  | ds => digits_value 0 false ds
  end = digits_value 0 false l.
Proof.
  destruct l as [|c' l]; [done|]. intros [= ->] Hc.
  unfold is_digit in Hc.
  destruct c as [[] [] [] [] [] [] [] []]; try reflexivity;
    vm_compute in Hc; lia.
Qed.

(** [int] reads a printed integer back, also when white space follows
    it. *)
Lemma int_str (n : Z) (sp : string) :
  Forall is_space (chars sp) → int (str n +:+ sp) = Ok n.
Proof.
  intros Hsp. destruct (str_chars n) as (digits & Hne & Hdigits & Hchars & Hval).
  assert (∃ d, last digits = Some d ∧ is_digit d) as (dl & Hlast & Hdl).
  { destruct (last digits) as [d|] eqn:Hl.
    - exists d. split; [done|]. rewrite Forall_forall in Hdigits.
      apply Hdigits. by apply last_Some_elem_of.
    - by apply last_None in Hl. }
  assert (∃ d, head digits = Some d ∧ is_digit d) as (dh & Hhead & Hdh).
  { destruct digits as [|d ds]; [done|]. exists d. split; [done|].
    by apply Forall_cons in Hdigits as [? _]. }
  set (body := chars (str n)) in *.
  assert (str n +:+ sp = String.string_of_list_ascii (body ++ chars sp))
    as Hstr.
  { unfold body, chars. rewrite string_of_list_ascii_app.
    by rewrite !String.string_of_list_ascii_of_string. }
  unfold int. cbv zeta. rewrite Hstr.
  assert (chars (strip (String.string_of_list_ascii (body ++ chars sp)))
          = body) as ->.
  { destruct (decide (n < 0)).
    - apply (strip_trailing _ _ "-"%char dl).
      + by rewrite Hchars.
      + rewrite Hchars. by rewrite last_app, Hlast.
      + apply (bool_decide_unpack _). by vm_compute.
      + by apply digit_not_space.
      + done.
    - apply (strip_trailing _ _ dh dl).
      + by rewrite Hchars.
      + by rewrite Hchars.
      + by apply digit_not_space.
      + by apply digit_not_space.
      + done. }
  rewrite Hchars. destruct (decide (n < 0)).
  - simpl. rewrite Hval. simpl. f_equal. lia.
  - simpl. rewrite (int_unsigned _ _ Hhead Hdh), Hval. f_equal. lia.
Qed.

(** ** Reading back a line of the boundary file *)

Lemma split_aux_first_field (c : ascii) (cur : list ascii) (s rest : string) :
  c ∉ chars s →
  split_aux (String c "") 0 cur (s +:+ String c "" +:+ rest)
  = (String.string_of_list_ascii (reverse cur) +:+ s)
      :: split_aux (String c "") 0 [] rest.
Proof.
  revert cur. induction s as [|x s IH]; intros cur Hc.
  - rewrite append_empty, append_String, append_empty.
    rewrite split_aux_step, decide_True by done. by rewrite append_nil_r.
  - simpl in Hc. apply not_elem_of_cons in Hc as [? ?].
    rewrite append_String, split_aux_step, decide_False by done.
    rewrite IH by done. by rewrite string_of_reverse_cons.
Qed.

(** Splitting a joined list of fields gives the fields back, when no field
    holds the separator. *)
Lemma split_join (c : ascii) (fields : list string) :
  fields ≠ [] → Forall (λ f, c ∉ chars f) fields →
  split (join (String c "") fields) (String c "") = fields.
Proof.
  intros Hne Hall. unfold split.
  induction Hall as [|f fields Hf Hall IH]; [done|].
  destruct fields as [|g fields].
  - simpl. by rewrite split_aux_no_separator.
  - change (join ?sep (f :: g :: fields))
      with (f +:+ sep +:+ join sep (g :: fields)).
    rewrite split_aux_first_field by done. by rewrite IH.
Qed.

Lemma str_no_char (c : ascii) (n : Z) :
  ¬ is_digit c → c ≠ "-"%char → c ∉ chars (str n).
Proof.
  intros Hd Hm. destruct (str_chars n) as (digits & _ & Hdigits & -> & _).
  rewrite Forall_forall in Hdigits.
  intros [Hin|Hin]%elem_of_app.
  - case_decide; [|by apply elem_of_nil in Hin].
    by apply list_elem_of_singleton in Hin.
  - by apply Hd, Hdigits.
Qed.

Lemma coord_fields (key : string) (n : Z) (sp : string) :
  "="%char ∉ chars key → "="%char ∉ chars sp → Forall is_space (chars sp) →
  split (join "=" [key; str n +:+ sp]) "=" = [key; str n +:+ sp]
  ∧ int (str n +:+ sp) = Ok n.
Proof.
  intros Hkey Hsp Hspace. split; [|by apply int_str].
  apply split_join; [done|]. repeat constructor; [done|].
  rewrite chars_append. intros [Hin|Hin]%elem_of_app; [|done].
  revert Hin. apply str_no_char; [|done].
  apply (bool_decide_unpack _). by vm_compute.
Qed.

Lemma coord_no_bar (key : string) (n : Z) (sp : string) :
  "|"%char ∉ chars key → "|"%char ∉ chars sp →
  "|"%char ∉ chars (join "=" [key; str n +:+ sp]).
Proof.
  intros Hkey Hsp.
  change (join "=" [key; str n +:+ sp]) with (key +:+ "=" +:+ str n +:+ sp).
  rewrite !chars_append. rewrite !elem_of_app.
  intros [Hin|[Hin|[Hin|Hin]]]; try done.
  - simpl in Hin. apply list_elem_of_singleton in Hin. done.
  - revert Hin. apply str_no_char; [|done].
    apply (bool_decide_unpack _). by vm_compute.
Qed.

Lemma read_coord (boundaries : gmap string Z) (key : string) (n : Z)
    (sp : string) (rest : list string) :
  "="%char ∉ chars key → "="%char ∉ chars sp → Forall is_space (chars sp) →
  read_coords boundaries (join "=" [key; str n +:+ sp] :: rest)
  = read_coords (<[key := n]> boundaries) rest.
Proof.
  intros Hkey Hsp Hspace.
  destruct (coord_fields key n sp Hkey Hsp Hspace) as [Hsplit Hint].
  cbn [read_coords]. rewrite Hsplit.
  change (py_index [key; str n +:+ sp] 0) with (Ok (A := string) key).
  change (py_index [key; str n +:+ sp] 1) with (Ok (str n +:+ sp)).
  cbn [bind]. rewrite Hint. done.
Qed.

(** X16: the parser reads back a line written in its format: when the
    first line of the file that starts with the strain name is the line of
    that strain (a name without a bar) with the coordinates START, CTS5,
    ATG, STOP, CTS3, END, the table has the rows CTS5 = START..CTS5,
    NCR5 = CTS5+1..ATG-1, CDS = ATG..STOP, NCR3 = STOP+1..CTS3-1 and
    CTS3 = CTS3..END, for all integers, negative ones included. *)
Theorem parse_boundary_file_round_trip
    (readlines : string → result (list string))
    (strain boundary_file : string) (before after : list string)
    (START CTS5 ATG STOP CTS3 END : Z) :
  readlines boundary_file
  = Ok (before ++ boundary_line strain START CTS5 ATG STOP CTS3 END :: after) →
  Forall (λ line, startswith line strain = false) before →
  "|"%char ∉ chars strain →
  parse_boundary_file readlines strain boundary_file
  = Ok [ {| b_Region := "CTS5"; b_Start := START; b_End := CTS5 |};
         {| b_Region := "NCR5"; b_Start := CTS5 + 1; b_End := ATG - 1 |};
         {| b_Region := "CDS"; b_Start := ATG; b_End := STOP |};
         {| b_Region := "NCR3"; b_Start := STOP + 1; b_End := CTS3 - 1 |};
         {| b_Region := "CTS3"; b_Start := CTS3; b_End := END |} ].
Proof.
  intros Hread Hbefore Hstrain. unfold parse_boundary_file. rewrite Hread.
  unfold boundary_table. cbv zeta.
  rewrite select_boundary_first; [|done|].
  2:{ apply prefix_spec. eexists. unfold boundary_line.
      change (join ?sep (?f :: ?g :: ?fields))
        with (f +:+ sep +:+ join sep (g :: fields)) at 1. done. }
  assert (Forall is_space (chars nl)) as Hnl.
  { constructor; [|constructor]. apply (bool_decide_unpack _).
    by vm_compute. }
  assert (∀ c : ascii, c ∉ chars nl ↔ c ≠ ascii_of_nat 10) as Hnl'.
  { intros c. simpl. rewrite list_elem_of_singleton. done. }
  unfold boundary_line. rewrite split_join; [|done|].
  2:{ rewrite <- (append_nil_r (str START)), <- (append_nil_r (str CTS5)),
        <- (append_nil_r (str ATG)), <- (append_nil_r (str STOP)),
        <- (append_nil_r (str CTS3)).
      repeat (constructor; [first [done|apply coord_no_bar; [|by apply Hnl' + apply not_elem_of_nil]; apply (bool_decide_unpack _); by vm_compute]|]).
      constructor. }
  cbn [drop].
  rewrite <- (append_nil_r (str START)), <- (append_nil_r (str CTS5)),
    <- (append_nil_r (str ATG)), <- (append_nil_r (str STOP)),
    <- (append_nil_r (str CTS3)).
  rewrite !read_coord
    by first [ exact Hnl | by constructor | apply not_elem_of_nil
             | by apply Hnl'
             | apply (bool_decide_unpack _); by vm_compute ].
  cbn [read_coords bind]. unfold getitem.
  by simplify_map_eq.
Qed.

Lemma parse_boundary_file_round_trip_witness :
  boundary_line "A_4_H10" 1 12 30 100 110 120
  = "A_4_H10|START=1|CTS5=12|ATG=30|STOP=100|CTS3=110|END=120" +:+ nl
  ∧ parse_boundary_file
      (λ _, Ok ["B_1|START=1|CTS5=9|ATG=20|STOP=90|CTS3=95|END=104" +:+ nl;
                boundary_line "A_4_H10" 1 12 30 100 110 120])
      "A_4_H10" "boundaries.txt"
    = Ok [ {| b_Region := "CTS5"; b_Start := 1; b_End := 12 |};
           {| b_Region := "NCR5"; b_Start := 12 + 1; b_End := 30 - 1 |};
           {| b_Region := "CDS"; b_Start := 30; b_End := 100 |};
           {| b_Region := "NCR3"; b_Start := 100 + 1; b_End := 110 - 1 |};
           {| b_Region := "CTS3"; b_Start := 110; b_End := 120 |} ].
Proof.
  split; [by vm_compute|].
  apply (parse_boundary_file_round_trip
           _ "A_4_H10" "boundaries.txt"
           ["B_1|START=1|CTS5=9|ATG=20|STOP=90|CTS3=95|END=104" +:+ nl] []);
    [reflexivity|repeat constructor|].
  apply (bool_decide_unpack _). by vm_compute.
Defined.

(** ** Substitution flags *)

Lemma filter_raising_elem {A : Type} (cond : A → result bool) (l ys : list A)
    (y : A) :
  filter_raising cond l = Ok ys → y ∈ ys → y ∈ l ∧ cond y = Ok true.
Proof.
  revert ys. induction l as [|x l IH]; intros ys H Hy.
  - injection H as <-. by apply elem_of_nil in Hy.
  - cbn [filter_raising] in H.
    apply bind_Ok in H as (b & Hb & H). apply bind_Ok in H as (zs & Hzs & H).
    injection H as <-. destruct b.
    + apply elem_of_cons in Hy as [->|Hy].
      * split; [left|done].
      * destruct (IH _ Hzs Hy). split; [by right|done].
    + destruct (IH _ Hzs Hy). split; [by right|done].
Qed.

Lemma map_raising_elem {A B : Type} (f : A → result B) (l : list A)
    (ys : list B) (x : A) :
  map_raising f l = Ok ys → x ∈ l → ∃ y, f x = Ok y ∧ y ∈ ys.
Proof.
  revert ys. induction l as [|a l IH]; intros ys H Hx.
  - by apply elem_of_nil in Hx.
  - cbn [map_raising] in H.
    apply bind_Ok in H as (b & Hb & H). apply bind_Ok in H as (zs & Hzs & H).
    injection H as <-. apply elem_of_cons in Hx as [->|Hx].
    + exists b. split; [done|left].
    + destruct (IH _ Hzs Hx) as (y & ? & ?). exists y. split; [done|by right].
Qed.

(** An element of a slice that starts at a position [a ≥ 0]. *)
Lemma py_index_py_slice {A : Type} (l : list A) (a b i : Z) (x : A) :
  0 ≤ a → 0 ≤ i → py_index (py_slice l a b) i = Ok x →
  l !! Z.to_nat (a + i) = Some x.
Proof.
  intros Ha Hi. unfold py_index. cbv zeta.
  destruct (decide (i < 0)); [lia|]. case_decide as Hr; [|done].
  destruct (py_slice l a b !! Z.to_nat i) as [y|] eqn:Hy; [|done].
  intros [= ->]. unfold py_slice in Hy. cbv zeta in Hy.
  apply lookup_take_Some in Hy as [Hy _].
  rewrite lookup_drop in Hy.
  assert (slice_bound (len l) a = a) as Hb.
  { apply lookup_lt_Some in Hy. unfold slice_bound in *.
    destruct (decide (a < 0)); [lia|]. unfold len in *. lia. }
  rewrite Hb in Hy. by replace (Z.to_nat (a + i)) with (Z.to_nat a + Z.to_nat i)%nat by lia.
Qed.

(** A slice between two positions of the list. *)
Lemma py_slice_inside {A : Type} (l : list A) (a b : Z) :
  0 ≤ a ≤ b → b ≤ len l →
  py_slice l a b = take (Z.to_nat (b - a)) (drop (Z.to_nat a) l)
  ∧ len (py_slice l a b) = b - a.
Proof.
  intros Hab Hb. unfold py_slice, slice_bound. cbv zeta.
  destruct (decide (a < 0)); [lia|]. destruct (decide (b < 0)); [lia|].
  replace (Z.min a (len l)) with a by lia.
  replace (Z.min b (len l)) with b by lia. split; [done|].
  unfold len in *. rewrite length_take, length_drop. lia.
Qed.

Lemma chars_upper (s : string) : chars (upper s) = upper_char <$> chars s.
Proof. unfold upper. apply chars_string_of_list_ascii. Qed.

Lemma chars_str_slice (s : string) (a b : Z) :
  chars (str_slice s a b) = py_slice (chars s) a b.
Proof. unfold str_slice. apply chars_string_of_list_ascii. Qed.

Lemma upper_char_dash (c : ascii) : upper_char c = "-"%char → c = "-"%char.
Proof.
  destruct c as [[] [] [] [] [] [] [] []]; vm_compute; congruence.
Qed.

Lemma py_sum_nonneg (l : list Z) : Forall (λ x, 0 ≤ x) l → 0 ≤ py_sum l.
Proof. induction 1; simpl; lia. Qed.

Lemma ins_before_nonneg (self : InDelSubs) (x n : Z) :
  ins_before self x = Ok n → 0 ≤ n.
Proof.
  unfold ins_before. intros (gs & _ & [= <-])%bind_Ok.
  apply py_sum_nonneg, Forall_fmap, Forall_forall. intros g _.
  apply len_nonneg.
Qed.

(** A column that [cts_muts] keeps, when the window starts at [start_adj]
    and the columns are counted from there: the query has a character
    there, every profile row has another one, and the column is neither
    an insertion column nor a query gap. *)
Lemma cts_muts_elem (self : InDelSubs) (start_adj end_adj shift : Z)
    (muts : list Z) (c : Z) :
  0 ≤ start_adj →
  cts_muts self start_adj end_adj shift = Ok muts → c ∈ muts →
  0 ≤ c - shift
  ∧ (c ∉ nkip self) ∧ (c ∉ nkdp self)
  ∧ ∃ qc, chars (query_seq self) !! Z.to_nat (start_adj + (c - shift))
          = Some qc
          ∧ ∀ seq, seq ∈ profile_seqs self →
                   ∃ pc, chars seq !! Z.to_nat (start_adj + (c - shift))
                         = Some pc ∧ pc ≠ qc.
Proof.
  intros Hs. unfold cts_muts. cbv zeta.
  intros (hits & Hhits & [= <-])%bind_Ok.
  intros (i & -> & Hi)%list_elem_of_fmap.
  replace (i + shift - shift) with i by lia.
  destruct (filter_raising_elem _ _ _ _ Hhits Hi) as [Hrange Hcond].
  apply elem_of_seqZ in Hrange.
  apply bind_Ok in Hcond as (qi & Hqi & Hcond).
  apply bind_Ok in Hcond as (bases & Hbases & Hcond).
  injection Hcond as Hcond. apply andb_true_iff in Hcond as [Hq Hcols].
  apply bool_decide_eq_true in Hq. apply negb_true_iff in Hcols.
  apply orb_false_iff in Hcols as [Hi1 Hi2].
  apply bool_decide_eq_false in Hi1, Hi2.
  split; [lia|]. split; [done|]. split; [done|].
  exists qi. split; [by eapply py_index_py_slice; [|lia|]|].
  intros seq Hseq.
  destruct (map_raising_elem _ _ _ _ Hbases Hseq) as (pc & Hpc & Hin).
  exists pc. split; [by eapply py_index_py_slice; [|lia|]|].
  by intros ->.
Qed.

Lemma substitution_run_flags (sequences : list string) (self : InDelSubs)
    (kind : string) (muts pos : list Z) (flags : list flag) (f : flag) :
  InDelSubs_init sequences = Ok self →
  (∀ c, c ∈ muts → 0 ≤ c ∧ substituted_column self c) →
  pos ∈ consecutive_groups muts →
  substitution_group_flags self kind pos = Ok flags → f ∈ flags →
  ∃ c0,
    0 < Length f
    ∧ Variant f = upper (str_slice (query_seq self) c0 (c0 + Length f))
    ∧ len (chars (Variant f)) = Length f
    ∧ remove_dups (chars (Variant f)) ≠ ["N"%char]
    ∧ ("-"%char ∉ chars (Variant f))
    ∧ ∀ c, c0 ≤ c < c0 + Length f → substituted_column self c.
Proof.
  intros Hinit Hmuts (Hne & [c0 Hseq] & Hin)%consecutive_groups_spec Hflags Hf.
  assert (0 < len pos) as Hn.
  { pose proof (len_nonneg pos). rewrite <- len_nil_iff in Hne. lia. }
  assert (∀ c, c0 ≤ c < c0 + len pos → 0 ≤ c ∧ substituted_column self c)
    as Hcols.
  { intros c Hc. apply Hmuts, Hin. rewrite Hseq. apply elem_of_seqZ. lia. }
  assert (0 ≤ c0) as Hc0 by (apply (Hcols c0); lia).
  assert (c0 + len pos ≤ len (chars (query_seq self))) as Hend.
  { destruct (Hcols (c0 + len pos - 1) ltac:(lia))
      as (_ & _ & _ & qc & Hqc%lookup_lt_Some & _).
    unfold len in *. lia. }
  unfold substitution_group_flags in Hflags. cbv zeta in Hflags.
  assert (py_index pos 0 = Ok c0) as Hfirst.
  { rewrite Hseq at 1. by apply py_index_seqZ_first. }
  assert (py_index pos (len pos - 1) = Ok (c0 + len pos - 1)) as Hlast.
  { apply py_index_last_Some. rewrite Hseq at 1. by apply last_seqZ. }
  rewrite Hfirst, Hlast in Hflags. cbn [bind] in Hflags.
  replace (c0 + len pos - 1 + 1) with (c0 + len pos) in Hflags by lia.
  case_decide as HN; [injection Hflags as <-; by apply elem_of_nil in Hf|].
  apply bind_Ok in Hflags as (p0 & _ & Hflags).
  apply bind_Ok in Hflags as (positions & _ & Hflags).
  injection Hflags as <-. apply list_elem_of_singleton in Hf as ->.
  cbn [Length Variant]. exists c0.
  destruct (py_slice_inside (chars (query_seq self)) c0 (c0 + len pos)
              ltac:(lia) Hend) as [Hslice Hlen].
  split; [done|]. split; [done|]. split.
  { rewrite chars_upper, len_fmap, chars_str_slice, Hlen. lia. }
  split; [done|]. split; [|intros c Hc; by apply Hcols].
  rewrite chars_upper, chars_str_slice, Hslice.
  intros (x & Hx%eq_sym%upper_char_dash & Hin')%list_elem_of_fmap. subst x.
  apply list_elem_of_lookup in Hin' as [k Hk].
  apply lookup_take_Some in Hk as [Hk Hlt]. rewrite lookup_drop in Hk.
  destruct (Hcols (c0 + Z.of_nat k) ltac:(lia)) as (_ & _ & Hgap & _).
  apply Hgap, (elem_of_nkdp _ _ Hinit). split; [lia|].
  by replace (Z.to_nat (c0 + Z.of_nat k)) with (Z.to_nat c0 + k)%nat by lia.
Qed.

Lemma first_row_of_region (boundary_df : list boundary_row)
    (region : string) (field : boundary_row → Z) (v : Z) :
  py_index (field <$> filter (λ r, b_Region r = region) boundary_df) 0 = Ok v →
  ∃ r, r ∈ boundary_df ∧ b_Region r = region ∧ field r = v.
Proof.
  intros Hv%py_index_Ok_elem.
  apply list_elem_of_fmap in Hv as (r & Hv & [? ?]%list_elem_of_filter).
  by exists r.
Qed.

(** X17: under a boundary table whose CTS5 rows start at 1 and whose CTS3
    rows start at 1 or later, every flag of [substitution_flags] stands
    for a run of [Length] consecutive columns of the alignment: in each
    of them the query has a character that no profile row has at that
    column, and the column is neither an insertion column nor a query gap.
    The variant is the upper-case text of the query over the run: it has
    [Length] characters, none of them a gap, and it is not made of N
    only. *)
Theorem substitution_flag_columns (sequences : list string)
    (self : InDelSubs) (boundary_df : list boundary_row)
    (flags : list flag) (f : flag) :
  InDelSubs_init sequences = Ok self →
  substitution_flags self boundary_df = Ok flags → f ∈ flags →
  (∀ r, r ∈ boundary_df → b_Region r = "CTS5" → b_Start r = 1) →
  (∀ r, r ∈ boundary_df → b_Region r = "CTS3" → 1 ≤ b_Start r) →
  ∃ c0,
    0 < Length f
    ∧ Variant f = upper (str_slice (query_seq self) c0 (c0 + Length f))
    ∧ len (chars (Variant f)) = Length f
    ∧ remove_dups (chars (Variant f)) ≠ ["N"%char]
    ∧ ("-"%char ∉ chars (Variant f))
    ∧ ∀ c, c0 ≤ c < c0 + Length f → substituted_column self c.
Proof.
  intros Hinit H Hf H5 H3. unfold substitution_flags in H. cbv zeta in H.
  apply bind_Ok in H as (s5 & Hs5 & H). apply bind_Ok in H as (s3 & Hs3 & H).
  apply bind_Ok in H as (e5 & _ & H). apply bind_Ok in H as (e3 & _ & H).
  apply bind_Ok in H as (n1 & Hn1%ins_before_nonneg & H).
  apply bind_Ok in H as (n2 & _ & H). apply bind_Ok in H as (n3 & _ & H).
  apply bind_Ok in H as (cts5_muts & Hm5 & H).
  apply bind_Ok in H as (cts3_muts & Hm3 & H).
  apply bind_Ok in H as (flags5 & Hf5 & H).
  apply bind_Ok in H as (flags3 & Hf3 & H). injection H as <-.
  apply first_row_of_region in Hs5 as (r5 & Hr5 & Hreg5 & <-).
  apply first_row_of_region in Hs3 as (r3 & Hr3 & Hreg3 & <-).
  pose proof (H5 _ Hr5 Hreg5) as Hstart5. pose proof (H3 _ Hr3 Hreg3) as Hstart3.
  apply elem_of_app in Hf as [Hf|Hf].
  - destruct (for_each_Ok_elem _ _ _ _ Hf5 Hf) as (pos & zs & Hpos & Hg & Hz).
    apply (substitution_run_flags sequences self "5'CTS-mut" cts5_muts pos zs);
      try done.
    intros c Hc.
    destruct (cts_muts_elem self (b_Start r5 - 1) _ _ _ c ltac:(lia) Hm5 Hc)
      as (Hge & Hi & Hd & qc & Hqc & Hprof).
    replace (b_Start r5 - 1 + (c - 0)) with c in * by lia.
    split; [lia|]. split; [done|]. split; [done|]. by exists qc.
  - destruct (for_each_Ok_elem _ _ _ _ Hf3 Hf) as (pos & zs & Hpos & Hg & Hz).
    apply (substitution_run_flags sequences self "3'CTS-mut" cts3_muts pos zs);
      try done.
    intros c Hc.
    destruct (cts_muts_elem self (b_Start r3 - 1 + n1) _ _ _ c
                ltac:(lia) Hm3 Hc)
      as (Hge & Hi & Hd & qc & Hqc & Hprof).
    replace (b_Start r3 - 1 + n1 + (c - (b_Start r3 - 1 + n1))) with c in *
      by lia.
    split; [lia|]. split; [done|]. split; [done|]. by exists qc.
Qed.

Lemma substitution_flag_columns_witness :
  ∃ self,
    InDelSubs_init substituted_alignment = Ok self
    ∧ substitution_flags self example_boundaries
      = Ok [mk_flag "5'CTS-mut" "2" "2" "T" 1]
    ∧ ∃ c0,
        0 < 1
        ∧ "T" = upper (str_slice (query_seq self) c0 (c0 + 1))
        ∧ len (chars "T") = 1
        ∧ remove_dups (chars "T") ≠ ["N"%char]
        ∧ ("-"%char ∉ chars "T")
        ∧ ∀ c, c0 ≤ c < c0 + 1 → substituted_column self c.
Proof.
  eexists. split; [vm_compute; reflexivity|]. split; [by vm_compute|].
  apply (substitution_flag_columns
           substituted_alignment _ example_boundaries
           [mk_flag "5'CTS-mut" "2" "2" "T" 1]
           (mk_flag "5'CTS-mut" "2" "2" "T" 1));
    [by vm_compute|by vm_compute|left| |];
    intros r Hr Hreg; unfold example_boundaries in Hr;
    repeat (apply elem_of_cons in Hr as [Heq|Hr];
            [subst r; simpl in *; first [done|lia]|]);
    by apply elem_of_nil in Hr.
Defined.

(** ** The effects of the constructor, on every path *)

Ltac event_cases H :=
  repeat (apply elem_of_cons in H as [H|H]; [try discriminate H|]);
  try (by apply elem_of_nil in H).

Ltac unguarded_effects k :=
  intros [= <- <-];
  split; [exists "", ""; exact (prefix_take _ k)|];
  split; [intros ? Hin; by event_cases Hin|intros ? Hin; by event_cases Hin].

(** X18: whatever the outcome of the constructor, failure included, its
    effects come in one fixed order: the query is read, then BLAST is run
    or the profile directory listed, then the boundary file and the lookup
    table are opened, MUSCLE is run, the alignment is read and saved.
    MUSCLE is never run unless BLAST classified the query, both tables
    were parsed and the ambiguity screen returned; the alignment is never
    saved unless MUSCLE has been run, the three flag engines returned and
    there is no insertion flag. *)
Theorem constructor_effects_guarded (w : World) (query : string)
    (strain : option string)
    (boundary_file lookup_table profile_dir output_dir : string)
    (log : list event) (outcome : result Curation) :
  Curation_init w query strain boundary_file lookup_table profile_dir
                output_dir = (log, outcome) →
  (∃ cmd path,
     log `prefix_of`
       [ReadQuery query;
        match supplied strain with
        | Some _ => ListDir profile_dir
        | None => RunBlast query
        end;
        OpenFile boundary_file; OpenFile lookup_table; RunMuscle cmd;
        ReadAlignment (profile_dir +:+ "/precomputed_alignment.fasta");
        SaveAlignment path])
  ∧ (∀ cmd, RunMuscle cmd ∈ log →
       ∃ acc sequence records b boundary_df lookup_df ambig,
         supplied strain = None
         ∧ get_acc_and_seq w query = Ok (acc, sequence)
         ∧ blast_records w query = Ok records ∧ Blast_init records = Ok b
         ∧ blast_profile b ≠ "Unknown"
         ∧ cmd = muscle_command profile_dir (blast_profile b) query
         ∧ parse_boundary_file (readlines w) (get_strain b) boundary_file
           = Ok boundary_df
         ∧ parse_lookup_table (readlines w) (blast_profile b) lookup_table
           = Ok lookup_df
         ∧ ambiguity_screen acc sequence (Some (blast_identity b)) = Ok ambig
         ∧ ∀ path, SaveAlignment path ∈ log →
             ∃ sequences muts dels subs,
               muscle w cmd = Ok sequences
               ∧ InDelSubs_init sequences = Ok muts
               ∧ deletion_flags muts lookup_df boundary_df = Ok dels
               ∧ insertion_flags muts boundary_df = Ok []
               ∧ substitution_flags muts boundary_df = Ok subs
               ∧ path = output_dir +:+ "/" +:+ acc +:+ "_aligned.fasta")
  ∧ (∀ path, SaveAlignment path ∈ log → ∃ cmd, RunMuscle cmd ∈ log).
Proof.
  unfold Curation_init, perform, pure, io_bind.
  destruct (get_acc_and_seq w query) as [[acc sequence]|e] eqn:Hq;
    [|unguarded_effects 1%nat].
  simpl. destruct (supplied strain) as [name|] eqn:Hs.
  - destruct (listdir w profile_dir) as [names|e]; simpl;
      [|unguarded_effects 2%nat].
    destruct (py_index _ 0) as [p|e]; simpl; [|unguarded_effects 2%nat].
    case_decide; simpl; [unguarded_effects 2%nat|].
    destruct (parse_boundary_file _ _ _); simpl; [|unguarded_effects 3%nat].
    destruct (parse_lookup_table _ _ _); simpl; [|unguarded_effects 4%nat].
    rewrite ambiguity_screen_unbound. simpl. unguarded_effects 4%nat.
  - destruct (blast_records w query) as [records|e] eqn:Hr; simpl;
      [|unguarded_effects 2%nat].
    destruct (Blast_init records) as [b|e] eqn:Hb; simpl;
      [|unguarded_effects 2%nat].
    case_decide as Hu; simpl; [unguarded_effects 2%nat|].
    destruct (parse_boundary_file _ _ _) as [boundary_df|] eqn:Hbd; simpl;
      [|unguarded_effects 3%nat].
    destruct (parse_lookup_table _ _ _) as [lookup_df|] eqn:Hlk; simpl;
      [|unguarded_effects 4%nat].
    destruct (ambiguity_screen _ _ _) as [ambig|] eqn:Ha; simpl;
      [|unguarded_effects 4%nat].
    fold (muscle_command profile_dir (blast_profile b) query).
    set (cmd := muscle_command profile_dir (blast_profile b) query).
    set (path := output_dir +:+ "/" +:+ acc +:+ "_aligned.fasta").
    assert (∀ l : list event,
              RunMuscle cmd ∈ l →
              ∀ path', SaveAlignment path' ∈ l → ∃ cmd', RunMuscle cmd' ∈ l)
      as Hrun by (intros l Hl path' _; by exists cmd).
    assert (∀ (k : nat) (l : list event),
              l = take k [ReadQuery query; RunBlast query;
                          OpenFile boundary_file; OpenFile lookup_table;
                          RunMuscle cmd;
                          ReadAlignment
                            (profile_dir +:+ "/precomputed_alignment.fasta");
                          SaveAlignment path] →
              ∃ cmd path,
                l `prefix_of`
                  [ReadQuery query; RunBlast query; OpenFile boundary_file;
                   OpenFile lookup_table; RunMuscle cmd;
                   ReadAlignment
                     (profile_dir +:+ "/precomputed_alignment.fasta");
                   SaveAlignment path]) as Hprefix.
    { intros k l ->. exists cmd, path. apply prefix_take. }
    assert (∀ l : list event,
              l = take 6 [ReadQuery query; RunBlast query;
                          OpenFile boundary_file; OpenFile lookup_table;
                          RunMuscle cmd;
                          ReadAlignment
                            (profile_dir +:+ "/precomputed_alignment.fasta");
                          SaveAlignment path] →
              ∀ cmd', RunMuscle cmd' ∈ l →
                ∃ acc' sequence' records' b' boundary_df' lookup_df' ambig',
                  None = None (A := string)
                  ∧ Ok (acc, sequence) = Ok (acc', sequence')
                  ∧ Ok records = Ok records' ∧ Blast_init records' = Ok b'
                  ∧ blast_profile b' ≠ "Unknown"
                  ∧ cmd' = muscle_command profile_dir (blast_profile b') query
                  ∧ parse_boundary_file (readlines w) (get_strain b')
                                        boundary_file = Ok boundary_df'
                  ∧ parse_lookup_table (readlines w) (blast_profile b')
                                       lookup_table = Ok lookup_df'
                  ∧ ambiguity_screen acc' sequence'
                                     (Some (blast_identity b')) = Ok ambig'
                  ∧ ∀ path', SaveAlignment path' ∈ l →
                      ∃ sequences muts dels subs,
                        muscle w cmd' = Ok sequences
                        ∧ InDelSubs_init sequences = Ok muts
                        ∧ deletion_flags muts lookup_df' boundary_df' = Ok dels
                        ∧ insertion_flags muts boundary_df' = Ok []
                        ∧ substitution_flags muts boundary_df' = Ok subs
                        ∧ path' = output_dir +:+ "/" +:+ acc'
                                             +:+ "_aligned.fasta")
      as Hunsaved.
    { intros l -> cmd' Hin. event_cases Hin. injection Hin as ->.
      exists acc, sequence, records, b, boundary_df, lookup_df, ambig.
      do 9 (split; [done|]). intros path' Hin'. by event_cases Hin'. }
    assert (∀ l : list event,
              l = take 6 [ReadQuery query; RunBlast query;
                          OpenFile boundary_file; OpenFile lookup_table;
                          RunMuscle cmd;
                          ReadAlignment
                            (profile_dir +:+ "/precomputed_alignment.fasta");
                          SaveAlignment path] →
              RunMuscle cmd ∈ l) as Hin6.
    { intros l ->. by apply (list_elem_of_lookup_2 _ 4%nat). }
    destruct (muscle w cmd) as [sequences|] eqn:Hm; simpl.
    2:{ intros [= <- <-]. split; [by apply (Hprefix 6%nat)|].
        split; [by apply Hunsaved|by apply Hrun, Hin6]. }
    destruct (InDelSubs_init sequences) as [muts|] eqn:Hi; simpl.
    2:{ intros [= <- <-]. split; [by apply (Hprefix 6%nat)|].
        split; [by apply Hunsaved|by apply Hrun, Hin6]. }
    destruct (deletion_flags _ _ _) as [dels|] eqn:Hd; simpl.
    2:{ intros [= <- <-]. split; [by apply (Hprefix 6%nat)|].
        split; [by apply Hunsaved|by apply Hrun, Hin6]. }
    destruct (insertion_flags _ _) as [inss|] eqn:Hins; simpl.
    2:{ intros [= <- <-]. split; [by apply (Hprefix 6%nat)|].
        split; [by apply Hunsaved|by apply Hrun, Hin6]. }
    destruct (substitution_flags _ _) as [subs|] eqn:Hsub; simpl.
    2:{ intros [= <- <-]. split; [by apply (Hprefix 6%nat)|].
        split; [by apply Hunsaved|by apply Hrun, Hin6]. }
    destruct (decide (len inss = 0)) as [Hn|Hn]; simpl.
    2:{ intros [= <- <-]. split; [by apply (Hprefix 6%nat)|].
        split; [by apply Hunsaved|by apply Hrun, Hin6]. }
    apply len_nil_iff in Hn as ->. fold path.
    assert (log = [ReadQuery query; RunBlast query; OpenFile boundary_file;
                   OpenFile lookup_table; RunMuscle cmd;
                   ReadAlignment
                     (profile_dir +:+ "/precomputed_alignment.fasta");
                   SaveAlignment path] →
            (∃ cmd path,
               log `prefix_of`
                 [ReadQuery query; RunBlast query; OpenFile boundary_file;
                  OpenFile lookup_table; RunMuscle cmd;
                  ReadAlignment
                    (profile_dir +:+ "/precomputed_alignment.fasta");
                  SaveAlignment path])
            ∧ (∀ cmd', RunMuscle cmd' ∈ log →
                 ∃ acc' sequence' records' b' boundary_df' lookup_df' ambig',
                   None = None (A := string)
                   ∧ Ok (acc, sequence) = Ok (acc', sequence')
                   ∧ Ok records = Ok records' ∧ Blast_init records' = Ok b'
                   ∧ blast_profile b' ≠ "Unknown"
                   ∧ cmd' = muscle_command profile_dir (blast_profile b')
                                           query
                   ∧ parse_boundary_file (readlines w) (get_strain b')
                                         boundary_file = Ok boundary_df'
                   ∧ parse_lookup_table (readlines w) (blast_profile b')
                                        lookup_table = Ok lookup_df'
                   ∧ ambiguity_screen acc' sequence'
                                      (Some (blast_identity b')) = Ok ambig'
                   ∧ ∀ path', SaveAlignment path' ∈ log →
                       ∃ sequences muts dels subs,
                         muscle w cmd' = Ok sequences
                         ∧ InDelSubs_init sequences = Ok muts
                         ∧ deletion_flags muts lookup_df' boundary_df'
                           = Ok dels
                         ∧ insertion_flags muts boundary_df' = Ok []
                         ∧ substitution_flags muts boundary_df' = Ok subs
                         ∧ path' = output_dir +:+ "/" +:+ acc'
                                              +:+ "_aligned.fasta")
            ∧ (∀ path', SaveAlignment path' ∈ log →
                        ∃ cmd', RunMuscle cmd' ∈ log)) as Hsaved.
    { intros ->. split; [by apply (Hprefix 7%nat)|]. split.
      - intros cmd' Hin. event_cases Hin. injection Hin as ->.
        exists acc, sequence, records, b, boundary_df, lookup_df, ambig.
        do 9 (split; [done|]). intros path' Hin'. event_cases Hin'.
        injection Hin' as ->. by exists sequences, muts, dels, subs.
      - apply Hrun. by apply (list_elem_of_lookup_2 _ 4%nat). }
    destruct (write w path); simpl; intros [= <- <-]; by apply Hsaved.
Qed.

Lemma constructor_effects_guarded_witness :
  ∃ log outcome,
    Curation_init strain_world "query.fasta" (Some "B_1") "boundaries.txt"
                  "lookup.txt" "profiles" "outputs" = (log, outcome)
    ∧ ∀ cmd, RunMuscle cmd ∉ log.
Proof.
  eexists _, _. split; [reflexivity|]. intros cmd Hin.
  destruct (constructor_effects_guarded
              strain_world "query.fasta" (Some "B_1") "boundaries.txt"
              "lookup.txt" "profiles" "outputs" _ _ eq_refl)
    as (_ & Hguard & _).
  destruct (Hguard cmd Hin) as (? & ? & ? & ? & ? & ? & ? & Hs & _).
  discriminate Hs.
Defined.
